(** * line-bot-president: the reminder subsystem of [app.js]

    A shallow embedding of the interview store, the reminder window
    evaluator, the late-creation guard, the recipient resolution, the send
    loop, the reminder cycle and the trigger entry point of [src/app.js]
    (the broadcast policy), of the message parser, the input checks and the
    command handlers, followed by the properties of the specification proved
    of it.  The earlier copy of the program, with the legacy
    targeted policy and without recipient tracking, is not embedded.

    Conventions.
    - Time instants are epoch milliseconds in [Z]; a moment difference in
      fractional hours is the rational [ms # 3600000].  JavaScript computes
      that quotient in binary floating point, correctly rounded; the
      thresholds the code compares it with (1, 3, 2.5, 3.5, 23.5, 24.5) are
      exactly representable, each is the quotient of a whole number of
      milliseconds, and the quotient of any other whole number is at least
      [1/3600000] away, far more than the rounding error; so every
      comparison made by the code has the same outcome on the rational.
    - Text is [string] (UTF-8 bytes); [Js.length] counts UTF-16 code units as
      JavaScript's [.length] does.
    - The database, the push channel and the reply channel are an explicit
      [World] threaded through a small state monad; what they answer is
      decided by the oracles of an [Env], which may depend on the whole
      history of events.  A refusal by an oracle covers every error the
      outside can answer with (a broken connection, a violated constraint, a
      rejected token).
    - The [catch] blocks around [sendReminderMessage] and around each
      interview of [processReminders] are reached by nothing in this
      embedding: every call they enclose reports its failure as a value.
      The [catch] of the trigger handler is reached when the action of the
      request is no text.
    - Left out: the contact tracker of the webhook (it writes the contact
      tables only), the status command and the debug page. *)

From Stdlib Require Import ZArith QArith Lia Ascii String.
From stdpp Require Import base option list sorting gmap strings pretty.

Local Open Scope string_scope.
Local Open Scope list_scope.
Local Open Scope Z_scope.

(* ===================================================================== *)
(** ** JavaScript values and strings                                      *)
(* ===================================================================== *)

Module Js.

(** Truthiness of a string: every string but the empty one. *)
Definition truthy (s : string) : bool := negb (String.eqb s "").

(** Truthiness of a value that is either [undefined]/[null] or a string. *)
Definition truthy_opt (o : option string) : bool :=
  match o with
  | Some s => truthy s
  | None => false
  end.

(** [o || d] for such a value. *)
Definition or_else (o : option string) (d : string) : string :=
  match o with
  | Some s => if truthy s then s else d
  | None => d
  end.

(** Number of UTF-16 code units of a UTF-8 text: a continuation byte
    counts for nothing, the lead byte of a four-byte sequence for two. *)
Definition units_of_byte (a : Ascii.ascii) : nat :=
  let n := Ascii.nat_of_ascii a in
  if (n <? 128)%nat then 1%nat
  else if (n <? 192)%nat then 0%nat
  else if (n <? 240)%nat then 1%nat
  else 2%nat.

Fixpoint length (s : string) : nat :=
  match s with
  | EmptyString => 0%nat
  | String a s' => (units_of_byte a + length s')%nat
  end.

Definition startsWith (s p : string) : bool := String.prefix p s.

(** [s.substring(0, n)] on text whose first [n] units are ASCII. *)
Definition substring0 (n : nat) (s : string) : string := String.substring 0 n s.

(** [s.split(',')]: the pieces between the commas, at least one piece. *)
Fixpoint split_comma_aux (cur : string) (s : string) : list string :=
  match s with
  | EmptyString => [String.rev cur]
  | String a s' =>
      if Ascii.eqb a ","%char then String.rev cur :: split_comma_aux "" s'
      else split_comma_aux (String a cur) s'
  end.

Definition split_comma (s : string) : list string := split_comma_aux "" s.

(** [s.replace(pat, rep)] with a string pattern: the first occurrence only. *)
Fixpoint replace_first (pat rep s : string) : string :=
  if String.prefix pat s
  then rep +:+ String.substring (String.length pat) (String.length s - String.length pat) s
  else match s with
       | EmptyString => EmptyString
       | String a s' => String a (replace_first pat rep s')
       end.

(** ASCII lower-casing; it agrees with [toLowerCase] on whether the result
    is a given text made of ASCII letters other than [k]. *)
Definition lower_ascii (a : Ascii.ascii) : Ascii.ascii :=
  let n := Ascii.nat_of_ascii a in
  if ((65 <=? n) && (n <=? 90))%nat then Ascii.ascii_of_nat (n + 32) else a.

Fixpoint toLowerCase (s : string) : string :=
  match s with
  | EmptyString => EmptyString
  | String a s' => String (lower_ascii a) (toLowerCase s')
  end.

(** A JavaScript [Set] of strings: insertion ordered, no duplicates. *)
Definition set_add (x : string) (s : list string) : list string :=
  if bool_decide (x ∈ s) then s else s ++ [x].

Definition set_add_all (xs : list string) (s : list string) : list string :=
  foldl (λ acc x, set_add x acc) s xs.

End Js.

(* ===================================================================== *)
(** ** Moments in the organisation's time zone                            *)
(* ===================================================================== *)

Module Moment.

Definition digit (a : Ascii.ascii) : option Z :=
  let n := Z.of_nat (Ascii.nat_of_ascii a) in
  if (48 <=? n) && (n <=? 57) then Some (n - 48) else None.

(** A run of decimal digits, most significant first. *)
Fixpoint digits_from (acc : Z) (s : string) : option Z :=
  match s with
  | EmptyString => Some acc
  | String a s' =>
      match digit a with
      | Some d => digits_from (10 * acc + d) s'
      | None => None
      end
  end.

Definition number (s : string) : option Z :=
  match s with
  | EmptyString => None
  | _ => digits_from 0 s
  end.

Definition is_leap (y : Z) : bool :=
  ((y mod 4 =? 0) && negb (y mod 100 =? 0)) || (y mod 400 =? 0).

Definition days_in_month (y m : Z) : Z :=
  if m =? 2 then (if is_leap y then 29 else 28)
  else if (m =? 4) || (m =? 6) || (m =? 9) || (m =? 11) then 30
  else 31.

(** Days from 1970-01-01 to the civil date [y]-[m]-[d] (proleptic
    Gregorian calendar). *)
Definition days_from_civil (y m d : Z) : Z :=
  let y' := if m <=? 2 then y - 1 else y in
  let era := y' / 400 in
  let yoe := y' - era * 400 in
  let mp := (m + 9) mod 12 in
  let doy := (153 * mp + 2) / 5 + d - 1 in
  let doe := yoe * 365 + yoe / 4 - yoe / 100 + doy in
  era * 146097 + doe - 719468.

(** ['YYYY-MM-DD'], the text of a DATE column: the day number. *)
Definition parse_date (s : string) : option Z :=
  if negb (String.length s =? 10)%nat then None
  else
    match number (String.substring 0 4 s), String.substring 4 1 s,
          number (String.substring 5 2 s), String.substring 7 1 s,
          number (String.substring 8 2 s) with
    | Some y, "-", Some m, "-", Some d =>
        if (1 <=? m) && (m <=? 12) && (1 <=? d) && (d <=? days_in_month y m)
        then Some (days_from_civil y m d)
        else None
    | _, _, _, _, _ => None
    end.

(** The hours, minutes and seconds moment takes for valid: a time of day,
    or 24:00:00, which it reads as the midnight that ends the day. *)
Definition valid_hms (h mi sec : Z) : bool :=
  ((h <=? 23) && (mi <=? 59) && (sec <=? 59))
  || ((h =? 24) && (mi =? 0) && (sec =? 0)).

(** ['HH:mm:ss'], the text of a TIME column: seconds since midnight. *)
Definition parse_time_hms (s : string) : option Z :=
  if negb (String.length s =? 8)%nat then None
  else
    match number (String.substring 0 2 s), String.substring 2 1 s,
          number (String.substring 3 2 s), String.substring 5 1 s,
          number (String.substring 6 2 s) with
    | Some h, ":", Some mi, ":", Some sec =>
        if valid_hms h mi sec
        then Some (h * 3600 + mi * 60 + sec)
        else None
    | _, _, _, _, _ => None
    end.

(** ['HH:mm']. *)
Definition parse_time_hm (s : string) : option Z :=
  if negb (String.length s =? 5)%nat then None
  else
    match number (String.substring 0 2 s), String.substring 2 1 s,
          number (String.substring 3 2 s) with
    | Some h, ":", Some mi =>
        if valid_hms h mi 0 then Some (h * 3600 + mi * 60) else None
    | _, _, _ => None
    end.

(** Asia/Taipei is UTC+8 the whole year. *)
Definition utc_offset_ms : Z := 8 * 3600 * 1000.
Definition ms_per_day : Z := 86400000.
Definition ms_per_hour : Z := 3600000.

(** [moment.tz(`${date} ${time}`, 'YYYY-MM-DD HH:mm:ss', 'Asia/Taipei')]:
    the instant, or [None] for an invalid moment. *)
Definition tz (date time : string) : option Z :=
  match parse_date date, parse_time_hms time with
  | Some day, Some sec => Some (day * ms_per_day + sec * 1000 - utc_offset_ms)
  | _, _ => None
  end.

(** [a.diff(b, 'hours', true)]. *)
Definition diff_hours (a b : Z) : Q := (a - b) # 3600000.

(** The local day number of an instant: what [now.format('YYYY-MM-DD')]
    denotes when the store compares it with a DATE. *)
Definition local_day (now : Z) : Z := (now + utc_offset_ms) / ms_per_day.

(** [moment.tz(s, 'YYYY-MM-DD', true, 'Asia/Taipei').isValid()]. *)
Definition validDate (s : string) : bool := bool_decide (is_Some (parse_date s)).

(** [moment.tz(s, ['HH:mm', 'HH:mm:ss'], true, 'Asia/Taipei').isValid()]. *)
Definition validTime (s : string) : bool :=
  bool_decide (is_Some (parse_time_hm s)) || bool_decide (is_Some (parse_time_hms s)).

(** [moment.tz(date, 'Asia/Taipei').format('YYYY-MM-DD')]. *)
Definition format_date (date : string) : string :=
  if validDate date then date else "Invalid date".

(** Comparisons of a possibly invalid (NaN) number of hours with a
    threshold: all false on NaN. *)
Definition Qlt_bool (a b : Q) : bool := (Qnum a * QDen b <? Qnum b * QDen a)%Z.

Definition lt (d : option Q) (t : Q) : bool :=
  match d with Some x => Qlt_bool x t | None => false end.
Definition ge (d : option Q) (t : Q) : bool :=
  match d with Some x => Qle_bool t x | None => false end.
Definition le (d : option Q) (t : Q) : bool :=
  match d with Some x => Qle_bool x t | None => false end.

End Moment.

(* ===================================================================== *)
(** ** Text as code points                                                *)
(* ===================================================================== *)

(** The patterns of the command layer and [trim] look at single
    characters.  A text is UTF-8 here; its characters are its code points,
    each kept as the bytes that encode it.  The classes below hold no half
    of a surrogate pair, so reading code points is reading UTF-16 units for
    them. *)
Module Text.

(** A continuation byte, [10xxxxxx]. *)
Definition is_continuation (a : Ascii.ascii) : bool :=
  let n := Ascii.nat_of_ascii a in (128 <=? n)%nat && (n <? 192)%nat.

Definition continues (s : string) : bool :=
  match s with
  | String b _ => is_continuation b
  | EmptyString => false
  end.

(** The code points of a text. *)
Fixpoint chars (s : string) : list string :=
  match s with
  | EmptyString => []
  | String a s' =>
      if continues s'
      then match chars s' with
           | c :: cs => String a c :: cs
           | [] => [String a EmptyString]
           end
      else String a EmptyString :: chars s'
  end.

Fixpoint join (cs : list string) : string :=
  match cs with
  | [] => EmptyString
  | c :: cs' => c +:+ join cs'
  end.

Definition byte (s : string) (i : nat) : Z :=
  match String.get i s with
  | Some a => Z.of_nat (Ascii.nat_of_ascii a)
  | None => 0
  end.

(** The number of a code point. *)
Definition code_point (c : string) : Z :=
  match String.length c with
  | 1%nat => byte c 0
  | 2%nat => (byte c 0 - 192) * 64 + (byte c 1 - 128)
  | 3%nat => (byte c 0 - 224) * 4096 + (byte c 1 - 128) * 64 + (byte c 2 - 128)
  | _ => (byte c 0 - 240) * 262144 + (byte c 1 - 128) * 4096
         + (byte c 2 - 128) * 64 + (byte c 3 - 128)
  end.

(** LineTerminator: LF, CR, LS, PS. *)
Definition is_line_terminator (c : string) : bool :=
  let n := code_point c in
  (n =? 10) || (n =? 13) || (n =? 8232) || (n =? 8233).

(** WhiteSpace: TAB, VT, FF, ZWNBSP and the space separators. *)
Definition is_white_space (c : string) : bool :=
  let n := code_point c in
  (n =? 9) || (n =? 11) || (n =? 12) || (n =? 32) || (n =? 160) || (n =? 5760)
  || ((8192 <=? n) && (n <=? 8202)) || (n =? 8239) || (n =? 8287) || (n =? 12288)
  || (n =? 65279).

(** [\s], and what [trim] strips. *)
Definition is_space (c : string) : bool := is_white_space c || is_line_terminator c.

(** [[^\s]]. *)
Definition non_space (c : string) : bool := negb (is_space c).

(** [.] *)
Definition dot (c : string) : bool := negb (is_line_terminator c).

(** [\d]. *)
Definition is_digit (c : string) : bool :=
  match c with
  | String a EmptyString => bool_decide (is_Some (Moment.digit a))
  | _ => false
  end.

Fixpoint drop_while (f : string → bool) (cs : list string) : list string :=
  match cs with
  | c :: cs' => if f c then drop_while f cs' else cs
  | [] => []
  end.

(** [s.trim()]. *)
Definition trim (s : string) : string :=
  join (rev (drop_while is_space (rev (drop_while is_space (chars s))))).

End Text.

(* ===================================================================== *)
(** ** The interview table, the contact tables and the outside world      *)
(* ===================================================================== *)

(** The reminder kinds ['24h'] and ['3h']: no caller passes another text. *)
Inductive ReminderType : Type := R24h | R3h.

Definition kind_text (k : ReminderType) : string :=
  match k with R24h => "24h" | R3h => "3h" end.

(** A row of [interviews] without its primary key; a fetched interview is
    the pair of its [id] and these columns ([created_at] and [updated_at]
    are kept by the database and never read by the program). *)
Record Interview : Type := mkInterview {
  user_id : string;
  interviewee_name : string;
  interviewer_name : option string;
  interview_date : string;
  interview_time : string;
  reason : option string;
  reminder_24h_sent : bool;
  reminder_3h_sent : bool
}.

Definition Row : Type := Z * Interview.

Definition set_24h (b : bool) (r : Interview) : Interview :=
  mkInterview (user_id r) (interviewee_name r) (interviewer_name r)
  (interview_date r) (interview_time r) (reason r) b (reminder_3h_sent r).

Definition set_3h (b : bool) (r : Interview) : Interview :=
  mkInterview (user_id r) (interviewee_name r) (interviewer_name r)
  (interview_date r) (interview_time r) (reason r) (reminder_24h_sent r) b.

Definition flag (k : ReminderType) (r : Interview) : bool :=
  match k with R24h => reminder_24h_sent r | R3h => reminder_3h_sent r end.

(** The object handed to [.update(...)]: column names with their values. *)
Inductive Value : Type := VStr (s : string) | VBool (b : bool).

Definition Patch : Type := list (string * Value).

(** What the table does with one [column: value] pair; [None] when the
    table has no such column or the value has the wrong type. *)
Definition assign (c : string) (v : Value) : option (Interview → Interview) :=
  match v with
  | VStr s =>
    if String.eqb c "user_id" then
      Some (λ r, mkInterview s (interviewee_name r) (interviewer_name r)
                   (interview_date r) (interview_time r) (reason r)
                   (reminder_24h_sent r) (reminder_3h_sent r))
    else if String.eqb c "interviewee_name" then
      Some (λ r, mkInterview (user_id r) s (interviewer_name r)
                   (interview_date r) (interview_time r) (reason r)
                   (reminder_24h_sent r) (reminder_3h_sent r))
    else if String.eqb c "interviewer_name" then
      Some (λ r, mkInterview (user_id r) (interviewee_name r) (Some s)
                   (interview_date r) (interview_time r) (reason r)
                   (reminder_24h_sent r) (reminder_3h_sent r))
    else if String.eqb c "interview_date" then
      Some (λ r, mkInterview (user_id r) (interviewee_name r) (interviewer_name r)
                   s (interview_time r) (reason r)
                   (reminder_24h_sent r) (reminder_3h_sent r))
    else if String.eqb c "interview_time" then
      Some (λ r, mkInterview (user_id r) (interviewee_name r) (interviewer_name r)
                   (interview_date r) s (reason r)
                   (reminder_24h_sent r) (reminder_3h_sent r))
    else if String.eqb c "reason" then
      Some (λ r, mkInterview (user_id r) (interviewee_name r) (interviewer_name r)
                   (interview_date r) (interview_time r) (Some s)
                   (reminder_24h_sent r) (reminder_3h_sent r))
    else None
  | VBool b =>
    if String.eqb c "reminder_24h_sent" then Some (set_24h b)
    else if String.eqb c "reminder_3h_sent" then Some (set_3h b)
    else None
  end.

Fixpoint patch_fun (p : Patch) : option (Interview → Interview) :=
  match p with
  | [] => Some (λ r, r)
  | (c, v) :: p' =>
    match assign c v, patch_fun p' with
    | Some f, Some g => Some (λ r, g (f r))
    | _, _ => None
    end
  end.

(** The requests the program sends to the database. *)
Inductive Request : Type :=
  | Insert (r : Interview)
  | SelectByUser (userId : string)
  | SelectUpcoming (today : Z)
  | SelectCandidates (today : Z)
  | Update (id : Z) (owner : option string) (p : Patch)
  | Delete (id : Z) (owner : string)
  | SelectLineUsers
  | SelectInterviewOwners
  | SelectLineGroups.

(** Everything the program does to the outside, newest first; each entry
    carries the error the outside answered with, if any. *)
Inductive Event : Type :=
  | Store (q : Request) (err : option string)
  | Push (to text : string) (err : option string)
  | Reply (text : string).

Record World : Type := mkWorld {
  interviews : gmap Z Interview;
  next_id : Z;
  line_users : list (string * bool);
  line_groups : list (string * bool);
  events : list Event
}.

(** The environment: the process variables, and the oracles that decide
    from the history so far whether the database refuses a request and
    whether the messaging channel refuses a push. *)
Record Env : Type := mkEnv {
  store_fault : list Event → Request → option string;
  push_fault : list Event → string → string → option string;
  PRESIDENT_LINE_USER_ID : option string;
  GROUP_ID : option string;
  GROUP_IDS : option string;
  CRON_API_KEY : option string;
  SUPABASE_URL : option string;
  SUPABASE_KEY : option string
}.

(** The store is reliable when it refuses nothing. *)
Definition store_reliable (env : Env) : Prop :=
  ∀ h q, store_fault env h q = None.

Definition record (e : Event) (w : World) : World :=
  mkWorld (interviews w) (next_id w) (line_users w) (line_groups w) (e :: events w).

Definition with_interviews (t : gmap Z Interview) (n : Z) (w : World) : World :=
  mkWorld t n (line_users w) (line_groups w) (events w).

(** [{ success: true, data }] or [{ success: false, error }]. *)
Inductive Result (A : Type) : Type :=
  | Success (data : A)
  | Failure (error : string).
Arguments Success {A} data.
Arguments Failure {A} error.

Definition is_success {A} (r : Result A) : bool :=
  match r with Success _ => true | Failure _ => false end.

(** *** The state monad of the asynchronous code *)

Definition M (A : Type) : Type := World → A * World.

Definition ret {A} (a : A) : M A := λ w, (a, w).

Definition bind {A B} (m : M A) (k : A → M B) : M B :=
  λ w, let (a, w') := m w in k a w'.

Notation "'do' x <- m ; k" := (bind m (λ x, k))
  (at level 10, x name, m at level 100, k at level 200).
Notation "'do' ' p <- m ; k" := (bind m (λ x, let 'p := x in k))
  (at level 10, p pattern, m at level 100, k at level 200).

Definition when_ (b : bool) (m : M unit) : M unit := if b then m else ret tt.

Definition ignore {A} (m : M A) : M unit := do _x <- m; ret tt.

(** *** The database *)

Module Db.
Section Db.
Variable env : Env.

(** A read: refused, or answered from the tables. *)
Definition select {A} (q : Request) (rows : World → A) : M (Result A) :=
  λ w,
    match store_fault env (events w) q with
    | Some e => (Failure e, record (Store q (Some e)) w)
    | None => (Success (rows w), record (Store q None) w)
    end.

Definition duplicate_key : string :=
  "duplicate key value violates unique constraint".
Definition bad_column : string :=
  "Could not find the column in the schema cache".

(** [.insert([row]).select()]: the key comes from the table's sequence. *)
Definition insert_row (r : Interview) : M (Result (list Row)) :=
  λ w,
    match store_fault env (events w) (Insert r) with
    | Some e => (Failure e, record (Store (Insert r) (Some e)) w)
    | None =>
        match interviews w !! next_id w with
        | Some _ =>
            (Failure duplicate_key,
             record (Store (Insert r) (Some duplicate_key)) w)
        | None =>
            (Success [(next_id w, r)],
             record (Store (Insert r) None)
               (with_interviews (<[next_id w := r]> (interviews w)) (next_id w + 1) w))
        end
    end.

Definition owned_by (owner : option string) (r : Interview) : bool :=
  match owner with
  | Some u => String.eqb (user_id r) u
  | None => true
  end.

(** [.update(p).eq('id', id)] with or without [.eq('user_id', owner)];
    the answer lists the rows that were changed. *)
Definition update_rows (id : Z) (owner : option string) (p : Patch) : M (Result (list Row)) :=
  λ w,
    let q := Update id owner p in
    match store_fault env (events w) q with
    | Some e => (Failure e, record (Store q (Some e)) w)
    | None =>
        match patch_fun p with
        | None => (Failure bad_column, record (Store q (Some bad_column)) w)
        | Some f =>
            match interviews w !! id with
            | Some r =>
                if owned_by owner r
                then (Success [(id, f r)],
                      record (Store q None)
                        (with_interviews (<[id := f r]> (interviews w)) (next_id w) w))
                else (Success [], record (Store q None) w)
            | None => (Success [], record (Store q None) w)
            end
        end
    end.

(** [.delete().eq('id', id).eq('user_id', owner)]: only an error comes back. *)
Definition delete_rows (id : Z) (owner : string) : M (Result unit) :=
  λ w,
    let q := Delete id owner in
    match store_fault env (events w) q with
    | Some e => (Failure e, record (Store q (Some e)) w)
    | None =>
        match interviews w !! id with
        | Some r =>
            if owned_by (Some owner) r
            then (Success tt,
                  record (Store q None)
                    (with_interviews (delete id (interviews w)) (next_id w) w))
            else (Success tt, record (Store q None) w)
        | None => (Success tt, record (Store q None) w)
        end
    end.

Definition rows (w : World) : list Row := map_to_list (interviews w).

Definition on_or_after (today : Z) (r : Interview) : bool :=
  match Moment.parse_date (interview_date r) with
  | Some d => today <=? d
  | None => false
  end.

(** [.or('reminder_24h_sent.eq.false,reminder_3h_sent.eq.false')
     .gte('interview_date', today)]. *)
Definition is_candidate (today : Z) (r : Interview) : bool :=
  (negb (reminder_24h_sent r) || negb (reminder_3h_sent r)) && on_or_after today r.

Definition candidates (today : Z) (w : World) : list Row :=
  filter (λ x : Row, is_candidate today x.2) (rows w).

Definition active_ids (t : list (string * bool)) : list string :=
  map fst (filter (λ x : string * bool, x.2) t).

End Db.
End Db.

(* ===================================================================== *)
(** ** [class InterviewManager]                                           *)
(* ===================================================================== *)

Module InterviewManager.
Section InterviewManager.
Variable env : Env.

(** [interviewDateTime.diff(now, 'hours', true)] for the row's date and
    time; [None] is the NaN of an invalid moment. *)
Definition diffHours (now : Z) (interview : Interview) : option Q :=
  match Moment.tz (interview_date interview) (interview_time interview) with
  | Some interviewDateTime => Some (Moment.diff_hours interviewDateTime now)
  | None => None
  end.

(** Mark reminder as sent. *)
Definition updateData (reminderType : ReminderType) : Patch :=
  match reminderType with
  | R24h => [("reminder_24h_sent", VBool true)]
  | R3h => [("reminder_3h_sent", VBool true)]
  end.

Definition markReminderSent (interviewId : Z) (reminderType : ReminderType)
  : M (Result unit) :=
  do res <- Db.update_rows env interviewId None (updateData reminderType);
  ret (match res with
       | Success _ => Success tt
       | Failure e => Failure e
       end).

Definition undefined_row : string :=
  "Cannot read properties of undefined (reading 'interview_date')".

(** Add new interview; [now] is the clock read after the insert. *)
Definition addInterview (now : Z)
    (userId intervieweeName interviewerName date time reason : string)
  : M (Result Row) :=
  do res <- Db.insert_row env
              (mkInterview userId intervieweeName (Some interviewerName)
                 date time (Some reason) false false);
  match res with
  | Failure e => ret (Failure e)
  | Success data =>
      match data with
      | [] => ret (Failure undefined_row)
      | interview :: _ =>
          let d := diffHours now interview.2 in
          do _ <- when_ (Moment.lt d 3)
                    (ignore (markReminderSent interview.1 R24h));
          do _ <- when_ (Moment.lt d 1)
                    (ignore (markReminderSent interview.1 R3h));
          ret (Success interview)
      end
  end.

(** [.order('interview_date').order('interview_time')], both ascending. *)
Definition date_time_key (x : Row) : Z * Z :=
  (default 0 (Moment.parse_date (interview_date x.2)),
   default 0 (Moment.parse_time_hms (interview_time x.2))).

Definition date_time_le (x y : Row) : Prop :=
  let (d1, t1) := date_time_key x in
  let (d2, t2) := date_time_key y in
  d1 < d2 ∨ (d1 = d2 ∧ t1 ≤ t2).

#[global] Instance date_time_le_dec x y : Decision (date_time_le x y).
Proof. unfold date_time_le. destruct (date_time_key x), (date_time_key y). apply _. Defined.

Definition ordered (l : list Row) : list Row := merge_sort date_time_le l.

(** Get all interviews for a user. *)
Definition getInterviews (userId : string) : M (Result (list Row)) :=
  Db.select env (SelectByUser userId)
    (λ w, ordered (filter (λ x : Row, String.eqb (user_id x.2) userId) (Db.rows w))).

(** Get all upcoming interviews (from today onwards) for broadcast. *)
Definition getAllUpcomingInterviews (now : Z) : M (Result (list Row)) :=
  let today := Moment.local_day now in
  Db.select env (SelectUpcoming today)
    (λ w, ordered (filter (λ x : Row, Db.on_or_after today x.2) (Db.rows w))).

(** Update interview: [data[0]] is [undefined] when no row matched. *)
Definition updateInterview (userId : string) (interviewId : Z) (updates : Patch)
  : M (Result (option Row)) :=
  do res <- Db.update_rows env interviewId (Some userId) updates;
  ret (match res with
       | Success data => Success (head data)
       | Failure e => Failure e
       end).

(** Delete interview. *)
Definition deleteInterview (userId : string) (interviewId : Z) : M (Result unit) :=
  Db.delete_rows env interviewId userId.

(** The two tests of the classification loop. *)
Definition needs24h (now : Z) (interview : Interview) : bool :=
  let d := diffHours now interview in
  negb (reminder_24h_sent interview) && Moment.ge d (47 # 2) && Moment.le d (49 # 2).

Definition needs3h (now : Z) (interview : Interview) : bool :=
  let d := diffHours now interview in
  negb (reminder_3h_sent interview) && Moment.ge d (5 # 2) && Moment.le d (7 # 2).

(** [for (const interview of allInterviews || [])], pushing onto the two
    arrays. *)
Fixpoint classify (now : Z) (allInterviews interviews24h interviews3h : list Row)
  : list Row * list Row :=
  match allInterviews with
  | [] => (interviews24h, interviews3h)
  | interview :: rest =>
      classify now rest
        (if needs24h now interview.2 then interviews24h ++ [interview] else interviews24h)
        (if needs3h now interview.2 then interviews3h ++ [interview] else interviews3h)
  end.

(** Get interviews that need reminders. *)
Definition getInterviewsNeedingReminders (now : Z)
  : M (Result (list Row * list Row)) :=
  let today := Moment.local_day now in
  do res <- Db.select env (SelectCandidates today) (Db.candidates today);
  ret (match res with
       | Failure e => Failure e
       | Success allInterviews => Success (classify now allInterviews [] [])
       end).

End InterviewManager.
End InterviewManager.


(* ===================================================================== *)
(** ** The messaging client                                               *)
(* ===================================================================== *)

Definition nl : string := String (Ascii.ascii_of_nat 10) EmptyString.

Module Client.
Section Client.
Variable env : Env.

(** [client.pushMessage(to, { type: 'text', text })]: the error it throws,
    if any. *)
Definition pushMessage (to text : string) : M (option string) :=
  λ w,
    let err := push_fault env (events w) to text in
    (err, record (Push to text err) w).

(** [client.replyMessage(replyToken, { type: 'text', text })]. *)
Definition replyMessage (text : string) : M unit :=
  λ w, (tt, record (Reply text) w).

End Client.
End Client.

(* ===================================================================== *)
(** ** [class ReminderManager]                                            *)
(* ===================================================================== *)

Module ReminderManager.
Section ReminderManager.
Variable env : Env.

(** LINE user IDs should start with 'U' and be 33 characters long. *)
Definition isValidLineUserId (userId : string) : bool :=
  Js.truthy userId && Js.startsWith userId "U" && (Js.length userId =? 33)%nat.

(** LINE group IDs should start with 'C' and be 33 characters long. *)
Definition isValidLineGroupId (groupId : string) : bool :=
  Js.truthy groupId && Js.startsWith groupId "C" && (Js.length groupId =? 33)%nat.

(** The configured groups: [GROUP_ID], then the pieces of [GROUP_IDS]. *)
Definition add_env_groups (groupIds : list string) : list string :=
  let singleGroup := Text.trim (Js.or_else (GROUP_ID env) "") in
  let groupIds := if Js.truthy singleGroup then Js.set_add singleGroup groupIds else groupIds in
  let multipleGroups := Text.trim (Js.or_else (GROUP_IDS env) "") in
  if Js.truthy multipleGroups
  then Js.set_add_all
         (List.filter Js.truthy (map Text.trim (Js.split_comma multipleGroups))) groupIds
  else groupIds.

(** Get all user IDs and group IDs to send reminders to (tracked users and
    groups, with the fallbacks of the environment). *)
Definition getReminderRecipientIds : M (list string * list string) :=
  do users <- Db.select env SelectLineUsers (λ w, Db.active_ids (line_users w));
  let userIds :=
    match users with
    | Success rows => Js.set_add_all (List.filter Js.truthy rows) []
    | Failure _ => []
    end in
  do userIds <-
    (if (length userIds =? 0)%nat
     then
       do owners <- Db.select env SelectInterviewOwners
                      (λ w, map (λ x : Row, user_id x.2) (Db.rows w));
       ret (match owners with
            | Success rows => Js.set_add_all (List.filter Js.truthy rows) userIds
            | Failure _ => userIds
            end)
     else ret userIds);
  let userIds :=
    match PRESIDENT_LINE_USER_ID env with
    | Some president => if Js.truthy president then Js.set_add president userIds else userIds
    | None => userIds
    end in
  do groups <- Db.select env SelectLineGroups (λ w, Db.active_ids (line_groups w));
  let groupIds :=
    match groups with
    | Success rows => Js.set_add_all (List.filter Js.truthy rows) []
    | Failure _ => []
    end in
  let groupIds :=
    if (length groupIds =? 0)%nat
    then add_env_groups groupIds
    else add_env_groups groupIds in
  ret (userIds, groupIds).

Definition display_time (interview : Interview) : string :=
  if Js.truthy (interview_time interview)
  then Js.substring0 5 (interview_time interview)
  else interview_time interview.

Definition reminderMessage (interview : Interview) (reminderType : ReminderType) : string :=
  let date := Moment.format_date (interview_date interview) in
  let time := display_time interview in
  let hoursText := match reminderType with R24h => "24小時" | R3h => "3小時" end in
  "🔔 面談提醒通知" +:+ nl +:+ nl +:+ "您有一個面談即將在" +:+ hoursText +:+ "後舉行：" +:+ nl +:+ nl
  +:+ "👤 面談對象：" +:+ interviewee_name interview +:+ nl
  +:+ "👨‍💼 面談者：" +:+ Js.or_else (interviewer_name interview) "未指定" +:+ nl
  +:+ "📅 日期：" +:+ date +:+ nl
  +:+ "⏰ 時間：" +:+ time +:+ nl
  +:+ "📝 理由：" +:+ Js.or_else (reason interview) "無" +:+ nl +:+ nl
  +:+ "請做好準備！".

(** The text pushed onto [errors] for an identifier that fails the format
    check of its kind. *)
Definition invalid_format (Label what id : string) : string :=
  Label +:+ " " +:+ id +:+ ": Invalid LINE " +:+ what +:+ " ID format".

(** The text pushed onto [errors] when the push to [id] throws [message]. *)
Definition delivery_error (Label id message : string) : string :=
  Label +:+ " " +:+ id +:+ ": " +:+ message.

(** One of the two send loops, [for (const id of ids)]: [valid] is the
    format check of the kind, [warn] tells whether an identifier that fails
    it is reported (the reminder loops) or passed over in silence (the list
    broadcast). *)
Fixpoint sendEach (Label what : string) (valid : string → bool) (warn : bool)
    (message : string) (ids : list string) (sentCount : nat) (errors : list string)
  : M (nat * list string) :=
  match ids with
  | [] => ret (sentCount, errors)
  | id :: rest =>
      if negb (valid id)
      then sendEach Label what valid warn message rest sentCount
             (if warn then errors ++ [invalid_format Label what id] else errors)
      else
        do err <- Client.pushMessage env id message;
        match err with
        | None => sendEach Label what valid warn message rest (S sentCount) errors
        | Some e =>
            sendEach Label what valid warn message rest sentCount
              (errors ++ [delivery_error Label id e])
        end
  end.

(** [errors.length > 0 ? errors : undefined]. *)
Definition or_undefined (errors : list string) : option (list string) :=
  if (0 <? length errors)%nat then Some errors else None.

(** What [sendReminderMessage] returns; [error] is only set by its
    [catch], which nothing in this embedding reaches. *)
Record SendResult : Type := mkSendResult {
  success : bool;
  sentCount : nat;
  errors : option (list string);
  error : option string
}.

(** Send reminder message to every user and every group. *)
Definition sendReminderMessage (interview : Row) (reminderType : ReminderType)
  : M SendResult :=
  let message := reminderMessage interview.2 reminderType in
  do '(userIds, groupIds) <- getReminderRecipientIds;
  do '(sentCount, errors) <-
    sendEach "User" "user" isValidLineUserId true message userIds 0 [];
  do '(sentCount, errors) <-
    sendEach "Group" "group" isValidLineGroupId true message groupIds sentCount errors;
  ret (mkSendResult (0 <? sentCount)%nat sentCount (or_undefined errors) None).

(** The body of the two loops of [processReminders], for one interview. *)
Definition undefined_text (o : option string) : string := default "undefined" o.

Definition processOne (reminderType : ReminderType) (interview : Row)
    (acc : nat * list string) : M (nat * list string) :=
  let '(totalSent, errs) := acc in
  do reminderResult <- sendReminderMessage interview reminderType;
  if success reminderResult
  then
    do _ <- InterviewManager.markReminderSent env interview.1 reminderType;
    ret ((totalSent
          + (if (sentCount reminderResult =? 0)%nat then 1 else sentCount reminderResult))%nat,
         errs ++ default [] (errors reminderResult))
  else
    ret (totalSent,
         errs ++ [kind_text reminderType +:+ " reminder for interview "
                  +:+ pretty interview.1 +:+ ": "
                  +:+ undefined_text (error reminderResult)]).

Fixpoint processAll (reminderType : ReminderType) (interviews : list Row)
    (acc : nat * list string) : M (nat * list string) :=
  match interviews with
  | [] => ret acc
  | interview :: rest =>
      do acc' <- processOne reminderType interview acc;
      processAll reminderType rest acc'
  end.

Record CycleReport : Type := mkCycleReport {
  totalSent : nat;
  report_errors : option (list string)
}.

(** Process reminders. *)
Definition processReminders (now : Z) : M (Result CycleReport) :=
  do result <- InterviewManager.getInterviewsNeedingReminders env now;
  match result with
  | Failure e => ret (Failure e)
  | Success (interviews24h, interviews3h) =>
      do acc <- processAll R24h interviews24h (0%nat, []);
      do '(total, errs) <- processAll R3h interviews3h acc;
      ret (Success (mkCycleReport total (or_undefined errs)))
  end.

End ReminderManager.
End ReminderManager.

(* ===================================================================== *)
(** ** The list broadcast                                                 *)
(* ===================================================================== *)

Module Broadcast.
Section Broadcast.
Variable env : Env.

Definition block (i : nat) (interview : Row) : string :=
  let date := Moment.format_date (interview_date interview.2) in
  let time := ReminderManager.display_time interview.2 in
  pretty (S i) +:+ ". ID: " +:+ pretty interview.1 +:+ nl
  +:+ "   面談對象: " +:+ interviewee_name interview.2 +:+ nl
  +:+ "   面談者: " +:+ Js.or_else (interviewer_name interview.2) "未指定" +:+ nl
  +:+ "   日期: " +:+ date +:+ nl
  +:+ "   時間: " +:+ time +:+ nl
  +:+ "   理由: " +:+ Js.or_else (reason interview.2) "無" +:+ nl +:+ nl.

Definition maxLen : nat := 4500.

(** [for (let i = 0; i < interviews.length; i++)], with its [break]. *)
Fixpoint blocks (count i : nat) (interviews : list Row) (message : string) : string :=
  match interviews with
  | [] => message
  | interview :: rest =>
      if (maxLen <? Js.length message + Js.length (block i interview))%nat
      then message +:+ "…共 " +:+ pretty count +:+ " 筆面談，僅顯示部分。" +:+ nl
      else blocks count (S i) rest (message +:+ block i interview)
  end.

Definition listMessage (interviews : list Row) : string :=
  let message := "📋 全部面談提醒" +:+ nl +:+ nl in
  let message :=
    if (length interviews =? 0)%nat
    then message +:+ "目前沒有即將舉行的面談。" +:+ nl
    else blocks (length interviews) 0 interviews message in
  message +:+ nl +:+ "輸入「查看 全部」可查看完整清單。".

Inductive ListResult : Type :=
  | ListSent (sentCount interviewCount : nat) (errors : option (list string))
  | ListFailed (error : string) (sentCount : nat).

(** Send the full interview list to every user and every group. *)
Definition sendInterviewListToEveryone (now : Z) : M ListResult :=
  do result <- InterviewManager.getAllUpcomingInterviews env now;
  match result with
  | Failure e => ret (ListFailed e 0)
  | Success interviews =>
      let message := listMessage interviews in
      do '(userIds, groupIds) <- ReminderManager.getReminderRecipientIds env;
      do '(sentCount, errors) <-
        ReminderManager.sendEach env "User" "user"
          ReminderManager.isValidLineUserId false message userIds 0 [];
      do '(sentCount, errors) <-
        ReminderManager.sendEach env "Group" "group"
          ReminderManager.isValidLineGroupId false message groupIds sentCount errors;
      ret (ListSent sentCount (length interviews) (ReminderManager.or_undefined errors))
  end.

End Broadcast.
End Broadcast.

(* ===================================================================== *)
(** ** The command layer: update and delete                               *)
(* ===================================================================== *)

Module Commands.
Section Commands.
Variable env : Env.

(** Field mapping for Chinese field names to database columns. *)
Definition fieldMap : list (string * string) :=
  [ ("面談對象", "interviewee_name");
    ("面談者", "interviewer_name");
    ("日期", "interview_date");
    ("時間", "interview_time");
    ("理由", "reason") ].

Fixpoint own_property (field : string) (m : list (string * string)) : option string :=
  match m with
  | [] => None
  | (k, v) :: m' => if String.eqb k field then Some v else own_property field m'
  end.

(** The names [fieldMap] inherits from [Object.prototype]: [fieldMap[name]]
    is then a function (or, for [__proto__], an object), which is truthy,
    equal to no text, and becomes the text below when used as the key of
    [updates]. *)
Definition inherited_functions : list string :=
  [ "hasOwnProperty"; "isPrototypeOf"; "propertyIsEnumerable";
    "toLocaleString"; "toString"; "valueOf"; "__defineGetter__";
    "__defineSetter__"; "__lookupGetter__"; "__lookupSetter__" ].

Definition native_function (name : string) : string :=
  "function " +:+ name +:+ "() { [native code] }".

Definition inherited_key (field : string) : option string :=
  if String.eqb field "__proto__" then Some "[object Object]"
  else if String.eqb field "constructor" then Some (native_function "Object")
  else if bool_decide (field ∈ inherited_functions)
  then Some (native_function field)
  else None.

(** [fieldMap[field]], as the key it makes in [updates]; [None] when the
    lookup is [undefined]. *)
Definition dbField_of (field : string) : option string :=
  match own_property field fieldMap with
  | Some column => Some column
  | None => inherited_key field
  end.

(** [/^\d{2}:\d{2}$/]. *)
Definition is_digit (a : Ascii.ascii) : bool := bool_decide (is_Some (Moment.digit a)).

Definition matches_hh_mm (s : string) : bool :=
  match s with
  | String a (String b (String c (String d (String e EmptyString)))) =>
      is_digit a && is_digit b && Ascii.eqb c ":"%char && is_digit d && is_digit e
  | _ => false
  end.

Definition fullwidth_colon : string := "：".

Definition bad_update_format : string :=
  "格式錯誤！請使用：更新 {ID} {欄位} {新值}" +:+ nl +:+ "例如：更新 1 面談對象 約翰".
Definition bad_field : string :=
  "無效的欄位！可用欄位：面談對象、面談者、日期、時間、理由".
Definition bad_date : string := "日期格式錯誤！請使用 YYYY-MM-DD 格式。".
Definition bad_time : string := "時間格式錯誤！請使用 HH:mm 格式。".
Definition updated_ok (id : Z) (field value : string) : string :=
  "✅ 面談已成功更新！" +:+ nl +:+ nl +:+ "ID: " +:+ pretty id +:+ nl +:+ field +:+ ": " +:+ value.
Definition update_failed : string := "更新面談時發生錯誤。請確認 ID 是否正確。".

(** [handleUpdateCommand], from the result of [parseUpdateCommand]: [None]
    when the text does not match, else the id, the field name and the
    value. *)
Definition handleUpdateCommand (parsed : option (Z * string * string)) (userId : string)
  : M unit :=
  match parsed with
  | None => Client.replyMessage bad_update_format
  | Some (id, field, value) =>
      match dbField_of field with
      | None => Client.replyMessage bad_field
      | Some dbField =>
          let valueToStore :=
            if String.eqb dbField "interview_time"
            then
              let v := Js.replace_first fullwidth_colon ":" value in
              if matches_hh_mm v then v +:+ ":00" else v
            else value in
          let updates := [(dbField, VStr valueToStore)] in
          if String.eqb dbField "interview_date" && negb (Moment.validDate value)
          then Client.replyMessage bad_date
          else if String.eqb dbField "interview_time" && negb (Moment.validTime valueToStore)
          then Client.replyMessage bad_time
          else
            do result <- InterviewManager.updateInterview env userId id updates;
            if is_success result
            then Client.replyMessage (updated_ok id field value)
            else Client.replyMessage update_failed
      end
  end.

Definition bad_delete_format : string :=
  "格式錯誤！請使用：刪除 {ID}" +:+ nl +:+ "例如：刪除 1".
Definition deleted_ok (id : Z) : string :=
  "✅ 面談 ID " +:+ pretty id +:+ " 已成功刪除！".
Definition delete_failed : string := "刪除面談時發生錯誤。請確認 ID 是否正確。".

(** [handleDeleteCommand], from the result of [parseDeleteCommand]. *)
Definition handleDeleteCommand (parsed : option Z) (userId : string) : M unit :=
  match parsed with
  | None => Client.replyMessage bad_delete_format
  | Some id =>
      do result <- InterviewManager.deleteInterview env userId id;
      if is_success result
      then Client.replyMessage (deleted_ok id)
      else Client.replyMessage delete_failed
  end.

End Commands.
End Commands.

(* ===================================================================== *)
(** ** The trigger entry point, [app.all('/trigger-reminders')]           *)
(* ===================================================================== *)

Module Trigger.
Section Trigger.
Variable env : Env.

(** A parameter of the query string as the framework hands it over:
    [undefined], a text, or the array or object that a repeated or
    bracketed parameter ([action=a&action=b], [action[x]=1]) is parsed
    into. *)
Inductive QueryValue : Type :=
  | QAbsent
  | QText (s : string)
  | QNested.

#[global] Instance QueryValue_eq_dec : EqDecision QueryValue.
Proof. solve_decision. Defined.

(** What the handler reads of the request; a header is a text or absent. *)
Record HttpRequest : Type := mkHttpRequest {
  header_x_api_key : option string;
  query_apiKey : QueryValue;
  query_action : QueryValue
}.

(** A text or [undefined] among the values; an array or object is
    strictly equal to neither. *)
Definition of_text (o : option string) : QueryValue :=
  match o with
  | Some s => QText s
  | None => QAbsent
  end.

(** Truthiness: an array and an object are truthy, also when empty. *)
Definition truthy_value (v : QueryValue) : bool :=
  match v with
  | QAbsent => false
  | QText s => Js.truthy s
  | QNested => true
  end.

(** [a || b]. *)
Definition or_value (a b : QueryValue) : QueryValue :=
  if truthy_value a then a else b.

(** [req.headers['x-api-key'] || req.query.apiKey]. *)
Definition apiKey (req : HttpRequest) : QueryValue :=
  or_value (of_text (header_x_api_key req)) (query_apiKey req).

(** [(req.query.action || '').toLowerCase()]: [None] when the value is an
    array or object, which has no [toLowerCase], so that the call throws a
    TypeError. *)
Definition action (req : HttpRequest) : option string :=
  match or_value (query_action req) (QText "") with
  | QText s => Some (Js.toLowerCase s)
  | QAbsent | QNested => None
  end.

(** The bodies of the answers, without their time stamps and texts of
    explanation; [FailedToProcessReminders] is the answer of the [catch]. *)
Inductive Body : Type :=
  | ServerConfigError
  | Unauthorized
  | InterviewListSent (sentCount interviewCount : nat) (errors : option (list string))
  | InterviewListFailed (error : string) (sentCount : nat)
  | RemindersProcessed (totalSent : nat) (errors : option (list string))
  | RemindersFailed (error : string)
  | FailedToProcessReminders.

Record Response : Type := mkResponse {
  status : Z;
  body : Body
}.

Definition triggerReminders (now : Z) (req : HttpRequest) : M Response :=
  if negb (Js.truthy_opt (SUPABASE_URL env)) || negb (Js.truthy_opt (SUPABASE_KEY env))
  then ret (mkResponse 500 ServerConfigError)
  else
    let apiKey := apiKey req in
    let expectedApiKey := CRON_API_KEY env in
    if Js.truthy_opt expectedApiKey
       && negb (bool_decide (apiKey = of_text expectedApiKey))
    then ret (mkResponse 401 Unauthorized)
    else
      match action req with
      | None => ret (mkResponse 500 FailedToProcessReminders)
      | Some action =>
          if String.eqb action "interview-list"
          then
            do result <- Broadcast.sendInterviewListToEveryone env now;
            ret (match result with
                 | Broadcast.ListSent sentCount interviewCount errors =>
                     mkResponse 200 (InterviewListSent sentCount interviewCount errors)
                 | Broadcast.ListFailed e sentCount =>
                     mkResponse 500
                       (InterviewListFailed e
                          (if (sentCount =? 0)%nat then 0%nat else sentCount))
                 end)
          else
            do result <- ReminderManager.processReminders env now;
            ret (match result with
                 | Success report =>
                     mkResponse 200
                       (RemindersProcessed (ReminderManager.totalSent report)
                          (ReminderManager.report_errors report))
                 | Failure e => mkResponse 500 (RemindersFailed e)
                 end)
      end.

End Trigger.
End Trigger.

(* ===================================================================== *)
(** ** [class InputValidator]                                             *)
(* ===================================================================== *)

Module InputValidator.

(** [s.replace(/[<>]/g, '')]. *)
Fixpoint remove_angle_brackets (s : string) : string :=
  match s with
  | EmptyString => EmptyString
  | String a s' =>
      if Ascii.eqb a "<"%char || Ascii.eqb a ">"%char
      then remove_angle_brackets s'
      else String a (remove_angle_brackets s')
  end.

Definition sanitizeString (input : string) : string :=
  if negb (Js.truthy input) then ""
  else remove_angle_brackets (Text.trim input).

Definition validateDate (dateString : string) : bool := Moment.validDate dateString.

Definition validateTime (timeString : string) : bool := Moment.validTime timeString.

Definition validateName (name : string) : bool :=
  let sanitized := sanitizeString name in
  (0 <? Js.length sanitized)%nat && (Js.length sanitized <=? 100)%nat.

End InputValidator.

(* ===================================================================== *)
(** ** Regular expressions by backtracking                                *)
(* ===================================================================== *)

(** The three patterns of [MessageParser] are sequences of literals,
    classes repeated a fixed number of times and classes under a greedy
    [+].  A matcher takes the characters its group has taken so far and the
    text that is left, and answers what the first way to match gives, in the
    order of a backtracking search: longest repetition first. *)
Module Regex.
Section Regex.
Context {R : Type}.

Definition Matcher : Type := list string → list string → option R.

(** The characters of [p], one after the other. *)
Fixpoint lit (p : list string) (k : Matcher) : Matcher :=
  λ acc s,
    match p with
    | [] => k acc s
    | c :: p' =>
        match s with
        | x :: s' => if String.eqb c x then lit p' k (acc ++ [x]) s' else None
        | [] => None
        end
    end.

(** [n] characters of a class. *)
Fixpoint times (n : nat) (cls : string → bool) (k : Matcher) : Matcher :=
  λ acc s,
    match n with
    | O => k acc s
    | S n' =>
        match s with
        | x :: s' => if cls x then times n' cls k (acc ++ [x]) s' else None
        | [] => None
        end
    end.

(** One character or more of a class, as many as the rest allows. *)
Fixpoint plus_from (cls : string → bool) (k : Matcher) (acc s : list string) : option R :=
  match s with
  | x :: s' =>
      if cls x
      then match plus_from cls k (acc ++ [x]) s' with
           | Some r => Some r
           | None => k (acc ++ [x]) s'
           end
      else None
  | [] => None
  end.

Definition plus (cls : string → bool) (k : Matcher) : Matcher := plus_from cls k.

(** A group: what it takes is handed to [k]. *)
Definition group (m : Matcher → Matcher) (k : list string → Matcher) : Matcher :=
  λ acc s, m (λ taken rest, k taken acc rest) [] s.

(** [\s+] outside a group. *)
Definition spaces (k : Matcher) : Matcher := plus Text.is_space k.

(** The match that starts leftmost. *)
Fixpoint search (m : Matcher) (s : list string) : option R :=
  match m [] s with
  | Some r => Some r
  | None =>
      match s with
      | [] => None
      | _ :: s' => search m s'
      end
  end.

End Regex.
End Regex.

(* ===================================================================== *)
(** ** [class MessageParser]                                              *)
(* ===================================================================== *)

Module MessageParser.

(** A Number that holds an integer, or [Infinity]. *)
Inductive Number : Type := Finite (n : Z) | Infinity.

(** The Number nearest to a natural number: round to nearest, ties to
    even, 53 bits of precision. *)
Definition to_number (n : Z) : Number :=
  if n <? 2 ^ 53 then Finite n
  else
    let e := Z.log2 n - 52 in
    let q := Z.shiftr n e in
    let r := n - Z.shiftl q e in
    let half := Z.shiftl 1 (e - 1) in
    let q' := if r <? half then q
              else if half <? r then q + 1
              else if Z.even q then q else q + 1 in
    let v := Z.shiftl q' e in
    if v <? 2 ^ 1024 then Finite v else Infinity.

(** [parseInt] of a run of decimal digits (beyond 20 digits the language
    lets an implementation approximate; V8 rounds the exact value). *)
Definition parseInt (digits : string) : Number :=
  to_number (default 0 (Moment.number digits)).

Record AddCommand : Type := mkAddCommand {
  intervieweeName : string;
  interviewerName : string;
  date : string;
  time : string;
  reason : string
}.

Definition colon (c : string) : bool :=
  String.eqb c ":" || String.eqb c Commands.fullwidth_colon.

Definition date_pattern (k : Regex.Matcher) : Regex.Matcher (R := AddCommand) :=
  Regex.times 4 Text.is_digit
    (Regex.lit ["-"] (Regex.times 2 Text.is_digit
       (Regex.lit ["-"] (Regex.times 2 Text.is_digit k)))).

Definition time_pattern (k : Regex.Matcher) : Regex.Matcher (R := AddCommand) :=
  Regex.times 2 Text.is_digit (Regex.times 1 colon (Regex.times 2 Text.is_digit k)).

(** [/新增\s+([^\s]+)\s+([^\s]+)\s+(\d{4}-\d{2}-\d{2})\s+(\d{2}[:：]\d{2})\s+(.+)/]
    and what [parseAddCommand] makes of the groups. *)
Definition add_regex : Regex.Matcher (R := AddCommand) :=
  Regex.lit ["新"; "增"]
    (Regex.spaces
       (Regex.group (Regex.plus Text.non_space) (λ g1,
        Regex.spaces
          (Regex.group (Regex.plus Text.non_space) (λ g2,
           Regex.spaces
             (Regex.group date_pattern (λ g3,
              Regex.spaces
                (Regex.group time_pattern (λ g4,
                 Regex.spaces
                   (Regex.group (Regex.plus Text.dot) (λ g5 _ _,
                      Some (mkAddCommand (Text.join g1) (Text.join g2) (Text.join g3)
                              (Js.replace_first Commands.fullwidth_colon ":" (Text.join g4)
                               +:+ ":00")
                              (Text.join g5))))))))))))).

(** Parse "新增" command - 新增 {面談對象} {面談者} {日期} {時間} {理由}. *)
Definition parseAddCommand (text : string) : option AddCommand :=
  Regex.search add_regex (Text.chars text).

(** [/更新\s+(\d+)\s+([^\s]+)\s+(.+)/]. *)
Definition update_regex : Regex.Matcher (R := Number * string * string) :=
  Regex.lit ["更"; "新"]
    (Regex.spaces
       (Regex.group (Regex.plus Text.is_digit) (λ g1,
        Regex.spaces
          (Regex.group (Regex.plus Text.non_space) (λ g2,
           Regex.spaces
             (Regex.group (Regex.plus Text.dot) (λ g3 _ _,
                Some (parseInt (Text.join g1), Text.join g2, Text.join g3)))))))).

(** Parse update command (format: 更新 {id} {field} {value}). *)
Definition parseUpdateCommand (text : string) : option (Number * string * string) :=
  Regex.search update_regex (Text.chars text).

(** [/刪除\s+(\d+)/]. *)
Definition delete_regex : Regex.Matcher (R := Number) :=
  Regex.lit ["刪"; "除"]
    (Regex.spaces
       (Regex.group (Regex.plus Text.is_digit) (λ g1 _ _, Some (parseInt (Text.join g1))))).

(** Parse delete command (format: 刪除 {id}). *)
Definition parseDeleteCommand (text : string) : option Number :=
  Regex.search delete_regex (Text.chars text).

End MessageParser.

(* ===================================================================== *)
(** ** The command layer: list and add, and the dispatch                  *)
(* ===================================================================== *)

Module Handlers.
Section Handlers.
Variable env : Env.

Definition list_failed : string := "獲取清單時發生錯誤。".
Definition list_empty : string := "目前沒有安排的面談。".

(** [result.data.forEach((interview, index) => ...)]: the blocks are those
    of the list broadcast. *)
Fixpoint listBlocks (i : nat) (interviews : list Row) (message : string) : string :=
  match interviews with
  | [] => message
  | interview :: rest => listBlocks (S i) rest (message +:+ Broadcast.block i interview)
  end.

Definition handleListCommand (userId : string) : M unit :=
  do result <- InterviewManager.getInterviews env userId;
  match result with
  | Failure _ => Client.replyMessage list_failed
  | Success data =>
      if (length data =? 0)%nat
      then Client.replyMessage list_empty
      else Client.replyMessage (listBlocks 0 data ("📋 全部面談：" +:+ nl +:+ nl))
  end.

Definition bad_add_format : string :=
  "格式錯誤！請使用：新增 {面談對象} {面談者} {日期} {時間} {理由}" +:+ nl
  +:+ "例如：新增 約翰 陳佑庭 2024-01-15 14:30 聖殿推薦書面談".
Definition bad_interviewee : string := "面談對象姓名無效！請輸入有效的姓名。".
Definition bad_interviewer : string := "面談者姓名無效！請輸入有效的姓名。".
Definition add_failed : string := "新增面談時發生錯誤。".
Definition added_ok (intervieweeName interviewerName date displayTime reason : string)
    (id : Z) : string :=
  "✅ 面談已成功新增！" +:+ nl +:+ nl
  +:+ "面談對象: " +:+ intervieweeName +:+ nl
  +:+ "面談者: " +:+ interviewerName +:+ nl
  +:+ "日期: " +:+ date +:+ nl
  +:+ "時間: " +:+ displayTime +:+ nl
  +:+ "理由: " +:+ reason +:+ nl +:+ nl
  +:+ "ID: " +:+ pretty id.

(** [handleAddCommand]; [now] is the clock [addInterview] reads. *)
Definition handleAddCommand (now : Z) (text userId : string) : M unit :=
  match MessageParser.parseAddCommand text with
  | None => Client.replyMessage bad_add_format
  | Some parsed =>
      if negb (InputValidator.validateName (MessageParser.intervieweeName parsed))
      then Client.replyMessage bad_interviewee
      else if negb (InputValidator.validateName (MessageParser.interviewerName parsed))
      then Client.replyMessage bad_interviewer
      else if negb (InputValidator.validateDate (MessageParser.date parsed))
      then Client.replyMessage Commands.bad_date
      else if negb (InputValidator.validateTime (MessageParser.time parsed))
      then Client.replyMessage Commands.bad_time
      else
        let intervieweeName :=
          InputValidator.sanitizeString (MessageParser.intervieweeName parsed) in
        let interviewerName :=
          InputValidator.sanitizeString (MessageParser.interviewerName parsed) in
        let reason := InputValidator.sanitizeString (MessageParser.reason parsed) in
        do result <- InterviewManager.addInterview env now userId intervieweeName
                       interviewerName (MessageParser.date parsed)
                       (MessageParser.time parsed) reason;
        match result with
        | Success data =>
            let displayTime := Js.substring0 5 (MessageParser.time parsed) in
            Client.replyMessage
              (added_ok intervieweeName interviewerName (MessageParser.date parsed)
                 displayTime reason data.1)
        | Failure _ => Client.replyMessage add_failed
        end
  end.

(** The handler [handleMessage] picks for a text, if any. *)
Inductive Handler : Type := ListAll | Add | Update | Delete | ReminderStatus.

Definition handlerOf (text : string) : option Handler :=
  if String.eqb text "查看 全部" || String.eqb text "查看全部" then Some ListAll
  else if Js.startsWith text "新增" then Some Add
  else if Js.startsWith text "更新" then Some Update
  else if Js.startsWith text "刪除" then Some Delete
  else if String.eqb text "提醒狀態" then Some ReminderStatus
  else None.

(** The test of the webhook before it calls [handleMessage]. *)
Definition isCommand (userMessage : string) : bool :=
  String.eqb userMessage "查看 全部" || String.eqb userMessage "查看全部"
  || Js.startsWith userMessage "新增"
  || Js.startsWith userMessage "更新"
  || Js.startsWith userMessage "刪除"
  || String.eqb userMessage "提醒狀態".

(** [isHelp] of the webhook. *)
Definition isHelp (msg : string) : bool :=
  Js.truthy msg
  && (String.eqb (Js.toLowerCase (Text.trim msg)) "help" || String.eqb (Text.trim msg) "幫助").

End Handlers.
End Handlers.

(* ===================================================================== *)
(** ** Moments written out, and the test endpoint                         *)
(* ===================================================================== *)

Module MomentFormat.

(** The civil date of a day number (proleptic Gregorian calendar): year,
    month, day. *)
Definition civil_from_days (z : Z) : Z * Z * Z :=
  let z := z + 719468 in
  let era := z / 146097 in
  let doe := z - era * 146097 in
  let yoe := (doe - doe / 1460 + doe / 36524 - doe / 146096) / 365 in
  let doy := doe - (365 * yoe + yoe / 4 - yoe / 100) in
  let mp := (5 * doy + 2) / 153 in
  let d := doy - (153 * mp + 2) / 5 + 1 in
  let m := if mp <? 10 then mp + 3 else mp - 9 in
  (yoe + era * 400 + (if m <=? 2 then 1 else 0), m, d).

Definition digit_char (k : Z) : Ascii.ascii := Ascii.ascii_of_nat (48 + Z.to_nat k).

(** Two and four digits, zero padded: [DD], [MM], [HH], [mm], [ss] and
    [YYYY] for the years 0 to 9999. *)
Definition pad2 (n : Z) : string :=
  String (digit_char (n / 10)) (String (digit_char (n mod 10)) EmptyString).

Definition pad4 (n : Z) : string :=
  String (digit_char (n / 1000))
    (String (digit_char (n / 100 mod 10))
       (String (digit_char (n / 10 mod 10)) (String (digit_char (n mod 10)) EmptyString))).

(** [m.format('YYYY-MM-DD')] for a moment of the zone. *)
Definition format_date (t : Z) : string :=
  let '(y, m, d) := civil_from_days (Moment.local_day t) in
  pad4 y +:+ "-" +:+ pad2 m +:+ "-" +:+ pad2 d.

(** [m.format('HH:mm:ss')]. *)
Definition format_time (t : Z) : string :=
  let s := (t + Moment.utc_offset_ms) mod Moment.ms_per_day / 1000 in
  pad2 (s / 3600) +:+ ":" +:+ pad2 (s / 60 mod 60) +:+ ":" +:+ pad2 (s mod 60).

End MomentFormat.

Module TestEndpoint.
Section TestEndpoint.
Variable env : Env.

(** [app.post('/create-test-interview')]: an interview exactly 3 hours
    from [now]; [clock] is what [addInterview] reads after the insert.  The
    answer is the row, with status 200, or the error, with status 500. *)
Definition createTestInterview (now clock : Z) : M (Result Row) :=
  let testTime := now + 3 * Moment.ms_per_hour in
  InterviewManager.addInterview env clock "test-user-123" "Test Person" "Test Interviewer"
    (MomentFormat.format_date testTime) (MomentFormat.format_time testTime)
    "Testing reminder system".

End TestEndpoint.
End TestEndpoint.

(* ===================================================================== *)
(** * The vocabulary of the specification                                *)
(* ===================================================================== *)

(** ** Decidable equality *)

#[global] Instance ReminderType_eq_dec : EqDecision ReminderType.
Proof. solve_decision. Defined.
#[global] Instance Interview_eq_dec : EqDecision Interview.
Proof. solve_decision. Defined.
#[global] Instance Value_eq_dec : EqDecision Value.
Proof. solve_decision. Defined.
#[global] Instance Request_eq_dec : EqDecision Request.
Proof. solve_decision. Defined.
#[global] Instance Event_eq_dec : EqDecision Event.
Proof. solve_decision. Defined.

(** ** Windows, tables and histories *)

(** The difference in hours between the interview and [now] is a number
    of the closed interval from [lo] to [hi]. *)
Definition in_window (now : Z) (lo hi : Q) (interview : Interview) : Prop :=
  ∃ d : Q, InterviewManager.diffHours now interview = Some d ∧ (lo <= d)%Q ∧ (d <= hi)%Q.

(** Two rows that differ at most in their flags, the flags only rising. *)
Definition row_le (r r' : Interview) : Prop :=
  set_24h false (set_3h false r) = set_24h false (set_3h false r')
  ∧ (reminder_24h_sent r = true → reminder_24h_sent r' = true)
  ∧ (reminder_3h_sent r = true → reminder_3h_sent r' = true).

(** The same rows under the same keys, flags only rising. *)
Definition table_le (t t' : gmap Z Interview) : Prop :=
  ∀ id, match t !! id, t' !! id with
        | Some r, Some r' => row_le r r'
        | None, None => True
        | _, _ => False
        end.

(** The row with the flag of one kind set. *)
Definition set_flag (k : ReminderType) (r : Interview) : Interview :=
  match k with R24h => set_24h true r | R3h => set_3h true r end.

(** [raised k ids t t']: from [t] to [t'] nothing changed but the flag of
    kind [k], set on some rows whose keys are among [ids]. *)
Definition raised (k : ReminderType) (ids : list Z) (t t' : gmap Z Interview) : Prop :=
  ∀ j, match t !! j, t' !! j with
       | Some r, Some r' => r' = r ∨ (j ∈ ids ∧ r' = set_flag k r)
       | None, None => True
       | _, _ => False
       end.

(** The list of a classification for one kind. *)
Definition list_of (k : ReminderType) (lists : list Row * list Row) : list Row :=
  match k with R24h => lists.1 | R3h => lists.2 end.

(** [evolves P w w']: from [w] to [w'] the table kept its rows, flags only
    rose, the sequence and the contact tables are the same, and every event
    added satisfies [P]. *)
Definition evolves (P : Event → Prop) (w w' : World) : Prop :=
  table_le (interviews w) (interviews w')
  ∧ next_id w' = next_id w
  ∧ line_users w' = line_users w
  ∧ line_groups w' = line_groups w
  ∧ ∃ new, events w' = new ++ events w ∧ Forall P new.

(** [keeps P m]: whatever the world, running [m] makes it evolve. *)
Definition keeps {A} (P : Event → Prop) (m : M A) : Prop :=
  ∀ w, evolves P w (m w).2.

(** The requests that only read. *)
Definition is_read (q : Request) : bool :=
  match q with
  | SelectByUser _ | SelectUpcoming _ | SelectCandidates _
  | SelectLineUsers | SelectInterviewOwners | SelectLineGroups => true
  | Insert _ | Update _ _ _ | Delete _ _ => false
  end.

(** Code that leaves the interview table as it is. *)
Definition reads_only {A} (m : M A) : Prop :=
  ∀ w, interviews (m w).2 = interviews w.

(** The pushes of a loop that were delivered. *)
Definition delivered (e : Event) : bool :=
  match e with Push _ _ None => true | _ => false end.

(** A request to the store that only reads. *)
Definition read_event (e : Event) : Prop :=
  ∃ q err, e = Store q err ∧ is_read q = true.

(** The reminder text and where a push went. *)
Definition pushed_to (message : string) (userIds groupIds : list string) (e : Event) : Prop :=
  ∃ id err, e = Push id message err
            ∧ ((id ∈ userIds ∧ ReminderManager.isValidLineUserId id = true)
               ∨ (id ∈ groupIds ∧ ReminderManager.isValidLineGroupId id = true)).


(** What happened to one interview of a cycle: what the send returned and,
    when the flag write was attempted, what the write returned. *)
Definition step_outcome env k (x : Row) (w : World)
  : ReminderManager.SendResult * option (Result unit) :=
  let sent := ReminderManager.sendReminderMessage env x k w in
  (sent.1,
   if ReminderManager.success sent.1
   then Some (InterviewManager.markReminderSent env x.1 k sent.2).1
   else None).

Fixpoint outcomes env k (l : list Row) (w : World)
  : list (ReminderManager.SendResult * option (Result unit)) :=
  match l with
  | [] => []
  | x :: rest =>
      step_outcome env k x w
      :: outcomes env k rest (ReminderManager.processOne env k x (0%nat, []) w).2
  end.

(** The outcomes of a whole cycle, the 24h list first. *)
Definition cycle_outcomes env now (w : World)
  : list (ReminderManager.SendResult * option (Result unit)) :=
  let fetch := InterviewManager.getInterviewsNeedingReminders env now w in
  match fetch.1 with
  | Success (l24, l3) =>
      outcomes env R24h l24 fetch.2
      ++ outcomes env R3h l3
           (ReminderManager.processAll env R24h l24 (0%nat, []) fetch.2).2
  | Failure _ => []
  end.

(** At least one delivery succeeded and the flag write succeeded. *)
Definition delivered_and_persisted
    (o : ReminderManager.SendResult * option (Result unit)) : Prop :=
  (0 < ReminderManager.sentCount o.1)%nat ∧ o.2 = Some (Success tt).

(** The test of the classification loop for one kind. *)
Definition needs (k : ReminderType) (now : Z) (r : Interview) : bool :=
  match k with
  | R24h => InterviewManager.needs24h now r
  | R3h => InterviewManager.needs3h now r
  end.

(** The invariant that asks nothing of the events. *)
Definition any_event (e : Event) : Prop := True.

(** The operations that reach the interview table: creation, the update
    and delete commands, the reminder cycle, the flag write, the list
    broadcast and the trigger request.  The list and status commands and the
    debug page only read it, and the contact tracker writes other tables. *)
Inductive Op : Type :=
  | Create (userId intervieweeName interviewerName date time reason : string)
  | UpdateCommand (parsed : option (Z * string * string)) (userId : string)
  | DeleteCommand (parsed : option Z) (userId : string)
  | ReminderCycle
  | MarkReminderSent (interviewId : Z) (reminderType : ReminderType)
  | ListBroadcast
  | TriggerRequest (req : Trigger.HttpRequest).

(** The world after an operation started at [now]. *)
Definition run (env : Env) (now : Z) (op : Op) (w : World) : World :=
  match op with
  | Create userId intervieweeName interviewerName date time reason =>
      (InterviewManager.addInterview env now userId intervieweeName interviewerName
         date time reason w).2
  | UpdateCommand parsed userId => (Commands.handleUpdateCommand env parsed userId w).2
  | DeleteCommand parsed userId => (Commands.handleDeleteCommand env parsed userId w).2
  | ReminderCycle => (ReminderManager.processReminders env now w).2
  | MarkReminderSent interviewId reminderType =>
      (InterviewManager.markReminderSent env interviewId reminderType w).2
  | ListBroadcast => (Broadcast.sendInterviewListToEveryone env now w).2
  | TriggerRequest req => (Trigger.triggerReminders env now req w).2
  end.

(** The two flag columns. *)
Definition flag_column (c : string) : Prop :=
  c = "reminder_24h_sent" ∨ c = "reminder_3h_sent".

(** An update request that, where it writes a flag column, writes [true]. *)
Definition flag_safe (e : Event) : Prop :=
  match e with
  | Store (Update _ _ p) _ => ∀ c v, (c, v) ∈ p → flag_column c → v = VBool true
  | _ => True
  end.

(** An update request that writes no flag column. *)
Definition no_flag_column (e : Event) : Prop :=
  match e with
  | Store (Update _ _ p) _ => ∀ c v, (c, v) ∈ p → ¬ flag_column c
  | _ => True
  end.

(** Flags never fall, on the rows present before and after. *)
Definition flags_monotone (t t' : gmap Z Interview) : Prop :=
  ∀ id r r', t !! id = Some r → t' !! id = Some r' →
    (reminder_24h_sent r = true → reminder_24h_sent r' = true)
    ∧ (reminder_3h_sent r = true → reminder_3h_sent r' = true).

(** Flags are the same, on the rows present before and after. *)
Definition flags_unchanged (t t' : gmap Z Interview) : Prop :=
  ∀ id r r', t !! id = Some r → t' !! id = Some r' →
    reminder_24h_sent r' = reminder_24h_sent r
    ∧ reminder_3h_sent r' = reminder_3h_sent r.

(** The part of [addInterview] that follows a successful insert. *)
Definition creation_guard env (now : Z) (interview : Row) : M (Result Row) :=
  let d := InterviewManager.diffHours now interview.2 in
  do _ <- when_ (Moment.lt d 3)
            (ignore (InterviewManager.markReminderSent env interview.1 R24h));
  do _ <- when_ (Moment.lt d 1)
            (ignore (InterviewManager.markReminderSent env interview.1 R3h));
  ret (Success interview).

(** A resolution of the recipient set starts with the read of the tracked
    users. *)
Definition is_resolution (e : Event) : bool :=
  match e with Store SelectLineUsers _ => true | _ => false end.

(** How many times a history resolved the recipient set. *)
Definition resolutions (h : list Event) : nat := length (List.filter is_resolution h).

(** [resolves n m]: running [m] resolves the recipient set [n] times. *)
Definition resolves {A} (n : nat) (m : M A) : Prop :=
  ∀ w, resolutions (events (m w).2) = (resolutions (events w) + n)%nat.

(** The claim C2 as the specification states it: once an interview whose
    flag is not yet set has been processed, the flag is set iff at least one
    delivery succeeded. *)
Definition flag_set_iff_delivered : Prop :=
  ∀ env k (x : Row) w r0,
    interviews w !! x.1 = Some r0 →
    flag k r0 = false →
    ∃ r',
      interviews (ReminderManager.processOne env k x (0%nat, []) w).2 !! x.1 = Some r'
      ∧ (flag k r' = true
         ↔ (0 < ReminderManager.sentCount
                  (ReminderManager.sendReminderMessage env x k w).1)%nat).

(** The claim C3 as the specification states it: the creation of an
    interview that starts in less than 3 hours sets its 24h flag. *)
Definition late_creation_marks_24h : Prop :=
  ∀ env now userId intervieweeName interviewerName date time reason w
    (interview : Row) w' t,
    InterviewManager.addInterview env now userId intervieweeName interviewerName
      date time reason w = (Success interview, w') →
    Moment.tz date time = Some t →
    t - now < 3 * Moment.ms_per_hour →
    ∃ r', interviews w' !! interview.1 = Some r' ∧ reminder_24h_sent r' = true.

(** The claim C8 as the specification states it: one resolution per cycle. *)
Definition resolved_once_per_cycle : Prop :=
  ∀ env now w,
    resolutions (events (ReminderManager.processReminders env now w).2)
    = (resolutions (events w) + 1)%nat.

(** The required store settings are set. *)
Definition config_present (env : Env) : Prop :=
  Js.truthy_opt (SUPABASE_URL env) = true ∧ Js.truthy_opt (SUPABASE_KEY env) = true.

(** A pre-shared key is configured and the supplied one is another. *)
Definition key_mismatch (env : Env) (req : Trigger.HttpRequest) : Prop :=
  Js.truthy_opt (CRON_API_KEY env) = true
  ∧ Trigger.apiKey req ≠ Trigger.of_text (CRON_API_KEY env).

(** The claim C9 as the specification states it: a mismatch is always
    answered with the authorization failure. *)
Definition mismatch_always_unauthorized : Prop :=
  ∀ env now req w,
    key_mismatch env req →
    (Trigger.triggerReminders env now req w).1 = Trigger.mkResponse 401 Trigger.Unauthorized.

(** ** Scenarios *)

(** Two users and a group with well-formed identifiers. *)
Definition user_a : string := "Uaaaaaaaaaaaaaaaaaaaaaaaaaaaaaaaa".
Definition user_b : string := "Ubbbbbbbbbbbbbbbbbbbbbbbbbbbbbbbb".
Definition group_c : string := "Ccccccccccccccccccccccccccccccccc".

(** A store and a channel that refuse nothing. *)
Definition no_store_fault : list Event → Request → option string := λ _ _, None.
Definition no_push_fault : list Event → string → string → option string := λ _ _ _, None.

(** Every push but the one to [user_a] is refused. *)
Definition only_user_a : list Event → string → string → option string :=
  λ _ to _, if String.eqb to user_a then None else Some "Failed to send messages".

(** The store refuses every update and nothing else. *)
Definition writes_fail : list Event → Request → option string :=
  λ _ q, match q with Update _ _ _ => Some "write failed" | _ => None end.

(** An environment with a pre-shared key, no president and no configured
    group. *)
Definition env_with (store : list Event → Request → option string)
    (push : list Event → string → string → option string)
    (url : option string) : Env :=
  mkEnv store push None None None (Some "secret") url (Some "service-key").

Definition env_ok : Env := env_with no_store_fault no_push_fault (Some "https://db.example").
Definition env_partial : Env := env_with no_store_fault only_user_a (Some "https://db.example").
Definition env_writes_fail : Env := env_with writes_fail no_push_fault (Some "https://db.example").
Definition env_unconfigured : Env := env_with no_store_fault no_push_fault None.

(** 2026-03-01 10:00:00 in Taipei. *)
Definition now0 : Z := 1772330400000.

(** Interviews 24 h, 24 h 15 min and 3 h after [now0]. *)
Definition at_24h : Interview :=
  mkInterview user_a "John" (Some "Chen") "2026-03-02" "10:00:00" (Some "recommend")
    false false.
Definition at_24h15 : Interview :=
  mkInterview user_b "Mary" (Some "Chen") "2026-03-02" "10:15:00" None false false.
Definition at_3h : Interview :=
  mkInterview user_a "Peter" None "2026-03-01" "13:00:00" (Some "visit") true false.

(** Three interviews, two tracked users and one tracked group. *)
Definition world0 : World :=
  mkWorld (<[1 := at_24h]> (<[2 := at_24h15]> (<[3 := at_3h]> ∅))) 4
    [(user_a, true); (user_b, true)] [(group_c, true)] [].

(** A request whose key is not the configured one. *)
Definition wrong_key : Trigger.HttpRequest :=
  Trigger.mkHttpRequest (Some "guess") Trigger.QAbsent Trigger.QAbsent.

(** The update requests of a history. *)
Definition is_update (e : Event) : bool :=
  match e with Store (Update _ _ _) _ => true | _ => false end.

(** ** Vocabulary of the further properties *)

(** What code that only reads the store and pushes to well-formed
    identifiers adds to the history. *)
Definition read_or_push (e : Event) : Prop :=
  match e with
  | Store q _ => is_read q = true
  | Push to _ _ =>
      ReminderManager.isValidLineUserId to = true
      ∨ ReminderManager.isValidLineGroupId to = true
  | Reply _ => False
  end.

(** A store that refuses the fetch of the reminder cycle, and a channel
    that refuses every push. *)
Definition fetch_fails : list Event → Request → option string :=
  λ _ q, match q with SelectCandidates _ => Some "connection refused" | _ => None end.
Definition all_pushes_fail : list Event → string → string → option string :=
  λ _ _ _, Some "Failed to send messages".

Definition env_fetch_fails : Env :=
  env_with fetch_fails no_push_fault (Some "https://db.example").
Definition env_blocked : Env :=
  env_with no_store_fault all_pushes_fail (Some "https://db.example").

(** A second and a third group, and an environment whose group settings
    carry white space around the identifiers: an ideographic space (U+3000)
    after the single group, a space before and a no-break space (U+00A0)
    after the first piece of the list, and a piece that is white space
    only. *)
Definition group_d : string := "Cddddddddddddddddddddddddddddddddd".
Definition group_e : string := "Ceeeeeeeeeeeeeeeeeeeeeeeeeeeeeeee".

Definition env_padded : Env :=
  mkEnv no_store_fault no_push_fault None
    (Some (group_d +:+ "　"))
    (Some (" " +:+ group_e +:+ " " +:+ ", ," +:+ group_c))
    None (Some "https://db.example") (Some "service-key").

(** A trigger request with the configured key and no action. *)
Definition right_key : Trigger.HttpRequest :=
  Trigger.mkHttpRequest (Some "secret") Trigger.QAbsent Trigger.QAbsent.

(** Where the pushes of a history went, newest first. *)
Definition push_target (e : Event) : option string :=
  match e with Push to _ _ => Some to | _ => None end.

Definition push_targets (h : list Event) : list string := omap push_target h.

(** The identifiers of a list that are not the empty text. *)
Definition nonempty_ids (l : list string) : list string := List.filter Js.truthy l.

(** The president of the environment, when one is configured. *)
Definition is_president (env : Env) (id : string) : Prop :=
  PRESIDENT_LINE_USER_ID env = Some id ∧ id ≠ "".

(** The groups of the environment: [GROUP_ID] and the pieces of
    [GROUP_IDS], trimmed, the empty ones left out. *)
Definition is_env_group (env : Env) (id : string) : Prop :=
  id ≠ ""
  ∧ (id = Text.trim (Js.or_else (GROUP_ID env) "")
     ∨ id ∈ map Text.trim (Js.split_comma (Text.trim (Js.or_else (GROUP_IDS env) "")))).

(** A row whose date and time make a valid moment. *)
Definition well_timed (r : Interview) : Prop :=
  is_Some (Moment.tz (interview_date r) (interview_time r)).

(** Every row of the table is well timed. *)
Definition all_well_timed (t : gmap Z Interview) : Prop :=
  ∀ id r, t !! id = Some r → well_timed r.

(** The text the update command stores for a value of the time field. *)
Definition stored_time (value : string) : string :=
  let v := Js.replace_first Commands.fullwidth_colon ":" value in
  if Commands.matches_hh_mm v then v +:+ ":00" else v.

(** The instant of a row; 0 when its date and time make no valid moment. *)
Definition instant (x : Row) : Z :=
  default 0 (Moment.tz (interview_date x.2) (interview_time x.2)).

(** A list of rows in which no row starts before an earlier one. *)
Definition chronological (l : list Row) : Prop :=
  StronglySorted (λ x y, instant x ≤ instant y) l.

(** The line that ends a list cut short. *)
Definition cut_short (count : nat) : string :=
  "…共 " +:+ pretty count +:+ " 筆面談，僅顯示部分。" +:+ nl.

(** A text without the characters [<] and [>]. *)
Fixpoint no_angle_bracket (s : string) : Prop :=
  match s with
  | EmptyString => True
  | String a s' => a ≠ "<"%char ∧ a ≠ ">"%char ∧ no_angle_bracket s'
  end.

(** A name the add command accepts: 1 to 100 UTF-16 units, no angle
    bracket. *)
Definition clean_name (s : string) : Prop :=
  (1 ≤ Js.length s ≤ 100)%nat ∧ no_angle_bracket s.

(** What the chat and the reminder machinery do to the world. *)
Inductive Action : Type :=
  | AddText (now : Z) (text userId : string)
  | ListText (userId : string)
  | UpdateParsed (parsed : option (Z * string * string)) (userId : string)
  | DeleteParsed (parsed : option Z) (userId : string)
  | Cycle (now : Z)
  | Broadcast (now : Z)
  | Trigger (now : Z) (req : Trigger.HttpRequest).

Definition perform (env : Env) (a : Action) (w : World) : World :=
  match a with
  | AddText now text userId => (Handlers.handleAddCommand env now text userId w).2
  | ListText userId => (Handlers.handleListCommand env userId w).2
  | UpdateParsed parsed userId => (Commands.handleUpdateCommand env parsed userId w).2
  | DeleteParsed parsed userId => (Commands.handleDeleteCommand env parsed userId w).2
  | Cycle now => (ReminderManager.processReminders env now w).2
  | Broadcast now => (Broadcast.sendInterviewListToEveryone env now w).2
  | Trigger now req => (Trigger.triggerReminders env now req w).2
  end.

Definition perform_all (env : Env) (actions : list Action) (w : World) : World :=
  foldl (λ w a, perform env a w) w actions.

(** The empty table, before the first command. *)
Definition empty_world : World := mkWorld ∅ 1 [] [] [].

(** [/^\d{4}-\d{2}-\d{2}$/]. *)
Definition matches_date (s : string) : bool :=
  match s with
  | String a (String b (String c (String d (String e (String f (String g
      (String h (String i (String j EmptyString))))))))) =>
      Commands.is_digit a && Commands.is_digit b && Commands.is_digit c
      && Commands.is_digit d && Ascii.eqb e "-"%char
      && Commands.is_digit f && Commands.is_digit g && Ascii.eqb h "-"%char
      && Commands.is_digit i && Commands.is_digit j
  | _ => false
  end.

(** A text made of characters that are no white space, at least one. *)
Definition is_token (s : string) : Prop :=
  ∃ g, s = Text.join g ∧ g ≠ [] ∧ Forall (λ c, Text.is_space c = false) g.

(** A text made of characters that end no line, at least one. *)
Definition is_line (s : string) : Prop :=
  ∃ g, s = Text.join g ∧ g ≠ [] ∧ Forall (λ c, Text.is_line_terminator c = false) g.

(** The characters of an add command: the keyword, two names, a date, a
    time with the colon [c] and a reason, one space between them. *)
Definition add_text (n1 n2 y m d hh : list string) (c : string) (mm r : list string)
  : list string :=
  ["新"; "增"] ++ [" "] ++ n1 ++ [" "] ++ n2 ++ [" "]
  ++ y ++ ["-"] ++ m ++ ["-"] ++ d ++ [" "] ++ hh ++ [c] ++ mm ++ [" "] ++ r.

(** A text of decimal digits. *)
Fixpoint all_digits (s : string) : bool :=
  match s with
  | EmptyString => true
  | String a s' => Commands.is_digit a && all_digits s'
  end.

(* ===================================================================== *)
(** * Verification                                                        *)
(* ===================================================================== *)

(** ** The parsers on examples *)

Example parse_date_epoch : Moment.parse_date "1970-01-01" = Some 0.
Proof. reflexivity. Qed.

Example parse_date_2026 : Moment.parse_date "2026-03-01" = Some 20513.
Proof. reflexivity. Qed.

Example parse_date_not_leap : Moment.parse_date "2025-02-29" = None.
Proof. reflexivity. Qed.

Example tz_taipei_midnight : Moment.tz "1970-01-01" "08:00:00" = Some 0.
Proof. reflexivity. Qed.

Example js_length_text : Js.length "面談A" = 3%nat.
Proof. reflexivity. Qed.

Example split_trim :
  map Text.trim (Js.split_comma " a, b ,,c") = ["a"; "b"; ""; "c"].
Proof. reflexivity. Qed.

Example trim_wide_space : Text.trim ("　 a b  ") = "a b".
Proof. reflexivity. Qed.

Example padded_groups_resolved :
  (ReminderManager.getReminderRecipientIds env_padded world0).1.2
  = [group_c; group_d; group_e].
Proof. vm_compute. reflexivity. Qed.

(** ** Hours and thresholds *)

Lemma Qlt_bool_iff (a b : Q) : Moment.Qlt_bool a b = true ↔ (a < b)%Q.
Proof. unfold Moment.Qlt_bool, Qlt. apply Z.ltb_lt. Qed.

(** The windows in milliseconds: 23.5 h, 24.5 h, 2.5 h and 3.5 h. *)
Lemma window_24h_ms (t now : Z) :
  (47 # 2 <= Moment.diff_hours t now)%Q ∧ (Moment.diff_hours t now <= 49 # 2)%Q
  ↔ 84600000 ≤ t - now ≤ 88200000.
Proof. unfold Moment.diff_hours, Qle. simpl. lia. Qed.

Lemma window_3h_ms (t now : Z) :
  (5 # 2 <= Moment.diff_hours t now)%Q ∧ (Moment.diff_hours t now <= 7 # 2)%Q
  ↔ 9000000 ≤ t - now ≤ 12600000.
Proof. unfold Moment.diff_hours, Qle. simpl. lia. Qed.

(** ** The classification loop *)

Section Classification.
Variable now : Z.

Lemma needs24h_iff (interview : Interview) :
  InterviewManager.needs24h now interview = true
  ↔ reminder_24h_sent interview = false ∧ in_window now (47 # 2) (49 # 2) interview.
Proof.
  unfold InterviewManager.needs24h, in_window.
  rewrite !andb_true_iff, negb_true_iff.
  destruct (InterviewManager.diffHours now interview) as [d|]; simpl.
  - rewrite !Qle_bool_iff. split.
    + intros [[? ?] ?]. eauto.
    + intros [? (d' & [= <-] & ? & ?)]. auto.
  - split; [intros [[_ ?] _]; discriminate | intros [_ (d & ? & _)]; discriminate].
Qed.

Lemma needs3h_iff (interview : Interview) :
  InterviewManager.needs3h now interview = true
  ↔ reminder_3h_sent interview = false ∧ in_window now (5 # 2) (7 # 2) interview.
Proof.
  unfold InterviewManager.needs3h, in_window.
  rewrite !andb_true_iff, negb_true_iff.
  destruct (InterviewManager.diffHours now interview) as [d|]; simpl.
  - rewrite !Qle_bool_iff. split.
    + intros [[? ?] ?]. eauto.
    + intros [? (d' & [= <-] & ? & ?)]. auto.
  - split; [intros [[_ ?] _]; discriminate | intros [_ (d & ? & _)]; discriminate].
Qed.

(** The loop pushes, in order, the rows that pass each test. *)
Lemma classify_filter (l a b : list Row) :
  InterviewManager.classify now l a b
  = (a ++ filter (λ x : Row, InterviewManager.needs24h now x.2) l,
     b ++ filter (λ x : Row, InterviewManager.needs3h now x.2) l).
Proof.
  revert a b. induction l as [|x l IH]; intros a b; simpl.
  - by rewrite !app_nil_r.
  - rewrite IH, !filter_cons.
    destruct (InterviewManager.needs24h now x.2), (InterviewManager.needs3h now x.2);
      simpl; by rewrite <- ?app_assoc.
Qed.

End Classification.

(** What a successful fetch returns. *)
Lemma getInterviewsNeedingReminders_success env now w l24 l3 :
  (InterviewManager.getInterviewsNeedingReminders env now w).1 = Success (l24, l3) →
  l24 = filter (λ x : Row, InterviewManager.needs24h now x.2)
          (Db.candidates (Moment.local_day now) w)
  ∧ l3 = filter (λ x : Row, InterviewManager.needs3h now x.2)
           (Db.candidates (Moment.local_day now) w).
Proof.
  unfold InterviewManager.getInterviewsNeedingReminders, bind, ret, Db.select.
  destruct (store_fault env (events w) _); simpl; [discriminate|].
  rewrite classify_filter. simpl. by intros [= <- <-].
Qed.

(** C1.  For every interview of the fetched candidate set, the evaluator
    puts it on the 24h list iff [reminder_24h_sent] is false and the
    difference in fractional hours between its date-time and now lies in
    [23.5, 24.5], and on the 3h list iff [reminder_3h_sent] is false and the
    difference lies in [2.5, 3.5].  The end points are inclusive: with the
    24h flag false, an interview exactly 23.5 h, 24 h or 24.5 h away
    (84600000, 86400000, 88200000 ms) is on the 24h list, and one 23.49 h or
    24.51 h away (84564000, 88236000 ms) is not. *)
Theorem evaluator_windows env now w interviews24h interviews3h (x : Row) :
  (InterviewManager.getInterviewsNeedingReminders env now w).1
    = Success (interviews24h, interviews3h) →
  x ∈ Db.candidates (Moment.local_day now) w →
  (x ∈ interviews24h
     ↔ reminder_24h_sent x.2 = false ∧ in_window now (47 # 2) (49 # 2) x.2)
  ∧ (x ∈ interviews3h
       ↔ reminder_3h_sent x.2 = false ∧ in_window now (5 # 2) (7 # 2) x.2)
  ∧ (∀ t, reminder_24h_sent x.2 = false →
          Moment.tz (interview_date x.2) (interview_time x.2) = Some t →
          (t = now + 84600000 → x ∈ interviews24h)
          ∧ (t = now + 86400000 → x ∈ interviews24h)
          ∧ (t = now + 88200000 → x ∈ interviews24h)
          ∧ (t = now + 84564000 → x ∉ interviews24h)
          ∧ (t = now + 88236000 → x ∉ interviews24h)).
Proof.
  intros Hfetch Hx.
  destruct (getInterviewsNeedingReminders_success _ _ _ _ _ Hfetch) as [-> ->].
  assert (H24 : x ∈ filter (λ x : Row, InterviewManager.needs24h now x.2)
                     (Db.candidates (Moment.local_day now) w)
                ↔ reminder_24h_sent x.2 = false ∧ in_window now (47 # 2) (49 # 2) x.2).
  { rewrite list_elem_of_filter, Is_true_true, needs24h_iff. tauto. }
  split; [exact H24|]. split.
  { rewrite list_elem_of_filter, Is_true_true, needs3h_iff. tauto. }
  intros t Hflag Ht. rewrite H24. unfold in_window, InterviewManager.diffHours.
  rewrite Ht.
  split; [|split; [|split; [|split]]]; intros ->.
  - split; [done|]. eexists; split; [done|]. apply window_24h_ms. lia.
  - split; [done|]. eexists; split; [done|]. apply window_24h_ms. lia.
  - split; [done|]. eexists; split; [done|]. apply window_24h_ms. lia.
  - intros [_ (d & [= <-] & Hd)]. apply window_24h_ms in Hd. lia.
  - intros [_ (d & [= <-] & Hd)]. apply window_24h_ms in Hd. lia.
Qed.

(** ** How the reminder code changes the world *)

Lemma row_le_refl r : row_le r r.
Proof. by split. Qed.

Lemma row_le_trans r1 r2 r3 : row_le r1 r2 → row_le r2 r3 → row_le r1 r3.
Proof. intros (E1 & A1 & B1) (E2 & A2 & B2). split; [congruence|]. split; auto. Qed.

Lemma row_le_columns r r' :
  row_le r r' →
  user_id r = user_id r' ∧ interview_date r = interview_date r'
  ∧ interview_time r = interview_time r'.
Proof. intros ([= ? ? ? ? ? ?] & _). auto. Qed.

Lemma row_le_flag k r r' : row_le r r' → flag k r = true → flag k r' = true.
Proof. intros (_ & A & B). destruct k; simpl; auto. Qed.

Lemma row_le_set k r : row_le r (match k with R24h => set_24h true r | R3h => set_3h true r end).
Proof. destruct k; split; simpl; auto. Qed.

Lemma table_le_refl t : table_le t t.
Proof. intros id. destruct (t !! id); [apply row_le_refl | done]. Qed.

Lemma table_le_trans t1 t2 t3 : table_le t1 t2 → table_le t2 t3 → table_le t1 t3.
Proof.
  intros H1 H2 id. specialize (H1 id). specialize (H2 id).
  destruct (t1 !! id), (t2 !! id), (t3 !! id); try done.
  by eapply row_le_trans.
Qed.

Lemma table_le_insert t id r r' :
  t !! id = Some r → row_le r r' → table_le t (<[id := r']> t).
Proof.
  intros Hid Hle j. destruct (decide (id = j)) as [<-|Hne].
  - by rewrite lookup_insert_eq, Hid.
  - rewrite lookup_insert_ne by done. destruct (t !! j); [apply row_le_refl | done].
Qed.

Lemma table_le_lookup t t' id r :
  table_le t t' → t !! id = Some r → ∃ r', t' !! id = Some r' ∧ row_le r r'.
Proof. intros H Hid. specialize (H id). rewrite Hid in H. destruct (t' !! id); [eauto | done]. Qed.

Lemma table_le_lookup_inv t t' id r' :
  table_le t t' → t' !! id = Some r' → ∃ r, t !! id = Some r ∧ row_le r r'.
Proof.
  intros H Hid. specialize (H id). rewrite Hid in H.
  destruct (t !! id); [eauto | done].
Qed.

Lemma evolves_refl P w : evolves P w w.
Proof.
  split; [apply table_le_refl|]. repeat split; try done. by exists [].
Qed.

Lemma evolves_trans P w1 w2 w3 : evolves P w1 w2 → evolves P w2 w3 → evolves P w1 w3.
Proof.
  intros (T1 & N1 & U1 & G1 & new1 & E1 & F1) (T2 & N2 & U2 & G2 & new2 & E2 & F2).
  split; [by eapply table_le_trans|]. repeat split; try congruence.
  exists (new2 ++ new1). split.
  - by rewrite E2, E1, app_assoc.
  - by apply Forall_app.
Qed.

Lemma evolves_record P e w : P e → evolves P w (record e w).
Proof.
  intros He. split; [apply table_le_refl|]. repeat split; try done.
  exists [e]. split; [done|]. by constructor.
Qed.

Lemma keeps_ret {A} P (a : A) : keeps P (ret a).
Proof. intros w. apply evolves_refl. Qed.

Lemma keeps_bind {A B} P (m : M A) (k : A → M B) :
  keeps P m → (∀ a, keeps P (k a)) → keeps P (bind m k).
Proof.
  intros Hm Hk w. unfold bind. specialize (Hm w). destruct (m w) as [a w1].
  eapply evolves_trans; [exact Hm|]. apply Hk.
Qed.

Lemma keeps_when P b (m : M unit) : keeps P m → keeps P (when_ b m).
Proof. intros Hm. destruct b; [done | apply keeps_ret]. Qed.

Lemma keeps_ignore {A} P (m : M A) : keeps P m → keeps P (ignore m).
Proof. intros Hm. apply keeps_bind; [done|]. intros. apply keeps_ret. Qed.

Lemma select_world {A} env q (rows : World → A) w :
  ∃ err, (Db.select env q rows w).2 = record (Store q err) w
         ∧ (Db.select env q rows w).1
           = match err with Some e => Failure e | None => Success (rows w) end.
Proof.
  unfold Db.select. destruct (store_fault env (events w) q) as [e|]; eauto.
Qed.

Lemma keeps_select {A} P env q (rows : World → A) :
  (∀ err, P (Store q err)) → keeps P (Db.select env q rows).
Proof.
  intros HP w. destruct (select_world env q rows w) as (err & -> & _).
  by apply evolves_record.
Qed.

Lemma keeps_push P env to text :
  (∀ err, P (Push to text err)) → keeps P (Client.pushMessage env to text).
Proof. intros HP w. by apply evolves_record. Qed.

(** What a flag write does: refused, or it raises the flag of the row of
    that key if there is one. *)
Lemma markReminderSent_world env id k w :
  let q := Update id None (InterviewManager.updateData k) in
  let r := InterviewManager.markReminderSent env id k w in
  match store_fault env (events w) q with
  | Some e => r = (Failure e, record (Store q (Some e)) w)
  | None =>
      match interviews w !! id with
      | Some row =>
          r = (Success tt,
               record (Store q None)
                 (with_interviews
                    (<[id := match k with R24h => set_24h true row | R3h => set_3h true row end]>
                       (interviews w))
                    (next_id w) w))
      | None => r = (Success tt, record (Store q None) w)
      end
  end.
Proof.
  unfold InterviewManager.markReminderSent, bind, ret, Db.update_rows. simpl.
  destruct (store_fault env (events w) _); [done|].
  destruct k; simpl; destruct (interviews w !! id); done.
Qed.

Lemma keeps_markReminderSent P env id k :
  (∀ err, P (Store (Update id None (InterviewManager.updateData k)) err)) →
  keeps P (InterviewManager.markReminderSent env id k).
Proof.
  intros HP w. pose proof (markReminderSent_world env id k w) as H. simpl in H.
  destruct (store_fault env (events w) _).
  - rewrite H. by apply evolves_record.
  - destruct (interviews w !! id) as [row|] eqn:Hrow; rewrite H; simpl.
    + split; [|repeat split; try done; eexists [_]; split; [done|]; by constructor].
      simpl. eapply table_le_insert; [done | apply row_le_set].
    + by apply evolves_record.
Qed.

(** ** The reminder code under an event invariant *)

Section Cycle.
Variable env : Env.
Variable P : Event → Prop.

Hypothesis P_read : ∀ q err, is_read q = true → P (Store q err).
Hypothesis P_push :
  ∀ to text err,
    ReminderManager.isValidLineUserId to = true
    ∨ ReminderManager.isValidLineGroupId to = true →
    P (Push to text err).
Hypothesis P_mark :
  ∀ id k err, P (Store (Update id None (InterviewManager.updateData k)) err).

Lemma keeps_getReminderRecipientIds :
  keeps P (ReminderManager.getReminderRecipientIds env).
Proof using P_read.
  unfold ReminderManager.getReminderRecipientIds.
  apply keeps_bind; [by apply keeps_select; intros; apply P_read|]. intros users.
  apply keeps_bind.
  { destruct (_ =? _)%nat; [|apply keeps_ret].
    apply keeps_bind; [by apply keeps_select; intros; apply P_read|].
    intros. apply keeps_ret. }
  intros userIds.
  apply keeps_bind; [by apply keeps_select; intros; apply P_read|].
  intros. apply keeps_ret.
Qed.

Lemma keeps_sendEach Label what valid warn message ids n errs :
  (∀ id, valid id = true →
         ReminderManager.isValidLineUserId id = true
         ∨ ReminderManager.isValidLineGroupId id = true) →
  keeps P (ReminderManager.sendEach env Label what valid warn message ids n errs).
Proof using P_push.
  intros Hvalid. revert n errs.
  induction ids as [|id rest IH]; intros n errs; simpl; [apply keeps_ret|].
  destruct (valid id) eqn:Hid; simpl; [|apply IH].
  apply keeps_bind; [apply keeps_push; intros; apply P_push; auto|].
  intros [e|]; apply IH.
Qed.

Lemma keeps_sendReminderMessage x k :
  keeps P (ReminderManager.sendReminderMessage env x k).
Proof using P_read P_push.
  unfold ReminderManager.sendReminderMessage.
  apply keeps_bind; [apply keeps_getReminderRecipientIds|]. intros [userIds groupIds].
  apply keeps_bind; [apply keeps_sendEach; auto|]. intros [n errs].
  apply keeps_bind; [apply keeps_sendEach; auto|]. intros [n' errs'].
  apply keeps_ret.
Qed.

Lemma keeps_processOne k x acc :
  keeps P (ReminderManager.processOne env k x acc).
Proof using P_read P_push P_mark.
  unfold ReminderManager.processOne. destruct acc as [total errs].
  apply keeps_bind; [apply keeps_sendReminderMessage|]. intros res.
  destruct (ReminderManager.success res); [|apply keeps_ret].
  apply keeps_bind; [apply keeps_markReminderSent; auto|]. intros. apply keeps_ret.
Qed.

Lemma keeps_processAll k l acc :
  keeps P (ReminderManager.processAll env k l acc).
Proof using P_read P_push P_mark.
  revert acc. induction l as [|x l IH]; intros acc; simpl; [apply keeps_ret|].
  apply keeps_bind; [apply keeps_processOne | apply IH].
Qed.

Lemma keeps_getInterviewsNeedingReminders now :
  keeps P (InterviewManager.getInterviewsNeedingReminders env now).
Proof using P_read.
  unfold InterviewManager.getInterviewsNeedingReminders.
  apply keeps_bind; [by apply keeps_select; intros; apply P_read|].
  intros. apply keeps_ret.
Qed.

Lemma keeps_processReminders now :
  keeps P (ReminderManager.processReminders env now).
Proof using P_read P_push P_mark.
  unfold ReminderManager.processReminders.
  apply keeps_bind; [apply keeps_getInterviewsNeedingReminders|].
  intros [[l24 l3]|e]; [|apply keeps_ret].
  apply keeps_bind; [apply keeps_processAll|]. intros acc.
  apply keeps_bind; [apply keeps_processAll|]. intros [total errs].
  apply keeps_ret.
Qed.

Lemma keeps_sendInterviewListToEveryone now :
  keeps P (Broadcast.sendInterviewListToEveryone env now).
Proof using P_read P_push.
  unfold Broadcast.sendInterviewListToEveryone, InterviewManager.getAllUpcomingInterviews.
  apply keeps_bind; [by apply keeps_select; intros; apply P_read|].
  intros [interviews|e]; [|apply keeps_ret].
  apply keeps_bind; [apply keeps_getReminderRecipientIds|]. intros [userIds groupIds].
  apply keeps_bind; [apply keeps_sendEach; auto|]. intros [n errs].
  apply keeps_bind; [apply keeps_sendEach; auto|]. intros [n' errs'].
  apply keeps_ret.
Qed.

Lemma keeps_triggerReminders now req :
  keeps P (Trigger.triggerReminders env now req).
Proof using P_read P_push P_mark.
  unfold Trigger.triggerReminders.
  destruct (_ || _); [apply keeps_ret|].
  destruct (_ && _); [apply keeps_ret|].
  destruct (Trigger.action req) as [action|]; [|apply keeps_ret].
  destruct (String.eqb _ _).
  - apply keeps_bind; [apply keeps_sendInterviewListToEveryone|]. intros. apply keeps_ret.
  - apply keeps_bind; [apply keeps_processReminders|]. intros. apply keeps_ret.
Qed.

End Cycle.

(** ** The send loops in detail *)

Lemma reads_only_ret {A} (a : A) : reads_only (ret a).
Proof. done. Qed.

Lemma reads_only_bind {A B} (m : M A) (k : A → M B) :
  reads_only m → (∀ a, reads_only (k a)) → reads_only (bind m k).
Proof.
  intros Hm Hk w. unfold bind. specialize (Hm w). destruct (m w) as [a w1].
  simpl in Hm. rewrite <- Hm. apply Hk.
Qed.

Lemma reads_only_select {A} env q (rows : World → A) : reads_only (Db.select env q rows).
Proof. intros w. destruct (select_world env q rows w) as (err & -> & _). done. Qed.

Lemma reads_only_getReminderRecipientIds env :
  reads_only (ReminderManager.getReminderRecipientIds env).
Proof.
  unfold ReminderManager.getReminderRecipientIds.
  apply reads_only_bind; [apply reads_only_select|]. intros users.
  apply reads_only_bind.
  { destruct (_ =? _)%nat; [|apply reads_only_ret].
    apply reads_only_bind; [apply reads_only_select|]. intros. apply reads_only_ret. }
  intros userIds.
  apply reads_only_bind; [apply reads_only_select|]. intros. apply reads_only_ret.
Qed.

Lemma reads_only_sendEach env Label what valid warn message ids n errs :
  reads_only (ReminderManager.sendEach env Label what valid warn message ids n errs).
Proof.
  revert n errs. induction ids as [|id rest IH]; intros n errs; simpl; [done|].
  destruct (valid id); simpl; [|apply IH].
  apply reads_only_bind; [done|]. intros [e|]; apply IH.
Qed.

Lemma reads_only_sendReminderMessage env x k :
  reads_only (ReminderManager.sendReminderMessage env x k).
Proof.
  unfold ReminderManager.sendReminderMessage.
  apply reads_only_bind; [apply reads_only_getReminderRecipientIds|]. intros [u g].
  apply reads_only_bind; [apply reads_only_sendEach|]. intros [n errs].
  apply reads_only_bind; [apply reads_only_sendEach|]. intros [n' errs'].
  apply reads_only_ret.
Qed.

Lemma default_or_undefined (errs : list string) :
  default [] (ReminderManager.or_undefined errs) = errs.
Proof. by destruct errs. Qed.

(** One reporting send loop over [ids]: what it adds to the history, to the
    count and to the errors. *)
Lemma sendEach_spec env Label what valid message ids :
  ∀ n errs w n' errs' w',
    ReminderManager.sendEach env Label what valid true message ids n errs w
      = ((n', errs'), w') →
    ∃ new added,
      events w' = new ++ events w
      ∧ errs' = errs ++ added
      ∧ (n' + length added = n + length ids)%nat
      ∧ n' = (n + length (List.filter delivered new))%nat
      ∧ Forall (λ e, ∃ id err, e = Push id message err ∧ id ∈ ids ∧ valid id = true) new
      ∧ (∀ id, id ∈ ids → valid id = false →
               ReminderManager.invalid_format Label what id ∈ added)
      ∧ (∀ s, s ∈ added →
              (∃ id, id ∈ ids ∧ valid id = false
                     ∧ s = ReminderManager.invalid_format Label what id)
              ∨ (∃ id e, id ∈ ids ∧ valid id = true
                         ∧ Push id message (Some e) ∈ new
                         ∧ s = ReminderManager.delivery_error Label id e)).
Proof.
  induction ids as [|id rest IH]; intros n errs w n' errs' w'; simpl.
  { intros [= <- <- <-]. exists [], []. rewrite app_nil_r. simpl.
    repeat split; try done; try lia.
    - intros id H. by apply elem_of_nil in H.
    - intros s H. by apply elem_of_nil in H. }
  destruct (valid id) eqn:Hid; simpl.
  - unfold bind, Client.pushMessage.
    destruct (push_fault env (events w) id message) as [e|] eqn:Hpush; intros Hrun;
      apply IH in Hrun as (new & added & Ev & Er & Hn & Hd & Hnew & Hinv & Herr);
      simpl in Ev.
    + exists (new ++ [Push id message (Some e)]),
             (ReminderManager.delivery_error Label id e :: added).
      split; [by rewrite <- app_assoc|].
      split; [by rewrite Er, <- app_assoc|].
      split; [simpl; lia|].
      split; [rewrite List.filter_app, length_app; simpl; lia|].
      split.
      { apply Forall_app. split.
        - eapply Forall_impl; [exact Hnew|]. intros ev (i & er & -> & Hi & Hv).
          exists i, er. split; [done|]. split; [by right | done].
        - constructor; [|constructor]. exists id, (Some e). split; [done|].
          split; [by left | done]. }
      split.
      { intros i Hi Hv. apply elem_of_cons in Hi as [->|Hi]; [congruence|].
        right. by apply Hinv. }
      intros s Hs. apply elem_of_cons in Hs as [->|Hs].
      * right. exists id, e. split; [by left|]. split; [done|].
        split; [|done]. apply elem_of_app. right. by left.
      * destruct (Herr s Hs) as [(i & Hi & Hv & ->)|(i & e' & Hi & Hv & Hp & ->)].
        -- left. exists i. split; [by right | done].
        -- right. exists i, e'. split; [by right|]. split; [done|]. split; [|done].
           apply elem_of_app. by left.
    + exists (new ++ [Push id message None]), added.
      split; [by rewrite <- app_assoc|].
      split; [done|].
      split; [simpl; lia|].
      split; [rewrite List.filter_app, length_app; simpl; lia|].
      split.
      { apply Forall_app. split.
        - eapply Forall_impl; [exact Hnew|]. intros ev (i & er & -> & Hi & Hv).
          exists i, er. split; [done|]. split; [by right | done].
        - constructor; [|constructor]. exists id, None. split; [done|].
          split; [by left | done]. }
      split.
      { intros i Hi Hv. apply elem_of_cons in Hi as [->|Hi]; [congruence|].
        by apply Hinv. }
      intros s Hs.
      destruct (Herr s Hs) as [(i & Hi & Hv & ->)|(i & e' & Hi & Hv & Hp & ->)].
      * left. exists i. split; [by right | done].
      * right. exists i, e'. split; [by right|]. split; [done|]. split; [|done].
        apply elem_of_app. by left.
  - intros Hrun.
    apply IH in Hrun as (new & added & Ev & Er & Hn & Hd & Hnew & Hinv & Herr).
    exists new, (ReminderManager.invalid_format Label what id :: added).
    split; [done|].
    split; [by rewrite Er, <- app_assoc|].
    split; [simpl; lia|].
    split; [done|].
    split.
    { eapply Forall_impl; [exact Hnew|]. intros ev (i & er & -> & Hi & Hv).
      exists i, er. split; [done|]. split; [by right | done]. }
    split.
    { intros i Hi Hv. apply elem_of_cons in Hi as [->|Hi]; [by left|].
      right. by apply Hinv. }
    intros s Hs. apply elem_of_cons in Hs as [->|Hs].
    + left. exists id. split; [by left | done].
    + destruct (Herr s Hs) as [(i & Hi & Hv & ->)|(i & e' & Hi & Hv & Hp & ->)].
      * left. exists i. split; [by right | done].
      * right. exists i, e'. split; [by right | done].
Qed.

Lemma getReminderRecipientIds_events env w :
  ∃ reads,
    events (ReminderManager.getReminderRecipientIds env w).2 = reads ++ events w
    ∧ Forall read_event reads.
Proof.
  destruct (keeps_getReminderRecipientIds env read_event) with (w := w)
    as (_ & _ & _ & _ & H); [|done].
  intros q err Hq. by exists q, err.
Qed.

(** What one call of [sendReminderMessage] does. *)
Lemma sendReminderMessage_spec env (x : Row) k w :
  let ids := (ReminderManager.getReminderRecipientIds env w).1 in
  let res := (ReminderManager.sendReminderMessage env x k w).1 in
  let w' := (ReminderManager.sendReminderMessage env x k w).2 in
  ∃ reads pushes,
    events w' = pushes ++ reads ++ events w
    ∧ Forall read_event reads
    ∧ Forall (pushed_to (ReminderManager.reminderMessage x.2 k) ids.1 ids.2) pushes
    ∧ ReminderManager.sentCount res = length (List.filter delivered pushes)
    ∧ ReminderManager.success res = (0 <? ReminderManager.sentCount res)%nat
    ∧ ReminderManager.error res = None
    ∧ (ReminderManager.sentCount res + length (default [] (ReminderManager.errors res))
       = length ids.1 + length ids.2)%nat
    ∧ (∀ id, id ∈ ids.1 → ReminderManager.isValidLineUserId id = false →
             ReminderManager.invalid_format "User" "user" id
               ∈ default [] (ReminderManager.errors res))
    ∧ (∀ id, id ∈ ids.2 → ReminderManager.isValidLineGroupId id = false →
             ReminderManager.invalid_format "Group" "group" id
               ∈ default [] (ReminderManager.errors res))
    ∧ (∀ s, s ∈ default [] (ReminderManager.errors res) →
            (∃ id, (id ∈ ids.1 ∧ ReminderManager.isValidLineUserId id = false
                    ∧ s = ReminderManager.invalid_format "User" "user" id)
                   ∨ (id ∈ ids.2 ∧ ReminderManager.isValidLineGroupId id = false
                      ∧ s = ReminderManager.invalid_format "Group" "group" id))
            ∨ (∃ id e Label, Push id (ReminderManager.reminderMessage x.2 k) (Some e) ∈ pushes
                             ∧ s = ReminderManager.delivery_error Label id e)).
Proof.
  simpl. unfold ReminderManager.sendReminderMessage, bind.
  destruct (getReminderRecipientIds_events env w) as (reads & Hreads & Freads).
  destruct (ReminderManager.getReminderRecipientIds env w) as [[userIds groupIds] w1].
  simpl in *.
  destruct (ReminderManager.sendEach env "User" "user" _ true _ userIds 0 [] w1)
    as [[n1 errs1] w2] eqn:Hu.
  apply sendEach_spec in Hu as (new1 & add1 & Ev1 & Er1 & Hn1 & Hd1 & Hnew1 & Hinv1 & Herr1).
  destruct (ReminderManager.sendEach env "Group" "group" _ true _ groupIds n1 errs1 w2)
    as [[n2 errs2] w3] eqn:Hg.
  apply sendEach_spec in Hg as (new2 & add2 & Ev2 & Er2 & Hn2 & Hd2 & Hnew2 & Hinv2 & Herr2).
  simpl in *. subst errs1 errs2.
  exists reads, (new2 ++ new1). rewrite default_or_undefined.
  split; [by rewrite Ev2, Ev1, Hreads, <- app_assoc|].
  split; [done|].
  split.
  { apply Forall_app. split.
    - eapply Forall_impl; [exact Hnew2|]. intros e (id & err & -> & Hi & Hv).
      exists id, err. auto.
    - eapply Forall_impl; [exact Hnew1|]. intros e (id & err & -> & Hi & Hv).
      exists id, err. auto. }
  split; [rewrite List.filter_app, length_app; lia|].
  split; [done|]. split; [done|].
  split; [rewrite length_app; lia|].
  split; [intros id Hi Hv; apply elem_of_app; left; by apply Hinv1|].
  split; [intros id Hi Hv; apply elem_of_app; right; by apply Hinv2|].
  intros s Hs. apply elem_of_app in Hs as [Hs|Hs].
  - destruct (Herr1 s Hs) as [(i & Hi & Hv & ->)|(i & e & Hi & Hv & Hp & ->)].
    + left. exists i. auto.
    + right. exists i, e, "User". split; [|done]. apply elem_of_app. by right.
  - destruct (Herr2 s Hs) as [(i & Hi & Hv & ->)|(i & e & Hi & Hv & Hp & ->)].
    + left. exists i. auto.
    + right. exists i, e, "Group". split; [|done]. apply elem_of_app. by left.
Qed.




(** ** One interview of the cycle *)

(** The body of the loop, by the outcome of the send. *)
Lemma processOne_unfold env k (x : Row) total errs w :
  ReminderManager.processOne env k x (total, errs) w
  = if ReminderManager.success (ReminderManager.sendReminderMessage env x k w).1
    then ((total
           + (if (ReminderManager.sentCount
                    (ReminderManager.sendReminderMessage env x k w).1 =? 0)%nat
              then 1
              else ReminderManager.sentCount
                     (ReminderManager.sendReminderMessage env x k w).1),
           errs ++ default []
                     (ReminderManager.errors
                        (ReminderManager.sendReminderMessage env x k w).1))%nat,
          (InterviewManager.markReminderSent env x.1 k
             (ReminderManager.sendReminderMessage env x k w).2).2)
    else ((total,
           errs ++ [kind_text k +:+ " reminder for interview " +:+ pretty x.1 +:+ ": "
                    +:+ ReminderManager.undefined_text
                          (ReminderManager.error
                             (ReminderManager.sendReminderMessage env x k w).1)]),
          (ReminderManager.sendReminderMessage env x k w).2).
Proof.
  unfold ReminderManager.processOne, bind.
  destruct (ReminderManager.sendReminderMessage env x k w) as [res w1]. simpl.
  destruct (ReminderManager.success res); [|done].
  by destruct (InterviewManager.markReminderSent env x.1 k w1).
Qed.

(** The world after one interview does not depend on the accumulators. *)
Lemma processOne_world env k x acc acc' w :
  (ReminderManager.processOne env k x acc w).2
  = (ReminderManager.processOne env k x acc' w).2.
Proof.
  destruct acc as [t e], acc' as [t' e']. rewrite !processOne_unfold.
  by destruct (ReminderManager.success _).
Qed.

Lemma flag_set k r :
  flag k (match k with R24h => set_24h true r | R3h => set_3h true r end) = true.
Proof. by destruct k. Qed.

Lemma sentCount_success env x k w :
  ReminderManager.success (ReminderManager.sendReminderMessage env x k w).1 = true
  ↔ (0 < ReminderManager.sentCount (ReminderManager.sendReminderMessage env x k w).1)%nat.
Proof.
  destruct (sendReminderMessage_spec env x k w) as (_ & _ & _ & _ & _ & _ & -> & _).
  apply Nat.ltb_lt.
Qed.

(** One interview whose flag is not yet set, whatever the store does with
    the flag write of its turn. *)
Lemma processOne_flag env k (x : Row) total errs w r0 :
  interviews w !! x.1 = Some r0 →
  flag k r0 = false →
  let ids := (ReminderManager.getReminderRecipientIds env w).1 in
  let res := (ReminderManager.sendReminderMessage env x k w).1 in
  let acc' := (ReminderManager.processOne env k x (total, errs) w).1 in
  let w' := (ReminderManager.processOne env k x (total, errs) w).2 in
  ∃ r',
    interviews w' !! x.1 = Some r'
    ∧ (flag k r' = true
       ↔ (0 < ReminderManager.sentCount res)%nat
         ∧ store_fault env (events (ReminderManager.sendReminderMessage env x k w).2)
             (Update x.1 None (InterviewManager.updateData k)) = None)
    ∧ (ReminderManager.sentCount res = 0%nat →
       flag k r' = false
       ∧ interviews w' = interviews w
       ∧ ∀ now, Db.candidates (Moment.local_day now) w'
                = Db.candidates (Moment.local_day now) w)
    ∧ (ReminderManager.sentCount res + length (default [] (ReminderManager.errors res))
       = length ids.1 + length ids.2)%nat
    ∧ ((length ids.1 + length ids.2 = 3)%nat →
       ReminderManager.sentCount res = 1%nat →
       length (default [] (ReminderManager.errors res)) = 2%nat
       ∧ acc' = ((total + 1)%nat, errs ++ default [] (ReminderManager.errors res))).
Proof.
  intros Hrow Hflag. cbv zeta.
  rewrite processOne_unfold.
  pose proof (sentCount_success env x k w) as Hsucc.
  destruct (sendReminderMessage_spec env x k w)
    as (_ & _ & _ & _ & _ & _ & _ & _ & Hcount & _).
  pose proof (reads_only_sendReminderMessage env x k w) as Hsame.
  simpl in *.
  destruct (ReminderManager.sendReminderMessage env x k w) as [res w1]. simpl in *.
  destruct (ReminderManager.success res) eqn:Hs; simpl.
  - assert (Hpos : (0 < ReminderManager.sentCount res)%nat) by by apply Hsucc.
    pose proof (markReminderSent_world env x.1 k w1) as Hmark. simpl in Hmark.
    destruct (store_fault env (events w1) _) as [e|] eqn:Hstore.
    + rewrite Hmark. simpl. rewrite Hsame. exists r0. split; [done|].
      split; [rewrite Hflag; split; [done | by intros [_ ?]]|].
      split; [lia|]. split; [done|]. intros H3 H1. split; [lia|]. by rewrite H1.
    + rewrite Hsame, Hrow in Hmark. rewrite Hmark. simpl.
      eexists. split; [apply lookup_insert_eq|].
      split; [rewrite flag_set; by split|].
      split; [lia|]. split; [done|].
      intros H3 H1. split; [lia|]. by rewrite H1.
  - assert (Hzero : ReminderManager.sentCount res = 0%nat).
    { destruct (ReminderManager.sentCount res); [done|].
      assert (false = true) by (apply Hsucc; lia). done. }
    exists r0. rewrite Hsame. split; [done|].
    split; [rewrite Hflag, Hzero; split; [done | intros [? _]; lia]|].
    split.
    { intros _. split; [done|]. split; [done|]. intros now. unfold Db.candidates, Db.rows.
      by rewrite Hsame. }
    split; [done|]. intros _ H1. lia.
Qed.

(** ** Two cycles in a row *)

Lemma needs_flag k now r : needs k now r = true → flag k r = false.
Proof.
  destruct k; simpl; unfold InterviewManager.needs24h, InterviewManager.needs3h;
    rewrite !andb_true_iff, negb_true_iff; tauto.
Qed.

Lemma diffHours_columns now r r' :
  row_le r r' → InterviewManager.diffHours now r = InterviewManager.diffHours now r'.
Proof.
  intros H. apply row_le_columns in H as (_ & Hd & Ht).
  unfold InterviewManager.diffHours. by rewrite Hd, Ht.
Qed.

(** A row that needs a reminder now needed it already before its flags rose. *)
Lemma needs_earlier k now r r' :
  row_le r r' → needs k now r' = true → needs k now r = true.
Proof.
  intros Hle Hn. pose proof (needs_flag _ _ _ Hn) as Hf'.
  assert (Hf : flag k r = false).
  { destruct (flag k r) eqn:E; [|done]. apply (row_le_flag k _ _ Hle) in E. congruence. }
  revert Hn. destruct k; simpl in *;
    unfold InterviewManager.needs24h, InterviewManager.needs3h;
    rewrite (diffHours_columns now r r' Hle), Hf, Hf'; done.
Qed.

Lemma candidates_elem today w (x : Row) :
  x ∈ Db.candidates today w
  ↔ interviews w !! x.1 = Some x.2 ∧ Db.is_candidate today x.2 = true.
Proof.
  unfold Db.candidates, Db.rows.
  pose proof (elem_of_map_to_list' (interviews w) x) as Hx.
  rewrite list_elem_of_filter, Is_true_true. tauto.
Qed.

Lemma is_candidate_earlier k today now r r' :
  row_le r r' → needs k now r' = true →
  Db.is_candidate today r' = true → Db.is_candidate today r = true.
Proof.
  intros Hle Hn. pose proof (needs_earlier _ _ _ _ Hle Hn) as Hn0.
  apply needs_flag in Hn0.
  unfold Db.is_candidate, Db.on_or_after.
  apply row_le_columns in Hle as (_ & <- & _).
  rewrite !andb_true_iff, orb_true_iff, !negb_true_iff. intros [_ Hday].
  split; [|done]. destruct k; simpl in Hn0; rewrite Hn0; simpl; [done|].
  apply orb_true_r.
Qed.

Lemma processAll_world env k l acc acc' w :
  (ReminderManager.processAll env k l acc w).2
  = (ReminderManager.processAll env k l acc' w).2.
Proof.
  revert acc acc' w. induction l as [|x l IH]; intros acc acc' w; simpl; [done|].
  unfold bind.
  pose proof (processOne_world env k x acc acc' w) as Hw.
  destruct (ReminderManager.processOne env k x acc w) as [a1 w1],
           (ReminderManager.processOne env k x acc' w) as [a2 w2].
  simpl in Hw. subst w2. apply IH.
Qed.

Lemma table_le_processOne env k x acc w :
  table_le (interviews w) (interviews (ReminderManager.processOne env k x acc w).2).
Proof. by destruct (keeps_processOne env any_event) with (k := k) (x := x) (acc := acc) (w := w). Qed.

Lemma table_le_processAll env k l acc w :
  table_le (interviews w) (interviews (ReminderManager.processAll env k l acc w).2).
Proof. by destruct (keeps_processAll env any_event) with (k := k) (l := l) (acc := acc) (w := w). Qed.

Lemma table_le_processReminders env now w :
  table_le (interviews w) (interviews (ReminderManager.processReminders env now w).2).
Proof. by destruct (keeps_processReminders env any_event) with (now := now) (w := w). Qed.

(** An interview whose delivery and flag write succeeded has its flag set
    right after its turn. *)
Lemma processOne_sets_flag env k (x : Row) acc w r :
  interviews w !! x.1 = Some r →
  delivered_and_persisted (step_outcome env k x w) →
  ∃ r', interviews (ReminderManager.processOne env k x acc w).2 !! x.1 = Some r'
        ∧ flag k r' = true.
Proof.
  intros Hrow [Hpos Hmark]. destruct acc as [total errs].
  rewrite processOne_unfold. unfold step_outcome in *. simpl in *.
  apply sentCount_success in Hpos. rewrite Hpos in *.
  injection Hmark as Hmark. simpl.
  pose proof (reads_only_sendReminderMessage env x k w) as Hsame.
  pose proof (markReminderSent_world env x.1 k
                (ReminderManager.sendReminderMessage env x k w).2) as Hw.
  simpl in Hw.
  destruct (store_fault env _ _).
  { rewrite Hw in Hmark. discriminate. }
  rewrite Hsame, Hrow in Hw. rewrite Hw. simpl.
  eexists. split; [apply lookup_insert_eq | apply flag_set].
Qed.

(** After a loop whose every step delivered and persisted, every interview
    of the list has its flag set. *)
Lemma processAll_sets_flags env k l :
  ∀ acc w,
    (∀ x : Row, x ∈ l → is_Some (interviews w !! x.1)) →
    Forall delivered_and_persisted (outcomes env k l w) →
    ∀ x : Row, x ∈ l →
      ∃ r', interviews (ReminderManager.processAll env k l acc w).2 !! x.1 = Some r'
            ∧ flag k r' = true.
Proof.
  induction l as [|y l IH]; intros acc w Hdom Hok x Hx.
  { by apply elem_of_nil in Hx. }
  cbn [outcomes] in Hok. apply Forall_cons in Hok as [Hy Hrest].
  cbn [ReminderManager.processAll]. unfold bind.
  rewrite (processOne_world env k y (0%nat, []) acc w) in Hrest.
  pose proof (table_le_processOne env k y acc w) as Hle1.
  destruct (Hdom y) as [ry Hry]; [by left|].
  destruct (processOne_sets_flag env k y acc w ry Hry Hy) as (ry' & Hry' & Hfy).
  destruct (ReminderManager.processOne env k y acc w) as [acc1 w1]. simpl in *.
  assert (Hdom1 : ∀ z : Row, z ∈ l → is_Some (interviews w1 !! z.1)).
  { intros z Hz. destruct (Hdom z) as [rz Hrz]; [by right|].
    destruct (table_le_lookup _ _ _ _ Hle1 Hrz) as (rz' & ? & _). eauto. }
  apply elem_of_cons in Hx as [->|Hx].
  - pose proof (table_le_processAll env k l acc1 w1) as Hle2.
    destruct (table_le_lookup _ _ _ _ Hle2 Hry') as (r2 & Hr2 & Hle).
    exists r2. split; [done|]. by eapply row_le_flag.
  - by apply IH.
Qed.

Lemma getInterviewsNeedingReminders_unfold env now w :
  let q := SelectCandidates (Moment.local_day now) in
  InterviewManager.getInterviewsNeedingReminders env now w
  = match store_fault env (events w) q with
    | Some e => (Failure e, record (Store q (Some e)) w)
    | None =>
        (Success
           (filter (λ x : Row, needs R24h now x.2) (Db.candidates (Moment.local_day now) w),
            filter (λ x : Row, needs R3h now x.2) (Db.candidates (Moment.local_day now) w)),
         record (Store q None) w)
    end.
Proof.
  simpl. unfold InterviewManager.getInterviewsNeedingReminders, bind, ret, Db.select.
  destruct (store_fault env (events w) _); [done|]. by rewrite classify_filter.
Qed.

Lemma processReminders_unfold env now w :
  ReminderManager.processReminders env now w
  = match (InterviewManager.getInterviewsNeedingReminders env now w).1 with
    | Failure e => (Failure e, (InterviewManager.getInterviewsNeedingReminders env now w).2)
    | Success (l24, l3) =>
        let a := ReminderManager.processAll env R24h l24 (0%nat, [])
                   (InterviewManager.getInterviewsNeedingReminders env now w).2 in
        let b := ReminderManager.processAll env R3h l3 a.1 a.2 in
        (Success (ReminderManager.mkCycleReport b.1.1 (ReminderManager.or_undefined b.1.2)),
         b.2)
    end.
Proof.
  unfold ReminderManager.processReminders, bind.
  destruct (InterviewManager.getInterviewsNeedingReminders env now w) as [[[l24 l3]|e] wf];
    simpl; [|done].
  destruct (ReminderManager.processAll env R24h l24 (0%nat, []) wf) as [a w2]. simpl.
  by destruct (ReminderManager.processAll env R3h l3 a w2) as [[total errs] w3].
Qed.

(** After a cycle that fetched its candidates and whose every step
    delivered and persisted, no row needs a reminder any more. *)
Lemma nothing_left env now w report w1 :
  ReminderManager.processReminders env now w = (Success report, w1) →
  Forall delivered_and_persisted (cycle_outcomes env now w) →
  ∀ k (x : Row), x ∈ Db.candidates (Moment.local_day now) w1 → needs k now x.2 = false.
Proof.
  intros Hrun Hok k x Hx.
  destruct (needs k now x.2) eqn:Hneeds; [exfalso | done].
  pose proof (table_le_processReminders env now w) as Hle. rewrite Hrun in Hle.
  simpl in Hle.
  apply candidates_elem in Hx as [Hx1 Hcand1].
  destruct (table_le_lookup_inv _ _ _ _ Hle Hx1) as (r & Hr & Hrle).
  pose proof (needs_earlier _ _ _ _ Hrle Hneeds) as Hneeds0.
  pose proof (is_candidate_earlier _ _ _ _ _ Hrle Hneeds Hcand1) as Hcand0.
  (* the row was classified by the first cycle *)
  revert Hrun Hok. unfold cycle_outcomes. rewrite processReminders_unfold.
  rewrite getInterviewsNeedingReminders_unfold. cbv zeta.
  destruct (store_fault env (events w) _); [discriminate|]. simpl.
  set (cands := Db.candidates (Moment.local_day now) w).
  set (wf := record _ w).
  set (l24 := filter (λ x : Row, InterviewManager.needs24h now x.2) cands).
  set (l3 := filter (λ x : Row, InterviewManager.needs3h now x.2) cands).
  intros Hrun Hok. apply Forall_app in Hok as [Hok24 Hok3].
  assert (Hin : (x.1, r) ∈ cands) by (apply candidates_elem; by split).
  assert (Hdom : ∀ l : list Row, (∀ z, z ∈ l → z ∈ cands) →
                   ∀ w', table_le (interviews w) (interviews w') →
                         ∀ z : Row, z ∈ l → is_Some (interviews w' !! z.1)).
  { intros l Hl w' Hw' z Hz. apply Hl, candidates_elem in Hz as [Hz _].
    destruct (table_le_lookup _ _ _ _ Hw' Hz) as (r' & ? & _). eauto. }
  pose proof (table_le_processAll env R24h l24 (0%nat, []) wf) as Hle24.
  destruct (ReminderManager.processAll env R24h l24 (0%nat, []) wf) as [a w2] eqn:H24.
  pose proof (table_le_processAll env R3h l3 a w2) as Hle3.
  simpl in Hrun, Hok3, Hle24.
  destruct k; simpl in Hneeds0.
  - assert (Hx24 : (x.1, r) ∈ l24).
    { apply list_elem_of_filter. split; [by apply Is_true_true | done]. }
    destruct (processAll_sets_flags env R24h l24 (0%nat, []) wf) with (x := (x.1, r))
      as (r2 & Hr2 & Hf2); try done.
    { apply Hdom; [|apply table_le_refl]. intros z Hz.
      by apply list_elem_of_filter in Hz as [_ ?]. }
    rewrite H24 in Hr2. simpl in Hr2.
    destruct (table_le_lookup _ _ _ _ Hle3 Hr2) as (r3 & Hr3 & Hrle3).
    injection Hrun as _ <-. rewrite Hx1 in Hr3. injection Hr3 as <-.
    apply (row_le_flag R24h) in Hrle3; [|done].
    apply (needs_flag R24h) in Hneeds. simpl in *. congruence.
  - assert (Hx3 : (x.1, r) ∈ l3).
    { apply list_elem_of_filter. split; [by apply Is_true_true | done]. }
    destruct (processAll_sets_flags env R3h l3 a w2) with (x := (x.1, r))
      as (r3 & Hr3 & Hf3); try done.
    { apply Hdom; [|exact Hle24]. intros z Hz.
      by apply list_elem_of_filter in Hz as [_ ?]. }
    simpl in Hr3.
    injection Hrun as _ <-. rewrite Hx1 in Hr3. injection Hr3 as <-.
    apply (needs_flag R3h) in Hneeds. simpl in *. congruence.
Qed.

Lemma filter_none {A} (f : A → bool) (l : list A) :
  (∀ x, x ∈ l → f x = false) → filter (λ x, f x) l = [].
Proof.
  intros H. apply elem_of_nil_inv. intros x Hx.
  apply list_elem_of_filter in Hx as [Hfx Hx]. apply H in Hx.
  rewrite Hx in Hfx. done.
Qed.

(** C4.  Run the cycle twice in a row at the same [now], nothing else
    touching the store in between.  If the first run fetched its candidates
    and every interview it classified had at least one successful delivery
    and a successful flag write, then the second run does nothing but its
    fetch: it pushes no notification, and it reports zero sent and no error
    (or the failure of its fetch). *)
Theorem second_cycle_sends_nothing env now w report w1 :
  ReminderManager.processReminders env now w = (Success report, w1) →
  Forall delivered_and_persisted (cycle_outcomes env now w) →
  ∃ err,
    events (ReminderManager.processReminders env now w1).2
      = Store (SelectCandidates (Moment.local_day now)) err :: events w1
    ∧ (∀ to text e,
         Push to text e ∈ events (ReminderManager.processReminders env now w1).2 →
         Push to text e ∈ events w1)
    ∧ (ReminderManager.processReminders env now w1).1
      = match err with
        | None => Success (ReminderManager.mkCycleReport 0 None)
        | Some e => Failure e
        end.
Proof.
  intros Hrun Hok.
  pose proof (nothing_left env now w report w1 Hrun Hok) as Hnone.
  rewrite processReminders_unfold, getInterviewsNeedingReminders_unfold. cbv zeta.
  destruct (store_fault env (events w1) _) as [e|].
  - exists (Some e). simpl. split; [done|]. split; [|done].
    intros to text e' Hin. by apply elem_of_cons in Hin as [[=]|?].
  - exists None.
    rewrite (filter_none (λ x : Row, needs R24h now x.2)) by (intros; by apply Hnone).
    rewrite (filter_none (λ x : Row, needs R3h now x.2)) by (intros; by apply Hnone).
    simpl. split; [done|]. split; [|done].
    intros to text e' Hin. by apply elem_of_cons in Hin as [[=]|?].
Qed.

(** ** A whole cycle, interview by interview *)

Lemma raised_refl k ids t : raised k ids t t.
Proof. intros j. destruct (t !! j); [by left | done]. Qed.

Lemma set_flag_idem k r : set_flag k (set_flag k r) = set_flag k r.
Proof. by destruct k. Qed.

Lemma raised_trans k ids1 ids2 t1 t2 t3 :
  raised k ids1 t1 t2 → raised k ids2 t2 t3 → raised k (ids1 ++ ids2) t1 t3.
Proof.
  intros H1 H2 j. specialize (H1 j). specialize (H2 j).
  destruct (t1 !! j) as [r1|], (t2 !! j) as [r2|], (t3 !! j) as [r3|]; try done.
  destruct H1 as [->|[Hj1 ->]], H2 as [->|[Hj2 ->]].
  - by left.
  - right. split; [|done]. apply elem_of_app. by right.
  - right. split; [|done]. apply elem_of_app. by left.
  - right. split; [apply elem_of_app; by left | apply set_flag_idem].
Qed.

Lemma raised_outside k ids t t' j : raised k ids t t' → j ∉ ids → t' !! j = t !! j.
Proof.
  intros H Hj. specialize (H j).
  destruct (t !! j), (t' !! j); try done. by destruct H as [->|[? _]].
Qed.

Lemma raised_lookup k ids t t' j r :
  raised k ids t t' → t !! j = Some r →
  ∃ r', t' !! j = Some r' ∧ (r' = r ∨ r' = set_flag k r).
Proof.
  intros H Hr. specialize (H j). rewrite Hr in H.
  destruct (t' !! j) as [r'|]; [|done]. exists r'. split; [done|].
  destruct H as [?|[_ ?]]; auto.
Qed.

Lemma raised_processOne env k (x : Row) acc w :
  raised k [x.1] (interviews w) (interviews (ReminderManager.processOne env k x acc w).2).
Proof.
  destruct acc as [total errs]. rewrite processOne_unfold.
  pose proof (reads_only_sendReminderMessage env x k w) as Hsame.
  destruct (ReminderManager.success _); simpl; [|rewrite Hsame; apply raised_refl].
  pose proof (markReminderSent_world env x.1 k
                (ReminderManager.sendReminderMessage env x k w).2) as Hw.
  simpl in Hw.
  destruct (store_fault env _ _); [rewrite Hw; simpl; rewrite Hsame; apply raised_refl|].
  rewrite Hsame in Hw.
  destruct (interviews w !! x.1) as [r|] eqn:Hr; rewrite Hw; simpl;
    [|rewrite Hsame; apply raised_refl].
  intros j. destruct (decide (x.1 = j)) as [<-|Hne].
  - rewrite Hr, lookup_insert_eq. right. split; [by left | done].
  - rewrite lookup_insert_ne by done. destruct (interviews w !! j); [by left | done].
Qed.

Lemma processAll_cons_world env k x l acc w :
  (ReminderManager.processAll env k (x :: l) acc w).2
  = (ReminderManager.processAll env k l (0%nat, [])
       (ReminderManager.processOne env k x (0%nat, []) w).2).2.
Proof.
  cbn [ReminderManager.processAll]. unfold bind.
  rewrite (processOne_world env k x (0%nat, []) acc w).
  destruct (ReminderManager.processOne env k x acc w) as [a w1]. simpl.
  apply processAll_world.
Qed.

Lemma processAll_app_world env k l1 l2 acc w :
  (ReminderManager.processAll env k (l1 ++ l2) acc w).2
  = (ReminderManager.processAll env k l2 (0%nat, [])
       (ReminderManager.processAll env k l1 (0%nat, []) w).2).2.
Proof.
  revert acc w. induction l1 as [|x l1 IH]; intros acc w.
  - simpl. apply processAll_world.
  - rewrite <- app_comm_cons, !processAll_cons_world. apply IH.
Qed.

Lemma raised_processAll env k l acc w :
  raised k l.*1 (interviews w) (interviews (ReminderManager.processAll env k l acc w).2).
Proof.
  revert acc w. induction l as [|x l IH]; intros acc w; [apply raised_refl|].
  rewrite processAll_cons_world.
  change ((x :: l).*1) with ([x.1] ++ l.*1).
  eapply raised_trans; [apply raised_processOne | apply IH].
Qed.

Lemma NoDup_fst_candidates today w (P : Row → Prop) `{∀ x, Decision (P x)} :
  NoDup (filter P (Db.candidates today w)).*1.
Proof.
  eapply sublist_NoDup; [apply (NoDup_fst_map_to_list (interviews w))|].
  apply fmap_sublist. etrans; [apply sublist_filter|]. apply sublist_filter.
Qed.

(** In a cycle that fetched its candidates, the flag of an interview after
    the cycle is set iff the send of its turn delivered something and the
    store accepted the flag write that followed. *)
Lemma cycle_flag env now w0 l24 l3 k pre (x : Row) post :
  (InterviewManager.getInterviewsNeedingReminders env now w0).1 = Success (l24, l3) →
  list_of k (l24, l3) = pre ++ x :: post →
  let w_x :=
    (ReminderManager.processAll env k pre (0%nat, [])
       (match k with
        | R24h => (InterviewManager.getInterviewsNeedingReminders env now w0).2
        | R3h =>
            (ReminderManager.processAll env R24h l24 (0%nat, [])
               (InterviewManager.getInterviewsNeedingReminders env now w0).2).2
        end)).2 in
  ∃ r0 r',
    interviews w_x !! x.1 = Some r0
    ∧ flag k r0 = false
    ∧ interviews (ReminderManager.processReminders env now w0).2 !! x.1 = Some r'
    ∧ (flag k r' = true
       ↔ (0 < ReminderManager.sentCount
                (ReminderManager.sendReminderMessage env x k w_x).1)%nat
         ∧ store_fault env (events (ReminderManager.sendReminderMessage env x k w_x).2)
             (Update x.1 None (InterviewManager.updateData k)) = None).
Proof.
  intros Hfetch Hsplit. cbv zeta.
  rewrite processReminders_unfold, Hfetch. cbv zeta. cbn [fst snd].
  rewrite (processAll_world env R3h l3 _ (0%nat, [])).
  revert Hfetch Hsplit. rewrite getInterviewsNeedingReminders_unfold. cbv zeta.
  destruct (store_fault env (events w0) _) as [e|]; cbn [fst snd]; [discriminate|].
  intros [= <- <-]. intros Hsplit.
  set (cands := Db.candidates (Moment.local_day now) w0) in *.
  set (wf := record _ w0).
  set (l24 := filter (λ x : Row, InterviewManager.needs24h now x.2) cands) in *.
  set (l3 := filter (λ x : Row, InterviewManager.needs3h now x.2) cands) in *.
  set (w24 := (ReminderManager.processAll env R24h l24 (0%nat, []) wf).2).
  assert (Hx : x ∈ list_of k (l24, l3)) by (rewrite Hsplit; apply elem_of_app; right; by left).
  assert (Hrow : interviews wf !! x.1 = Some x.2 ∧ needs k now x.2 = true).
  { destruct k; simpl in Hx; apply list_elem_of_filter in Hx as [Hn Hc];
      apply candidates_elem in Hc as [Hc _]; split; try done; by apply Is_true_true. }
  destruct Hrow as [Hrow Hneeds]. apply needs_flag in Hneeds.
  assert (Hnodup : NoDup (pre.*1 ++ x.1 :: post.*1)).
  { assert (Heq : (pre ++ x :: post).*1 = pre.*1 ++ x.1 :: post.*1)
      by by rewrite fmap_app.
    rewrite <- Heq, <- Hsplit. destruct k; apply NoDup_fst_candidates. }
  apply NoDup_app in Hnodup as (_ & Hpre & Hpost).
  apply NoDup_cons in Hpost as [Hpost _].
  assert (Hpre' : x.1 ∉ pre.*1) by (intros Hin; apply (Hpre _ Hin); by left).
  clear Hpre.
  (* the row when the loop of kind [k] starts *)
  set (w_start := match k with R24h => wf | R3h => w24 end).
  assert (Hstart : ∃ r0, interviews w_start !! x.1 = Some r0 ∧ flag k r0 = false).
  { destruct k; [by exists x.2|].
    destruct (raised_lookup _ _ _ _ _ _ (raised_processAll env R24h l24 (0%nat, []) wf) Hrow)
      as (r0 & Hr0 & Hor).
    exists r0. split; [done|]. by destruct Hor as [->| ->]. }
  destruct Hstart as (r0 & Hr0 & Hf0).
  set (w_x := (ReminderManager.processAll env k pre (0%nat, []) w_start).2).
  assert (Hr_x : interviews w_x !! x.1 = Some r0).
  { unfold w_x.
    by rewrite (raised_outside _ _ _ _ _ (raised_processAll env k pre (0%nat, []) w_start)). }
  destruct (processOne_flag env k x 0 [] w_x r0 Hr_x Hf0) as (r1 & Hr1 & Hiff & _).
  set (w_x1 := (ReminderManager.processOne env k x (0%nat, []) w_x).2) in *.
  assert (Hend : interviews (ReminderManager.processAll env k (pre ++ x :: post)
                               (0%nat, []) w_start).2 !! x.1 = Some r1).
  { rewrite processAll_app_world, processAll_cons_world. fold w_x. fold w_x1.
    by rewrite (raised_outside _ _ _ _ _ (raised_processAll env k post (0%nat, []) w_x1)). }
  rewrite <- Hsplit in Hend.
  exists r0.
  destruct k; simpl in Hend, Hsplit.
  - fold w24 in Hend.
    destruct (raised_lookup _ _ _ _ _ _ (raised_processAll env R3h l3 (0%nat, []) w24) Hend)
      as (r' & Hr' & Hor).
    exists r'. split; [done|]. split; [done|]. split; [done|].
    destruct Hor as [->| ->]; done.
  - exists r1. done.
Qed.

(** C2, amended.  For an interview processed for one reminder kind, its
    flag not yet set: afterwards the persisted flag is true iff at least one
    delivery succeeded (sent count > 0) and the store accepted the flag
    write that follows the send.  When no delivery succeeds the flag stays
    false and the table is left as it was, so the next fetch and
    classification see the interview as before, whatever the store does.
    The sent count and the errors of the send account for every resolved
    recipient; in particular with 3 recipients of which 1 succeeds, the send
    reports exactly 2 errors and a sent count of 1, and the cycle's
    accumulators grow by 1 delivery and those 2 errors.  In a whole cycle
    that fetched its candidates, every interview of the two lists is in the
    table with its flag unset when its turn comes, and after the cycle its
    flag of that kind is true iff the send of its turn had a sent count
    above 0 and its flag write was accepted. *)
Theorem flag_persisted_iff_delivered env k (x : Row) total errs w r0 :
  interviews w !! x.1 = Some r0 →
  flag k r0 = false →
  let ids := (ReminderManager.getReminderRecipientIds env w).1 in
  let res := (ReminderManager.sendReminderMessage env x k w).1 in
  let acc' := (ReminderManager.processOne env k x (total, errs) w).1 in
  let w' := (ReminderManager.processOne env k x (total, errs) w).2 in
  (∃ r',
     interviews w' !! x.1 = Some r'
     ∧ (flag k r' = true
        ↔ (0 < ReminderManager.sentCount res)%nat
          ∧ store_fault env (events (ReminderManager.sendReminderMessage env x k w).2)
              (Update x.1 None (InterviewManager.updateData k)) = None)
     ∧ (ReminderManager.sentCount res = 0%nat →
        flag k r' = false
        ∧ interviews w' = interviews w
        ∧ ∀ now, Db.candidates (Moment.local_day now) w'
                 = Db.candidates (Moment.local_day now) w)
     ∧ (ReminderManager.sentCount res + length (default [] (ReminderManager.errors res))
        = length ids.1 + length ids.2)%nat
     ∧ ((length ids.1 + length ids.2 = 3)%nat →
        ReminderManager.sentCount res = 1%nat →
        length (default [] (ReminderManager.errors res)) = 2%nat
        ∧ acc' = ((total + 1)%nat, errs ++ default [] (ReminderManager.errors res))))
  ∧ (∀ now w0 l24 l3 k0 pre (y : Row) post,
       (InterviewManager.getInterviewsNeedingReminders env now w0).1 = Success (l24, l3) →
       list_of k0 (l24, l3) = pre ++ y :: post →
       let w_y :=
         (ReminderManager.processAll env k0 pre (0%nat, [])
            (match k0 with
             | R24h => (InterviewManager.getInterviewsNeedingReminders env now w0).2
             | R3h =>
                 (ReminderManager.processAll env R24h l24 (0%nat, [])
                    (InterviewManager.getInterviewsNeedingReminders env now w0).2).2
             end)).2 in
       ∃ r1 r',
         interviews w_y !! y.1 = Some r1
         ∧ flag k0 r1 = false
         ∧ interviews (ReminderManager.processReminders env now w0).2 !! y.1 = Some r'
         ∧ (flag k0 r' = true
            ↔ (0 < ReminderManager.sentCount
                     (ReminderManager.sendReminderMessage env y k0 w_y).1)%nat
              ∧ store_fault env
                  (events (ReminderManager.sendReminderMessage env y k0 w_y).2)
                  (Update y.1 None (InterviewManager.updateData k0)) = None)).
Proof.
  intros Hrow Hflag. cbv zeta. split.
  - exact (processOne_flag env k x total errs w r0 Hrow Hflag).
  - intros now w0 l24 l3 k0 pre y post Hfetch Hsplit.
    exact (cycle_flag env now w0 l24 l3 k0 pre y post Hfetch Hsplit).
Qed.

(** ** The operations of the public interface and the flags *)

Lemma flags_unchanged_monotone t t' : flags_unchanged t t' → flags_monotone t t'.
Proof. intros H id r r' Hr Hr'. destruct (H id r r' Hr Hr') as [-> ->]. auto. Qed.

Lemma flags_unchanged_refl t : flags_unchanged t t.
Proof. intros id r r' Hr Hr'. rewrite Hr in Hr'. by injection Hr' as <-. Qed.

Lemma table_le_monotone t t' : table_le t t' → flags_monotone t t'.
Proof.
  intros H id r r' Hr Hr'. destruct (table_le_lookup _ _ _ _ H Hr) as (r2 & Hr2 & _ & A & B).
  rewrite Hr' in Hr2. injection Hr2 as <-. auto.
Qed.

Lemma flag_safe_updateData id owner k err :
  flag_safe (Store (Update id owner (InterviewManager.updateData k)) err).
Proof.
  intros c v Hin _. destruct k; simpl in Hin;
    apply list_elem_of_singleton in Hin; by injection Hin as -> ->.
Qed.

Lemma flag_safe_read q err : is_read q = true → flag_safe (Store q err).
Proof. by destruct q. Qed.

(** The reminder cycle, the list broadcast, the trigger and the flag write
    only let flags rise, and their update requests are flag safe. *)
Lemma evolves_core env now op w :
  match op with
  | ReminderCycle | MarkReminderSent _ _ | ListBroadcast | TriggerRequest _ => True
  | _ => False
  end →
  evolves flag_safe w (run env now op w).
Proof.
  destruct op; try done; intros _; simpl.
  - apply keeps_processReminders; intros; try done;
      [by apply flag_safe_read | apply flag_safe_updateData].
  - apply keeps_markReminderSent. intros. apply flag_safe_updateData.
  - apply keeps_sendInterviewListToEveryone; intros; try done. by apply flag_safe_read.
  - apply keeps_triggerReminders; intros; try done;
      [by apply flag_safe_read | apply flag_safe_updateData].
Qed.

(** A text value never lands in a flag column. *)
Lemma assign_text_flags c s f r :
  assign c (VStr s) = Some f →
  reminder_24h_sent (f r) = reminder_24h_sent r
  ∧ reminder_3h_sent (f r) = reminder_3h_sent r.
Proof.
  unfold assign.
  repeat (destruct (String.eqb c _); [by intros [= <-]|]). discriminate.
Qed.

Lemma patch_text_flags c s f r :
  patch_fun [(c, VStr s)] = Some f →
  reminder_24h_sent (f r) = reminder_24h_sent r
  ∧ reminder_3h_sent (f r) = reminder_3h_sent r.
Proof.
  cbn [patch_fun]. destruct (assign c (VStr s)) as [g|] eqn:Hg; [|done].
  intros [= <-]. by apply (assign_text_flags _ _ _ r Hg).
Qed.

(** The key that the update command makes from a field name is no flag
    column. *)
Lemma dbField_of_not_flag field c :
  Commands.dbField_of field = Some c → ¬ flag_column c.
Proof.
  unfold Commands.dbField_of, Commands.fieldMap, Commands.own_property.
  repeat (destruct (String.eqb _ field);
          [intros [= <-] [|]; discriminate|]).
  unfold Commands.inherited_key.
  destruct (String.eqb field "__proto__"); [intros [= <-] [|]; discriminate|].
  destruct (String.eqb field "constructor"); [intros [= <-] [|]; discriminate|].
  destruct (bool_decide _); [|discriminate].
  intros [= <-] [|]; discriminate.
Qed.

(** What an update request does to the world. *)
Lemma update_rows_world env id owner p w :
  ∃ err,
    events (Db.update_rows env id owner p w).2 = Store (Update id owner p) err :: events w
    ∧ (interviews (Db.update_rows env id owner p w).2 = interviews w
       ∨ ∃ f r, patch_fun p = Some f ∧ interviews w !! id = Some r
                ∧ Db.owned_by owner r = true
                ∧ interviews (Db.update_rows env id owner p w).2
                  = <[id := f r]> (interviews w)).
Proof.
  unfold Db.update_rows.
  destruct (store_fault env (events w) _); [eexists; split; [done | by left]|].
  destruct (patch_fun p) as [f|]; [|eexists; split; [done | by left]].
  destruct (interviews w !! id) as [r|] eqn:Hr; [|eexists; split; [done | by left]].
  destruct (Db.owned_by owner r) eqn:Ho; [|eexists; split; [done | by left]].
  eexists; split; [done|]. right. by exists f, r.
Qed.

Lemma flags_unchanged_insert t id r r' :
  t !! id = Some r →
  reminder_24h_sent r' = reminder_24h_sent r ∧ reminder_3h_sent r' = reminder_3h_sent r →
  flags_unchanged t (<[id := r']> t).
Proof.
  intros Hr Hf j a b Ha Hb. destruct (decide (id = j)) as [<-|Hne].
  - rewrite lookup_insert_eq in Hb. injection Hb as <-. rewrite Hr in Ha.
    by injection Ha as <-.
  - rewrite lookup_insert_ne in Hb by done. rewrite Ha in Hb. by injection Hb as <-.
Qed.

(** The update command: it cannot reach the flag columns. *)
Lemma handleUpdateCommand_world env parsed userId w :
  ∃ new,
    events (Commands.handleUpdateCommand env parsed userId w).2 = new ++ events w
    ∧ Forall no_flag_column new
    ∧ flags_unchanged (interviews w)
        (interviews (Commands.handleUpdateCommand env parsed userId w).2).
Proof.
  assert (Hreply : ∀ text, ∃ new,
            events (Client.replyMessage text w).2 = new ++ events w
            ∧ Forall no_flag_column new
            ∧ flags_unchanged (interviews w) (interviews (Client.replyMessage text w).2)).
  { intros text. exists [Reply text]. split; [done|]. split; [by repeat constructor|].
    apply flags_unchanged_refl. }
  unfold Commands.handleUpdateCommand.
  destruct parsed as [[[id field] value]|]; [|apply Hreply].
  destruct (Commands.dbField_of field) as [dbField|] eqn:Hfield; [|apply Hreply].
  apply dbField_of_not_flag in Hfield.
  set (valueToStore := if String.eqb dbField "interview_time" then _ else _).
  destruct (_ && _); [apply Hreply|].
  destruct (_ && _); [apply Hreply|].
  unfold InterviewManager.updateInterview, bind, ret.
  destruct (update_rows_world env id (Some userId) [(dbField, VStr valueToStore)] w)
    as (err & Hev & Htab).
  destruct (Db.update_rows env id (Some userId) _ w) as [res w1]. simpl in *.
  assert (Hsafe : no_flag_column (Store (Update id (Some userId)
                                    [(dbField, VStr valueToStore)]) err)).
  { intros c v Hin. apply list_elem_of_singleton in Hin. by injection Hin as -> ->. }
  assert (Hflags : flags_unchanged (interviews w) (interviews w1)).
  { destruct Htab as [->|(f & r & Hf & Hr & _ & ->)]; [apply flags_unchanged_refl|].
    apply flags_unchanged_insert with (r := r); [done|].
    exact (patch_text_flags dbField valueToStore f r Hf). }
  assert (Hdone : ∀ text, ∃ new,
            events (Client.replyMessage text w1).2 = new ++ events w
            ∧ Forall no_flag_column new
            ∧ flags_unchanged (interviews w) (interviews (Client.replyMessage text w1).2)).
  { intros text. exists [Reply text; Store (Update id (Some userId)
                                      [(dbField, VStr valueToStore)]) err].
    simpl. rewrite Hev. split; [done|]. split; [|done].
    constructor; [done|]. by constructor. }
  destruct res; simpl; apply Hdone.
Qed.

(** The delete command: rows go, flags do not change. *)
Lemma handleDeleteCommand_world env parsed userId w :
  ∃ new,
    events (Commands.handleDeleteCommand env parsed userId w).2 = new ++ events w
    ∧ Forall no_flag_column new
    ∧ flags_unchanged (interviews w)
        (interviews (Commands.handleDeleteCommand env parsed userId w).2).
Proof.
  unfold Commands.handleDeleteCommand.
  destruct parsed as [id|].
  2:{ exists [Reply Commands.bad_delete_format]. split; [done|].
      split; [by repeat constructor | apply flags_unchanged_refl]. }
  unfold InterviewManager.deleteInterview, bind, Db.delete_rows.
  assert (Hdel : flags_unchanged (interviews w) (delete id (interviews w))).
  { intros j a b Ha Hb. apply lookup_delete_Some in Hb as [_ Hb].
    rewrite Ha in Hb. by injection Hb as <-. }
  destruct (store_fault env (events w) _); simpl.
  { eexists [_; _]. split; [done|]. split; [by repeat constructor|].
    apply flags_unchanged_refl. }
  destruct (interviews w !! id) as [r|]; simpl.
  - destruct (String.eqb (user_id r) userId); simpl.
    + eexists [_; _]. split; [done|]. split; [by repeat constructor | done].
    + eexists [_; _]. split; [done|]. split; [by repeat constructor|].
      apply flags_unchanged_refl.
  - eexists [_; _]. split; [done|]. split; [by repeat constructor|].
    apply flags_unchanged_refl.
Qed.

Lemma no_flag_column_safe e : no_flag_column e → flag_safe e.
Proof.
  destruct e as [[]| |]; try done. simpl. intros H c v Hin Hc. by destruct (H c v Hin).
Qed.

Lemma addInterview_unfold env now userId intervieweeName interviewerName date time reason w :
  let row := mkInterview userId intervieweeName (Some interviewerName) date time
               (Some reason) false false in
  InterviewManager.addInterview env now userId intervieweeName interviewerName
    date time reason w
  = match store_fault env (events w) (Insert row) with
    | Some e => (Failure e, record (Store (Insert row) (Some e)) w)
    | None =>
        match interviews w !! next_id w with
        | Some _ =>
            (Failure Db.duplicate_key, record (Store (Insert row) (Some Db.duplicate_key)) w)
        | None =>
            creation_guard env now (next_id w, row)
              (record (Store (Insert row) None)
                 (with_interviews (<[next_id w := row]> (interviews w)) (next_id w + 1) w))
        end
    end.
Proof.
  cbv zeta. unfold InterviewManager.addInterview. unfold bind at 1. unfold Db.insert_row.
  destruct (store_fault env (events w) _); [done|].
  by destruct (interviews w !! next_id w).
Qed.

Lemma keeps_creation_guard env now interview :
  keeps flag_safe (creation_guard env now interview).
Proof.
  unfold creation_guard.
  apply keeps_bind.
  { apply keeps_when, keeps_ignore, keeps_markReminderSent.
    intros. apply flag_safe_updateData. }
  intros _. apply keeps_bind; [|intros; apply keeps_ret].
  apply keeps_when, keeps_ignore, keeps_markReminderSent.
  intros. apply flag_safe_updateData.
Qed.

(** Creation: a fresh row, then the guard's flag writes. *)
Lemma addInterview_world env now userId intervieweeName interviewerName date time reason w :
  let w' := (InterviewManager.addInterview env now userId intervieweeName
               interviewerName date time reason w).2 in
  flags_monotone (interviews w) (interviews w')
  ∧ ∃ new, events w' = new ++ events w ∧ Forall flag_safe new.
Proof.
  cbv zeta. rewrite addInterview_unfold. cbv zeta.
  destruct (store_fault env (events w) _).
  { simpl. split; [apply flags_unchanged_monotone, flags_unchanged_refl|].
    eexists [_]. split; [done|]. by repeat constructor. }
  destruct (interviews w !! next_id w) eqn:Hfree.
  { simpl. split; [apply flags_unchanged_monotone, flags_unchanged_refl|].
    eexists [_]. split; [done|]. by repeat constructor. }
  set (row := mkInterview _ _ _ _ _ _ _ _).
  set (w1 := record _ _).
  destruct (keeps_creation_guard env now (next_id w, row) w1)
    as (Hle & _ & _ & _ & new & Hev & Hnew).
  split.
  - intros id r r' Hr Hr'.
    assert (Hne : next_id w ≠ id) by (intros <-; congruence).
    assert (Hr1 : interviews w1 !! id = Some r).
    { unfold w1. simpl. by rewrite lookup_insert_ne. }
    by apply (table_le_monotone _ _ Hle id r r').
  - exists (new ++ [Store (Insert row) None]). split.
    + rewrite Hev. unfold w1. simpl. by rewrite <- app_assoc.
    + apply Forall_app. split; [done|]. by repeat constructor.
Qed.

(** ** The late-creation guard *)

(** The test of the guard on the instant of the interview. *)
Lemma lt_hours now r (n : Z) :
  Moment.lt (InterviewManager.diffHours now r) (n # 1) = true
  ↔ ∃ t, Moment.tz (interview_date r) (interview_time r) = Some t
         ∧ t - now < n * Moment.ms_per_hour.
Proof.
  unfold InterviewManager.diffHours, Moment.lt.
  destruct (Moment.tz _ _) as [t|].
  - unfold Moment.Qlt_bool, Moment.diff_hours, Moment.ms_per_hour. cbn [Qnum Qden].
    rewrite Z.ltb_lt. change (QDen (n # 1)) with 1. change (Z.pos 3600000) with 3600000.
    split.
    + intros H. exists t. split; [done | lia].
    + intros (t' & [= <-] & H). lia.
  - split; [done | by intros (t & [=] & _)].
Qed.

(** The guard runs its two steps one after the other. *)
Lemma creation_guard_run env now (interview : Row) w :
  creation_guard env now interview w
  = (Success interview,
     (when_ (Moment.lt (InterviewManager.diffHours now interview.2) 1)
        (ignore (InterviewManager.markReminderSent env interview.1 R3h))
        (when_ (Moment.lt (InterviewManager.diffHours now interview.2) 3)
           (ignore (InterviewManager.markReminderSent env interview.1 R24h)) w).2).2).
Proof.
  unfold creation_guard, bind.
  destruct (when_ (Moment.lt _ 3) _ w) as [[] w2]. cbn [snd].
  by destruct (when_ (Moment.lt _ 1) _ w2) as [[] w3].
Qed.

(** One step of the guard: when its test holds, the write is sent, and the
    row gets the flag iff the store accepts the write. *)
Lemma guarded_mark_exact env (b : bool) id k w r :
  interviews w !! id = Some r →
  events (when_ b (ignore (InterviewManager.markReminderSent env id k)) w).2
  = (if b
     then Store (Update id None (InterviewManager.updateData k))
            (store_fault env (events w) (Update id None (InterviewManager.updateData k)))
          :: events w
     else events w)
  ∧ interviews (when_ b (ignore (InterviewManager.markReminderSent env id k)) w).2 !! id
    = Some (if b && bool_decide (store_fault env (events w)
                                   (Update id None (InterviewManager.updateData k)) = None)
            then set_flag k r else r).
Proof.
  intros Hr. destruct b; cbn [when_ andb]; [|done].
  unfold ignore, bind, ret.
  pose proof (markReminderSent_world env id k w) as H. cbv zeta in H.
  destruct (store_fault env (events w) _) as [e|]; [by rewrite H|].
  rewrite Hr in H. rewrite H. cbn. split; [done|]. rewrite lookup_insert_eq. by destruct k.
Qed.

(** C3, amended.  A creation that succeeds stores the row under the next
    key.  Let [t] be the instant of its date and time in the zone and [now]
    the clock the guard reads, so that the hours until the start are
    [(t - now) / 3600000].  After the creation the 24h flag of the row is
    true iff the hours are below 3 and the store accepted the flag write,
    and the 3h flag is true iff the hours are below 1 and the store accepted
    that write; a date and time that make no valid moment set no flag.  So
    from 1 hour up the 3h flag is left false whatever the store does; an
    interview created 2 hours out ends with the 24h flag true and the 3h
    flag false, and one created 30 minutes out with both true, when the
    store accepts the writes. *)
Theorem late_creation_guard env now userId intervieweeName interviewerName
    date time reason w (interview : Row) w' :
  InterviewManager.addInterview env now userId intervieweeName interviewerName
    date time reason w = (Success interview, w') →
  let row := mkInterview userId intervieweeName (Some interviewerName) date time
               (Some reason) false false in
  let id := next_id w in
  let inserted := Store (Insert row) None :: events w in
  let write24 := store_fault env inserted (Update id None (InterviewManager.updateData R24h)) in
  let write3 :=
    store_fault env
      (Store (Update id None (InterviewManager.updateData R24h)) write24 :: inserted)
      (Update id None (InterviewManager.updateData R3h)) in
  interview = (id, row)
  ∧ ∃ r',
      interviews w' !! id = Some r'
      ∧ (reminder_24h_sent r' = true
         ↔ ∃ t, Moment.tz date time = Some t ∧ t - now < 3 * Moment.ms_per_hour
                ∧ write24 = None)
      ∧ (reminder_3h_sent r' = true
         ↔ ∃ t, Moment.tz date time = Some t ∧ t - now < 1 * Moment.ms_per_hour
                ∧ write3 = None)
      ∧ (∀ t, Moment.tz date time = Some t → 1 * Moment.ms_per_hour ≤ t - now →
              reminder_3h_sent r' = false)
      ∧ (∀ t, Moment.tz date time = Some t → t - now = 2 * Moment.ms_per_hour →
              write24 = None →
              reminder_24h_sent r' = true ∧ reminder_3h_sent r' = false)
      ∧ (∀ t, Moment.tz date time = Some t → t - now = 1800000 →
              write24 = None → write3 = None →
              reminder_24h_sent r' = true ∧ reminder_3h_sent r' = true).
Proof.
  intros Hadd. cbv zeta.
  rewrite addInterview_unfold in Hadd. cbv zeta in Hadd.
  set (row := mkInterview userId intervieweeName (Some interviewerName) date time
                (Some reason) false false) in *.
  destruct (store_fault env (events w) (Insert row)) as [e|]; [discriminate|].
  destruct (interviews w !! next_id w) eqn:Hfree; [discriminate|].
  rewrite creation_guard_run in Hadd. injection Hadd as <- <-.
  split; [done|]. cbn [fst snd].
  set (w1 := record (Store (Insert row) None) _).
  set (q24 := Update (next_id w) None (InterviewManager.updateData R24h)).
  set (q3 := Update (next_id w) None (InterviewManager.updateData R3h)).
  assert (Hrow1 : interviews w1 !! next_id w = Some row) by apply lookup_insert_eq.
  pose proof (lt_hours now row 3) as Hlt3.
  pose proof (lt_hours now row 1) as Hlt1.
  change (interview_date row) with date in Hlt3, Hlt1.
  change (interview_time row) with time in Hlt3, Hlt1.
  destruct (guarded_mark_exact env (Moment.lt (InterviewManager.diffHours now row) 3)
              (next_id w) R24h w1 row Hrow1) as [Hev2 Hrow2].
  set (w2 := (when_ (Moment.lt (InterviewManager.diffHours now row) 3) _ w1).2) in *.
  destruct (guarded_mark_exact env (Moment.lt (InterviewManager.diffHours now row) 1)
              (next_id w) R3h w2 _ Hrow2) as [_ Hrow3].
  change (events w1) with (Store (Insert row) None :: events w) in *.
  fold q24 q3 in Hev2, Hrow2, Hrow3 |- *.
  set (write24 := store_fault env (Store (Insert row) None :: events w) q24) in *.
  set (write3 := store_fault env (Store q24 write24 :: Store (Insert row) None :: events w) q3).
  set (b3 := Moment.lt (InterviewManager.diffHours now row) 3) in *.
  set (b1 := Moment.lt (InterviewManager.diffHours now row) 1) in *.
  assert (Hb : b1 = true → b3 = true).
  { intros H. apply Hlt1 in H as (t & Ht & H). apply Hlt3. exists t.
    unfold Moment.ms_per_hour in *. split; [done | lia]. }
  assert (H24 : ∀ r, reminder_24h_sent
                       (if b1 && bool_decide (store_fault env (events w2) q3 = None)
                        then set_flag R3h r else r) = reminder_24h_sent r)
    by (intros r; by destruct (b1 && _)).
  assert (H3 : ∀ r, reminder_3h_sent r = false →
                    reminder_3h_sent
                       (if b1 && bool_decide (store_fault env (events w2) q3 = None)
                        then set_flag R3h r else r)
                    = b1 && bool_decide (store_fault env (events w2) q3 = None))
    by (intros r Hr; by destruct (b1 && _)).
  assert (Hflag24 : reminder_24h_sent
                      (if b3 && bool_decide (write24 = None) then set_flag R24h row else row)
                    = b3 && bool_decide (write24 = None))
    by (by destruct (b3 && _)).
  assert (Hflag3 : reminder_3h_sent
                     (if b3 && bool_decide (write24 = None) then set_flag R24h row else row)
                   = false)
    by (by destruct (b3 && _)).
  assert (Hiff24 : b3 && bool_decide (write24 = None) = true
                   ↔ ∃ t, Moment.tz date time = Some t ∧ t - now < 3 * Moment.ms_per_hour
                          ∧ write24 = None).
  { rewrite andb_true_iff, bool_decide_eq_true, Hlt3. split.
    - intros [(t & Ht & H) Hw]. by exists t.
    - intros (t & Ht & H & Hw). split; [by exists t | done]. }
  assert (Hiff3 : b1 && bool_decide (store_fault env (events w2) q3 = None) = true
                  ↔ ∃ t, Moment.tz date time = Some t ∧ t - now < 1 * Moment.ms_per_hour
                         ∧ write3 = None).
  { rewrite andb_true_iff, bool_decide_eq_true, Hlt1. split.
    - intros [(t & Ht & H) Hw]. exists t. split; [done|]. split; [done|].
      assert (Hb3 : b3 = true) by (apply Hb, Hlt1; by exists t).
      rewrite Hb3 in Hev2. by rewrite Hev2 in Hw.
    - intros (t & Ht & H & Hw). split; [by exists t|].
      assert (Hb3 : b3 = true) by (apply Hb, Hlt1; by exists t).
      rewrite Hb3 in Hev2. by rewrite Hev2. }
  eexists. split; [exact Hrow3|].
  rewrite H24, Hflag24, (H3 _ Hflag3).
  split; [exact Hiff24|]. split; [exact Hiff3|].
  split; [|split].
  - intros t Ht Hge. apply not_true_is_false. intros E.
    apply Hiff3 in E as (t' & Ht' & Hlt & _). rewrite Ht in Ht'. injection Ht' as <-. lia.
  - intros t Ht Htwo Hw. split.
    + apply Hiff24. exists t. unfold Moment.ms_per_hour in *. split; [done|]. split; [lia | done].
    + apply not_true_is_false. intros E.
      apply Hiff3 in E as (t' & Ht' & Hlt & _). rewrite Ht in Ht'. injection Ht' as <-.
      unfold Moment.ms_per_hour in *. lia.
  - intros t Ht Hhalf Hw24 Hw3. split.
    + apply Hiff24. exists t. unfold Moment.ms_per_hour. split; [done|]. split; [lia | done].
    + apply Hiff3. exists t. unfold Moment.ms_per_hour. split; [done|]. split; [lia | done].
Qed.

(** C5.  The reminder flags are monotonic under every operation of the
    public interface (create, update command, delete command, reminder
    cycle, flag marking, list broadcast, trigger): a flag that is true on a
    row before the operation is true on that row after it; every update
    request the operation sends writes [true] wherever it writes a flag
    column; and the update command sends no request that names a flag
    column and leaves both flags of every row as they were. *)
Theorem flags_monotonic env now op w :
  flags_monotone (interviews w) (interviews (run env now op w))
  ∧ (∃ new, events (run env now op w) = new ++ events w ∧ Forall flag_safe new)
  ∧ (∀ parsed userId, op = UpdateCommand parsed userId →
       flags_unchanged (interviews w) (interviews (run env now op w))
       ∧ ∃ new, events (run env now op w) = new ++ events w
                ∧ Forall no_flag_column new).
Proof.
  assert (Hcore : ∀ op', match op' with
                         | ReminderCycle | MarkReminderSent _ _ | ListBroadcast
                         | TriggerRequest _ => True
                         | _ => False
                         end →
            flags_monotone (interviews w) (interviews (run env now op' w))
            ∧ ∃ new, events (run env now op' w) = new ++ events w ∧ Forall flag_safe new).
  { intros op' Hop. destruct (evolves_core env now op' w Hop) as (Hle & _ & _ & _ & Hev).
    split; [by apply table_le_monotone | done]. }
  destruct op as [u n i d t r|parsed userId|parsed userId| |id k| |req].
  - destruct (addInterview_world env now u n i d t r w) as [Hm Hev].
    split; [done|]. split; [done|]. discriminate.
  - destruct (handleUpdateCommand_world env parsed userId w) as (new & Hev & Hnew & Hf).
    split; [by apply flags_unchanged_monotone|]. split.
    + exists new. split; [done|]. eapply Forall_impl; [done | apply no_flag_column_safe].
    + intros ? ? _. split; [done|]. by exists new.
  - destruct (handleDeleteCommand_world env parsed userId w) as (new & Hev & Hnew & Hf).
    split; [by apply flags_unchanged_monotone|]. split; [|discriminate].
    exists new. split; [done|]. eapply Forall_impl; [done | apply no_flag_column_safe].
  - destruct (Hcore ReminderCycle I). split; [done|]. split; [done | discriminate].
  - destruct (Hcore (MarkReminderSent id k) I). split; [done|]. split; [done | discriminate].
  - destruct (Hcore ListBroadcast I). split; [done|]. split; [done | discriminate].
  - destruct (Hcore (TriggerRequest req) I). split; [done|]. split; [done | discriminate].
Qed.

(** ** Recipient resolutions per cycle *)

Lemma resolves_ret {A} (a : A) : resolves 0 (ret a).
Proof. intros w. simpl. lia. Qed.

Lemma resolves_bind {A B} n n' (m : M A) (k : A → M B) :
  resolves n m → (∀ a, resolves n' (k a)) → resolves (n + n') (bind m k).
Proof.
  intros Hm Hk w. unfold bind. specialize (Hm w). destruct (m w) as [a w1].
  simpl in Hm. rewrite Hk, Hm. lia.
Qed.

Lemma resolves_select {A} env q (rows : World → A) :
  resolves (if is_resolution (Store q None) then 1 else 0) (Db.select env q rows).
Proof.
  intros w. destruct (select_world env q rows w) as (err & -> & _).
  unfold resolutions. simpl. destruct q; simpl; lia.
Qed.

Lemma resolves_getReminderRecipientIds env :
  resolves 1 (ReminderManager.getReminderRecipientIds env).
Proof.
  unfold ReminderManager.getReminderRecipientIds.
  apply (resolves_bind 1 0); [apply (resolves_select env SelectLineUsers)|]. intros users.
  apply (resolves_bind 0 0).
  { destruct (_ =? _)%nat; [|apply resolves_ret].
    apply (resolves_bind 0 0); [apply (resolves_select env SelectInterviewOwners)|].
    intros. apply resolves_ret. }
  intros userIds.
  apply (resolves_bind 0 0); [apply (resolves_select env SelectLineGroups)|].
  intros. apply resolves_ret.
Qed.

Lemma resolves_sendEach env Label what valid warn message ids n errs :
  resolves 0 (ReminderManager.sendEach env Label what valid warn message ids n errs).
Proof.
  revert n errs. induction ids as [|id rest IH]; intros n errs; simpl;
    [apply resolves_ret|].
  destruct (valid id); simpl; [|apply IH].
  apply (resolves_bind 0 0).
  - intros w. unfold resolutions. simpl. lia.
  - intros [e|]; apply IH.
Qed.

Lemma resolves_sendReminderMessage env x k :
  resolves 1 (ReminderManager.sendReminderMessage env x k).
Proof.
  unfold ReminderManager.sendReminderMessage.
  apply (resolves_bind 1 0); [apply resolves_getReminderRecipientIds|]. intros [u g].
  apply (resolves_bind 0 0); [apply resolves_sendEach|]. intros [n errs].
  apply (resolves_bind 0 0); [apply resolves_sendEach|]. intros [n' errs'].
  apply resolves_ret.
Qed.

Lemma resolves_markReminderSent env id k :
  resolves 0 (InterviewManager.markReminderSent env id k).
Proof.
  intros w. pose proof (markReminderSent_world env id k w) as H. simpl in H.
  destruct (store_fault env (events w) _); [rewrite H; unfold resolutions; simpl; lia|].
  destruct (interviews w !! id); rewrite H; unfold resolutions; simpl; lia.
Qed.

Lemma resolves_processOne env k x acc :
  resolves 1 (ReminderManager.processOne env k x acc).
Proof.
  unfold ReminderManager.processOne. destruct acc as [total errs].
  apply (resolves_bind 1 0); [apply resolves_sendReminderMessage|]. intros res.
  destruct (ReminderManager.success res); [|apply resolves_ret].
  apply (resolves_bind 0 0); [apply resolves_markReminderSent|]. intros. apply resolves_ret.
Qed.

Lemma resolves_processAll env k l acc :
  resolves (length l) (ReminderManager.processAll env k l acc).
Proof.
  revert acc. induction l as [|x l IH]; intros acc; simpl; [apply resolves_ret|].
  apply (resolves_bind 1 (length l)); [apply resolves_processOne | apply IH].
Qed.

(** C8, amended.  The recipient set is resolved inside
    [sendReminderMessage], once for each classified interview and kind: a
    cycle whose fetch returns the lists [interviews24h] and [interviews3h]
    resolves it [length interviews24h + length interviews3h] times, so not
    at all when nothing is classified. *)
Theorem resolved_once_per_reminder env now w interviews24h interviews3h :
  (InterviewManager.getInterviewsNeedingReminders env now w).1
    = Success (interviews24h, interviews3h) →
  resolutions (events (ReminderManager.processReminders env now w).2)
  = (resolutions (events w) + (length interviews24h + length interviews3h))%nat.
Proof.
  intros Hfetch. rewrite processReminders_unfold, Hfetch. cbv zeta. simpl.
  rewrite resolves_processAll, resolves_processAll.
  pose proof (resolves_select env (SelectCandidates (Moment.local_day now))
                (Db.candidates (Moment.local_day now)) w) as Hsel.
  assert (Hw : resolutions (events (InterviewManager.getInterviewsNeedingReminders env now w).2)
               = resolutions (events w)).
  { unfold InterviewManager.getInterviewsNeedingReminders, bind, ret.
    destruct (Db.select env _ _ w) as [res wf]. simpl in *. lia. }
  lia.
Qed.

(** ** The trigger entry point *)

Lemma trigger_status env now req w :
  Trigger.status (Trigger.triggerReminders env now req w).1 = 200
  ∨ Trigger.status (Trigger.triggerReminders env now req w).1 = 401
  ∨ Trigger.status (Trigger.triggerReminders env now req w).1 = 500.
Proof.
  unfold Trigger.triggerReminders.
  destruct (_ || _); [by right; right|].
  destruct (_ && _); [by right; left|].
  destruct (Trigger.action req) as [action|]; [|by right; right].
  destruct (String.eqb _ _); unfold bind, ret.
  - destruct (Broadcast.sendInterviewListToEveryone env now w) as [[]]; simpl; auto.
  - destruct (ReminderManager.processReminders env now w) as [[]]; simpl; auto.
Qed.

(** C9, amended.  When the store settings are present, a pre-shared key is
    configured and the supplied key is another, the entry point answers 401
    Unauthorized and touches nothing: no store request, no push, no reminder
    processing.  When the store settings are absent it answers the
    configuration failure (500) whatever the key, and touches nothing
    either.  The 401 status is answered in no other case, so it is distinct
    from the configuration failure and from the 200 of a processed cycle,
    which is what a request that passes both checks gets when the cycle
    succeeds, also with nothing to send. *)
Theorem unauthorized_before_any_access env now req w :
  config_present env →
  key_mismatch env req →
  Trigger.triggerReminders env now req w
    = (Trigger.mkResponse 401 Trigger.Unauthorized, w)
  ∧ (∀ env' req' w',
       ¬ config_present env' →
       Trigger.triggerReminders env' now req' w'
       = (Trigger.mkResponse 500 Trigger.ServerConfigError, w'))
  ∧ (∀ env' req' w',
       Trigger.status (Trigger.triggerReminders env' now req' w').1 = 401
       ↔ config_present env' ∧ key_mismatch env' req')
  ∧ (∀ env' req' w' report action,
       config_present env' → ¬ key_mismatch env' req' →
       Trigger.action req' = Some action → action ≠ "interview-list" →
       (ReminderManager.processReminders env' now w').1 = Success report →
       (Trigger.triggerReminders env' now req' w').1
       = Trigger.mkResponse 200
           (Trigger.RemindersProcessed (ReminderManager.totalSent report)
              (ReminderManager.report_errors report))).
Proof.
  intros [Hurl Hkey] [Hcron Hne].
  split; [|split; [|split]].
  - unfold Trigger.triggerReminders. rewrite Hurl, Hkey, Hcron. simpl.
    by rewrite bool_decide_eq_false_2.
  - intros env' req' w' Hcfg. unfold Trigger.triggerReminders, config_present in *.
    destruct (Js.truthy_opt (SUPABASE_URL env')), (Js.truthy_opt (SUPABASE_KEY env'));
      simpl; try done. by destruct Hcfg.
  - intros env' req' w'. unfold config_present, key_mismatch.
    pose proof (trigger_status env' now req' w') as Hst.
    revert Hst. unfold Trigger.triggerReminders.
    destruct (Js.truthy_opt (SUPABASE_URL env')), (Js.truthy_opt (SUPABASE_KEY env'));
      simpl; try (intros _; split; [discriminate | intros [[? ?] _]; discriminate]).
    destruct (Js.truthy_opt (CRON_API_KEY env')); simpl.
    + destruct (bool_decide_reflect
                  (Trigger.apiKey req' = Trigger.of_text (CRON_API_KEY env')))
        as [Heq|Hneq]; simpl.
      * destruct (Trigger.action req') as [action|];
          [|intros _; split; [discriminate | intros [_ [_ ?]]; done]].
        destruct (String.eqb _ _); unfold bind, ret.
        -- destruct (Broadcast.sendInterviewListToEveryone env' now w') as [[]]; simpl;
             (split; [discriminate | intros [_ [_ ?]]; done]).
        -- destruct (ReminderManager.processReminders env' now w') as [[]]; simpl;
             (split; [discriminate | intros [_ [_ ?]]; done]).
      * intros _. split; [done | done].
    + destruct (Trigger.action req') as [action|];
        [|intros _; split; [discriminate | intros [_ [? _]]; discriminate]].
      destruct (String.eqb _ _); unfold bind, ret.
      * destruct (Broadcast.sendInterviewListToEveryone env' now w') as [[]]; simpl;
          (split; [discriminate | intros [_ [? _]]; discriminate]).
      * destruct (ReminderManager.processReminders env' now w') as [[]]; simpl;
          (split; [discriminate | intros [_ [? _]]; discriminate]).
  - intros env' req' w' report action [Hurl' Hkey'] Hok Haction Hother Hrun.
    unfold Trigger.triggerReminders. rewrite Hurl', Hkey', Haction. simpl.
    destruct (Js.truthy_opt (CRON_API_KEY env')) eqn:Hcron'; simpl.
    + destruct (bool_decide_reflect
                  (Trigger.apiKey req' = Trigger.of_text (CRON_API_KEY env')))
        as [Heq|Hneq]; simpl.
      * apply String.eqb_neq in Hother. rewrite Hother. unfold bind, ret.
        destruct (ReminderManager.processReminders env' now w') as [res w2].
        simpl in *. by rewrite Hrun.
      * destruct Hok. by split.
    + apply String.eqb_neq in Hother. rewrite Hother. unfold bind, ret.
      destruct (ReminderManager.processReminders env' now w') as [res w2].
      simpl in *. by rewrite Hrun.
Qed.

(* ===================================================================== *)
(** * The claims on the scenarios                                         *)
(* ===================================================================== *)

Example now0_is : Moment.tz "2026-03-01" "10:00:00" = Some now0.
Proof. reflexivity. Qed.

(** C1 at [world0]: the interview exactly 24 h away is on the 24h list. *)
Lemma evaluator_windows_witness :
  (InterviewManager.getInterviewsNeedingReminders env_ok now0 world0).1
    = Success ([(2, at_24h15); (1, at_24h)], [(3, at_3h)])
  ∧ (1, at_24h) ∈ Db.candidates (Moment.local_day now0) world0
  ∧ ((1, at_24h) ∈ [(2, at_24h15); (1, at_24h)]
     ↔ reminder_24h_sent at_24h = false ∧ in_window now0 (47 # 2) (49 # 2) at_24h).
Proof.
  assert (H1 : (InterviewManager.getInterviewsNeedingReminders env_ok now0 world0).1
               = Success ([(2, at_24h15); (1, at_24h)], [(3, at_3h)]))
    by (vm_compute; reflexivity).
  assert (H2 : (1, at_24h) ∈ Db.candidates (Moment.local_day now0) world0)
    by (apply candidates_elem; split; vm_compute; reflexivity).
  split; [exact H1|]. split; [exact H2|].
  exact (proj1 (evaluator_windows env_ok now0 world0 _ _ (1, at_24h) H1 H2)).
Defined.

(** C2 at [world0] with three recipients of which only [user_a] is
    reached, on a store that accepts the flag write: the flag is marked, one
    delivery and two errors. *)
Lemma flag_persisted_iff_delivered_witness :
  ∃ r',
    interviews (ReminderManager.processOne env_partial R24h (1, at_24h) (0%nat, [])
                  world0).2 !! 1 = Some r'
    ∧ flag R24h r' = true
    ∧ (ReminderManager.processOne env_partial R24h (1, at_24h) (0%nat, []) world0).1
      = (1%nat,
         ["User Ubbbbbbbbbbbbbbbbbbbbbbbbbbbbbbbb: Failed to send messages";
          "Group Ccccccccccccccccccccccccccccccccc: Failed to send messages"]).
Proof.
  destruct (flag_persisted_iff_delivered env_partial R24h (1, at_24h) 0 [] world0 at_24h
              eq_refl eq_refl)
    as ((r' & Hr' & Hiff & _ & _ & Hthree) & _).
  exists r'. split; [exact Hr'|].
  split; [apply Hiff; split; vm_compute; reflexivity|].
  destruct Hthree as (_ & Hacc); [vm_compute; reflexivity | vm_compute; reflexivity|].
  etrans; [exact Hacc|]. vm_compute. reflexivity.
Defined.

(** C2 as stated fails: on a store that refuses the flag write, the
    reminder of interview 1 is delivered to all three recipients and its
    flag stays false. *)
Lemma flag_set_iff_delivered_counterexample : ¬ flag_set_iff_delivered.
Proof.
  intros H.
  destruct (H env_writes_fail R24h (1, at_24h) world0 at_24h eq_refl eq_refl)
    as (r' & Hr' & Hiff).
  assert (Hrow : interviews (ReminderManager.processOne env_writes_fail R24h (1, at_24h)
                               (0%nat, []) world0).2 !! 1 = Some at_24h)
    by (vm_compute; reflexivity).
  cbn [fst] in Hr'. rewrite Hrow in Hr'. injection Hr' as <-.
  assert (Hsent : (0 < ReminderManager.sentCount
                         (ReminderManager.sendReminderMessage env_writes_fail
                            (1%Z, at_24h) R24h world0).1)%nat)
    by (vm_compute; lia).
  apply Hiff in Hsent. discriminate Hsent.
Qed.

(** C3 at [world0], on a store that accepts the flag writes: an interview
    created 2 hours before its start, and one created 30 minutes before. *)
Lemma late_creation_guard_witness :
  (∃ r',
     interviews (InterviewManager.addInterview env_ok now0 user_a "Ann" "Chen"
                   "2026-03-01" "12:00:00" "late" world0).2 !! 4 = Some r'
     ∧ reminder_24h_sent r' = true ∧ reminder_3h_sent r' = false)
  ∧ (∃ r',
       interviews (InterviewManager.addInterview env_ok now0 user_a "Ann" "Chen"
                     "2026-03-01" "10:30:00" "late" world0).2 !! 4 = Some r'
       ∧ reminder_24h_sent r' = true ∧ reminder_3h_sent r' = true).
Proof.
  split.
  - destruct (late_creation_guard env_ok now0 user_a "Ann" "Chen" "2026-03-01" "12:00:00"
                "late" world0
                (4, mkInterview user_a "Ann" (Some "Chen") "2026-03-01" "12:00:00"
                      (Some "late") false false)
                (InterviewManager.addInterview env_ok now0 user_a "Ann" "Chen"
                   "2026-03-01" "12:00:00" "late" world0).2)
      as (_ & r' & Hr' & _ & _ & _ & Htwo & _); [vm_compute; reflexivity|].
    exists r'. split; [exact Hr'|].
    apply (Htwo (now0 + 7200000)); [vm_compute; reflexivity | vm_compute; reflexivity
                                   | reflexivity].
  - destruct (late_creation_guard env_ok now0 user_a "Ann" "Chen" "2026-03-01" "10:30:00"
                "late" world0
                (4, mkInterview user_a "Ann" (Some "Chen") "2026-03-01" "10:30:00"
                      (Some "late") false false)
                (InterviewManager.addInterview env_ok now0 user_a "Ann" "Chen"
                   "2026-03-01" "10:30:00" "late" world0).2)
      as (_ & r' & Hr' & _ & _ & _ & _ & Hhalf); [vm_compute; reflexivity|].
    exists r'. split; [exact Hr'|].
    apply (Hhalf (now0 + 1800000)); [vm_compute; reflexivity | vm_compute; reflexivity
                                    | reflexivity | reflexivity].
Defined.

(** C3 as stated fails: on a store that refuses the flag write, an
    interview created 2 hours before its start is created all the same and
    its 24h flag is false. *)
Lemma late_creation_marks_24h_counterexample : ¬ late_creation_marks_24h.
Proof.
  intros H.
  destruct (H env_writes_fail now0 user_a "Ann" "Chen" "2026-03-01" "12:00:00" "late" world0
              (4, mkInterview user_a "Ann" (Some "Chen") "2026-03-01" "12:00:00"
                    (Some "late") false false)
              (InterviewManager.addInterview env_writes_fail now0 user_a "Ann" "Chen"
                 "2026-03-01" "12:00:00" "late" world0).2
              (now0 + 7200000))
    as (r' & Hr' & Hflag).
  - vm_compute. reflexivity.
  - vm_compute. reflexivity.
  - vm_compute. reflexivity.
  - assert (Hrow : interviews (InterviewManager.addInterview env_writes_fail now0 user_a
                                 "Ann" "Chen" "2026-03-01" "12:00:00" "late" world0).2 !! 4
                   = Some (mkInterview user_a "Ann" (Some "Chen") "2026-03-01" "12:00:00"
                             (Some "late") false false))
      by (vm_compute; reflexivity).
    cbn [fst] in Hr'. rewrite Hrow in Hr'. injection Hr' as <-. discriminate Hflag.
Qed.

(** C4 at [world0]: after a first cycle that reached everybody, the second
    cycle only fetches. *)
Lemma second_cycle_sends_nothing_witness :
  ∃ err,
    events (ReminderManager.processReminders env_ok now0
              (ReminderManager.processReminders env_ok now0 world0).2).2
    = Store (SelectCandidates (Moment.local_day now0)) err
      :: events (ReminderManager.processReminders env_ok now0 world0).2.
Proof.
  destruct (second_cycle_sends_nothing env_ok now0 world0
              (ReminderManager.mkCycleReport 9 None)
              (ReminderManager.processReminders env_ok now0 world0).2)
    as (err & Hev & _).
  - vm_compute. reflexivity.
  - vm_compute. repeat constructor.
  - exists err. exact Hev.
Defined.

(** C8 at [world0]: three classified reminders, three resolutions. *)
Lemma resolved_once_per_reminder_witness :
  resolutions (events (ReminderManager.processReminders env_ok now0 world0).2) = 3%nat.
Proof.
  refine (resolved_once_per_reminder env_ok now0 world0
            [(2, at_24h15); (1, at_24h)] [(3, at_3h)] _).
  vm_compute. reflexivity.
Defined.

(** C8 as stated fails: the cycle at [world0] resolves the recipients three
    times, once for each of its three classified reminders. *)
Lemma resolved_once_per_cycle_counterexample : ¬ resolved_once_per_cycle.
Proof.
  intros H. specialize (H env_ok now0 world0). vm_compute in H. discriminate.
Qed.

(** C9 at [env_ok]: a wrong key is answered 401 and nothing is touched. *)
Lemma unauthorized_before_any_access_witness :
  Trigger.triggerReminders env_ok now0 wrong_key world0
  = (Trigger.mkResponse 401 Trigger.Unauthorized, world0).
Proof.
  refine (proj1 (unauthorized_before_any_access env_ok now0 wrong_key world0 _ _)).
  - split; reflexivity.
  - split; [reflexivity | discriminate].
Defined.

(** C9 as stated fails: with the store settings absent, a wrong key is
    answered with the configuration failure, not with 401. *)
Lemma mismatch_always_unauthorized_counterexample : ¬ mismatch_always_unauthorized.
Proof.
  intros H.
  specialize (H env_unconfigured now0 wrong_key world0).
  assert (Hkey : key_mismatch env_unconfigured wrong_key)
    by (split; [reflexivity | discriminate]).
  specialize (H Hkey). vm_compute in H. discriminate.
Qed.

(** ** A flag write that fails *)

(** Whatever the flag write answers, the accumulators of the cycle after a
    send that succeeded are those of the send alone. *)
Lemma processOne_ignores_write env k (x : Row) total errs w :
  ReminderManager.success (ReminderManager.sendReminderMessage env x k w).1 = true →
  (ReminderManager.processOne env k x (total, errs) w).1
  = ((total + ReminderManager.sentCount (ReminderManager.sendReminderMessage env x k w).1)%nat,
     errs ++ default [] (ReminderManager.errors
                           (ReminderManager.sendReminderMessage env x k w).1)).
Proof.
  intros Hs. rewrite processOne_unfold, Hs. simpl.
  apply sentCount_success in Hs.
  destruct (ReminderManager.sentCount _); [lia | done].
Qed.

(** C7 at [world0] with a store that refuses every flag write: the three
    writes fail, the three flags stay as they were, every interview is still
    processed (nine deliveries), and the report of the cycle carries no
    error at all. *)
Theorem persist_failure_goes_unreported :
  (ReminderManager.processReminders env_writes_fail now0 world0).1
    = Success (ReminderManager.mkCycleReport 9 None)
  ∧ List.filter is_update
      (events (ReminderManager.processReminders env_writes_fail now0 world0).2)
    = [ Store (Update 3 None [("reminder_3h_sent", VBool true)]) (Some "write failed");
        Store (Update 1 None [("reminder_24h_sent", VBool true)]) (Some "write failed");
        Store (Update 2 None [("reminder_24h_sent", VBool true)]) (Some "write failed") ]
  ∧ interviews (ReminderManager.processReminders env_writes_fail now0 world0).2
    = interviews world0.
Proof. vm_compute. done. Qed.

(** ** Update and delete of an interview that is not there *)

(** Unless the store refuses the request, [deleteInterview] answers success,
    whether or not a row matched. *)
Lemma deleteInterview_always_success env userId interviewId w :
  store_fault env (events w) (Delete interviewId userId) = None →
  (InterviewManager.deleteInterview env userId interviewId w).1 = Success tt.
Proof.
  intros Hok. unfold InterviewManager.deleteInterview, Db.delete_rows. rewrite Hok.
  destruct (interviews w !! interviewId) as [r|]; [|done].
  by destruct (Db.owned_by (Some userId) r).
Qed.

(** C10 at [world0], which has no interview 999 and whose interview 1
    belongs to [user_a]: deleting 999, or deleting 1 as [user_b], answers
    success like the deletion of an own interview and the user is told the
    interview was deleted; updating 999 answers success with no row and the
    user is told the interview was updated.  The table is unchanged. *)
Theorem not_found_answers_success :
  (InterviewManager.deleteInterview env_ok user_a 999 world0).1 = Success tt
  ∧ (InterviewManager.deleteInterview env_ok user_b 1 world0).1 = Success tt
  ∧ (InterviewManager.deleteInterview env_ok user_a 1 world0).1 = Success tt
  ∧ interviews (InterviewManager.deleteInterview env_ok user_b 1 world0).2
    = interviews world0
  ∧ head (events (Commands.handleDeleteCommand env_ok (Some 999) user_a world0).2)
    = Some (Reply (Commands.deleted_ok 999))
  ∧ (InterviewManager.updateInterview env_ok user_a 999 [("reason", VStr "x")] world0).1
    = Success None
  ∧ head (events (Commands.handleUpdateCommand env_ok (Some (999, "理由", "x")) user_a
                    world0).2)
    = Some (Reply (Commands.updated_ok 999 "理由" "x"))
  ∧ interviews (Commands.handleUpdateCommand env_ok (Some (999, "理由", "x")) user_a
                  world0).2
    = interviews world0.
Proof. vm_compute. done. Qed.

(* ===================================================================== *)
(** * Further properties of the program                                   *)
(* ===================================================================== *)

(** ** The date filter of the fetch *)

Lemma digit_range a d : Moment.digit a = Some d → 0 ≤ d ≤ 9.
Proof.
  unfold Moment.digit.
  destruct (_ && _) eqn:E; [|discriminate]. intros [= <-].
  apply andb_true_iff in E as [?%Z.leb_le ?%Z.leb_le]. lia.
Qed.

Lemma digits_from_nonneg s : ∀ acc n, 0 ≤ acc → Moment.digits_from acc s = Some n → 0 ≤ n.
Proof.
  induction s as [|a s IH]; intros acc n Hacc; simpl.
  - by intros [= <-].
  - destruct (Moment.digit a) as [d|] eqn:Hd; [|discriminate].
    apply digit_range in Hd. apply IH. lia.
Qed.

Lemma number_nonneg s n : Moment.number s = Some n → 0 ≤ n.
Proof.
  unfold Moment.number. destruct s; [discriminate|]. by apply digits_from_nonneg.
Qed.

Lemma valid_hms_range h mi sec :
  0 ≤ h → 0 ≤ mi → 0 ≤ sec → Moment.valid_hms h mi sec = true →
  0 ≤ h * 3600 + mi * 60 + sec ≤ 86400.
Proof.
  unfold Moment.valid_hms. intros Hh Hm Hs.
  rewrite orb_true_iff, !andb_true_iff, !Z.leb_le, !Z.eqb_eq. lia.
Qed.

Lemma parse_time_hms_range s sec :
  Moment.parse_time_hms s = Some sec → 0 ≤ sec ≤ 86400.
Proof.
  unfold Moment.parse_time_hms.
  destruct (negb _); [discriminate|].
  destruct (Moment.number (String.substring 0 2 s)) as [h|] eqn:Hh; [|discriminate].
  destruct (Moment.number (String.substring 3 2 s)) as [mi|] eqn:Hm;
    [|by repeat case_match].
  destruct (Moment.number (String.substring 6 2 s)) as [x|] eqn:Hs;
    [|by repeat case_match].
  apply number_nonneg in Hh, Hm, Hs.
  repeat case_match; try discriminate.
  intros [= <-]. by apply valid_hms_range.
Qed.

(** The instant of a date and a time lies within the day of the date, the
    midnight that ends it included. *)
Lemma tz_within_day date time t :
  Moment.tz date time = Some t →
  ∃ day, Moment.parse_date date = Some day
         ∧ t ≤ (day + 1) * Moment.ms_per_day - Moment.utc_offset_ms.
Proof.
  unfold Moment.tz.
  destruct (Moment.parse_date date) as [day|]; [|discriminate].
  destruct (Moment.parse_time_hms time) as [sec|] eqn:Hsec; [|discriminate].
  apply parse_time_hms_range in Hsec. intros [= <-]. exists day. split; [done|].
  unfold Moment.ms_per_day, Moment.utc_offset_ms. lia.
Qed.

Lemma future_is_on_or_after now (r : Interview) t :
  Moment.tz (interview_date r) (interview_time r) = Some t →
  now < t →
  Db.on_or_after (Moment.local_day now) r = true.
Proof.
  intros Ht Hlt. destruct (tz_within_day _ _ _ Ht) as (day & Hday & Hle).
  unfold Db.on_or_after. rewrite Hday. apply Z.leb_le.
  unfold Moment.local_day.
  assert ((now + Moment.utc_offset_ms) / Moment.ms_per_day < day + 1); [|lia].
  apply Z.div_lt_upper_bound; [done|]. lia.
Qed.

(** A row that needs a reminder now passes the filter of the fetch. *)
Lemma needs_is_candidate k now r :
  needs k now r = true → Db.is_candidate (Moment.local_day now) r = true.
Proof.
  intros Hn. pose proof (needs_flag _ _ _ Hn) as Hf.
  unfold Db.is_candidate. apply andb_true_iff. split.
  - destruct k; simpl in Hf; rewrite Hf; simpl; [done | apply orb_true_r].
  - assert (Hd : ∃ d, InterviewManager.diffHours now r = Some d ∧ (0 < d)%Q).
    { destruct k; simpl in Hn.
      - apply needs24h_iff in Hn as (_ & d & Hd & Hlo & _). exists d. split; [done|].
        eapply Qlt_le_trans; [|exact Hlo]. reflexivity.
      - apply needs3h_iff in Hn as (_ & d & Hd & Hlo & _). exists d. split; [done|].
        eapply Qlt_le_trans; [|exact Hlo]. reflexivity. }
    destruct Hd as (d & Hd & Hpos). unfold InterviewManager.diffHours in Hd.
    destruct (Moment.tz _ _) as [t|] eqn:Ht; [|discriminate].
    injection Hd as <-. eapply future_is_on_or_after; [done|].
    unfold Moment.diff_hours, Qlt in Hpos. simpl in Hpos. lia.
Qed.

(** X1.  When the fetch succeeds, the list of a kind holds exactly the rows
    of the table that need that reminder now: the date filter of the query
    (interview date on or after today) hides no interview that is due. *)
Theorem due_interviews_are_classified env now w l24 l3 k (x : Row) :
  (InterviewManager.getInterviewsNeedingReminders env now w).1 = Success (l24, l3) →
  x ∈ list_of k (l24, l3) ↔ interviews w !! x.1 = Some x.2 ∧ needs k now x.2 = true.
Proof.
  intros Hfetch.
  destruct (getInterviewsNeedingReminders_success _ _ _ _ _ Hfetch) as [-> ->].
  assert (Hgen : x ∈ filter (λ y : Row, needs k now y.2)
                       (Db.candidates (Moment.local_day now) w)
                 ↔ interviews w !! x.1 = Some x.2 ∧ needs k now x.2 = true).
  { rewrite list_elem_of_filter, Is_true_true, candidates_elem.
    pose proof (needs_is_candidate k now x.2). tauto. }
  by destruct k.
Qed.

(** ** What a cycle reports *)

Lemma read_events_not_delivered reads :
  Forall read_event reads → List.filter delivered reads = [].
Proof.
  induction 1 as [|e l (q & err & -> & _) _ IH]; [done|]. simpl. exact IH.
Qed.

Lemma markReminderSent_events env id k w :
  ∃ err, events (InterviewManager.markReminderSent env id k w).2
         = Store (Update id None (InterviewManager.updateData k)) err :: events w.
Proof.
  pose proof (markReminderSent_world env id k w) as H. cbv zeta in H.
  destruct (store_fault env (events w) _) as [e|]; [rewrite H; by eexists|].
  destruct (interviews w !! id); rewrite H; by eexists.
Qed.

(** One interview of the cycle adds to the total the number of pushes of
    its send that were delivered. *)
Lemma processOne_accounting env k (x : Row) total errs w :
  ∃ new,
    events (ReminderManager.processOne env k x (total, errs) w).2 = new ++ events w
    ∧ (ReminderManager.processOne env k x (total, errs) w).1.1
      = (total + length (List.filter delivered new))%nat.
Proof.
  rewrite processOne_unfold.
  destruct (sendReminderMessage_spec env x k w)
    as (reads & pushes & Ev & Fr & _ & Hc & Hs & _). cbv zeta in *.
  apply read_events_not_delivered in Fr.
  destruct (ReminderManager.success _) eqn:Hsucc; cbn [fst snd].
  - destruct (markReminderSent_events env x.1 k
                (ReminderManager.sendReminderMessage env x k w).2) as (err & Hm).
    exists (Store (Update x.1 None (InterviewManager.updateData k)) err :: pushes ++ reads).
    split; [rewrite Hm, Ev; simpl; by rewrite <- app_assoc|].
    cbn [List.filter delivered]. rewrite List.filter_app, Fr, app_nil_r, <- Hc.
    symmetry in Hs. apply Nat.ltb_lt in Hs.
    destruct (Nat.eqb_spec (ReminderManager.sentCount
                (ReminderManager.sendReminderMessage env x k w).1) 0); lia.
  - exists (pushes ++ reads). split; [by rewrite Ev, <- app_assoc|].
    rewrite List.filter_app, Fr, app_nil_r, <- Hc.
    symmetry in Hs. apply Nat.ltb_ge in Hs. lia.
Qed.

Lemma processAll_accounting env k l :
  ∀ total errs w,
    ∃ new,
      events (ReminderManager.processAll env k l (total, errs) w).2 = new ++ events w
      ∧ (ReminderManager.processAll env k l (total, errs) w).1.1
        = (total + length (List.filter delivered new))%nat.
Proof.
  induction l as [|x l IH]; intros total errs w.
  - exists []. simpl. split; [done | lia].
  - cbn [ReminderManager.processAll]. unfold bind.
    destruct (processOne_accounting env k x total errs w) as (new1 & Ev1 & Hn1).
    destruct (ReminderManager.processOne env k x (total, errs) w) as [[total1 errs1] w1].
    cbn [fst snd] in *.
    destruct (IH total1 errs1 w1) as (new2 & Ev2 & Hn2).
    exists (new2 ++ new1). split; [by rewrite Ev2, Ev1, <- app_assoc|].
    rewrite Hn2, Hn1, List.filter_app, length_app. lia.
Qed.

Lemma cycle_accounting env l24 l3 w :
  ∃ new,
    events (ReminderManager.processAll env R3h l3
              (ReminderManager.processAll env R24h l24 (0%nat, []) w).1
              (ReminderManager.processAll env R24h l24 (0%nat, []) w).2).2
    = new ++ events w
    ∧ (ReminderManager.processAll env R3h l3
         (ReminderManager.processAll env R24h l24 (0%nat, []) w).1
         (ReminderManager.processAll env R24h l24 (0%nat, []) w).2).1.1
      = length (List.filter delivered new).
Proof.
  destruct (processAll_accounting env R24h l24 0%nat [] w) as (new1 & Ev1 & Hn1).
  destruct (ReminderManager.processAll env R24h l24 (0%nat, []) w) as [[t1 e1] w1].
  cbn [fst snd] in *.
  destruct (processAll_accounting env R3h l3 t1 e1 w1) as (new2 & Ev2 & Hn2).
  exists (new2 ++ new1). split; [by rewrite Ev2, Ev1, <- app_assoc|].
  rewrite Hn2, Hn1, List.filter_app, length_app. lia.
Qed.

(** X2.  The total a successful cycle reports is the number of pushes it
    made that the channel accepted: nothing delivered goes uncounted and
    nothing is counted twice. *)
Theorem total_sent_counts_deliveries env now w report :
  (ReminderManager.processReminders env now w).1 = Success report →
  ∃ new,
    events (ReminderManager.processReminders env now w).2 = new ++ events w
    ∧ ReminderManager.totalSent report = length (List.filter delivered new).
Proof.
  rewrite processReminders_unfold.
  pose proof (getInterviewsNeedingReminders_unfold env now w) as Hf. cbv zeta in Hf.
  destruct (store_fault env (events w) _) as [e|] eqn:Hfault; rewrite Hf; cbn [fst snd].
  { discriminate. }
  cbv zeta. intros [= <-].
  destruct (cycle_accounting env
              (filter (λ x : Row, needs R24h now x.2) (Db.candidates (Moment.local_day now) w))
              (filter (λ x : Row, needs R3h now x.2) (Db.candidates (Moment.local_day now) w))
              (record (Store (SelectCandidates (Moment.local_day now)) None) w))
    as (new & Ev & Hn).
  exists (new ++ [Store (SelectCandidates (Moment.local_day now)) None]). split.
  - etrans; [exact Ev|]. simpl. by rewrite <- app_assoc.
  - etrans; [exact Hn|]. rewrite List.filter_app, length_app. simpl. lia.
Qed.

Lemma total_sent_counts_deliveries_witness :
  ∃ new,
    events (ReminderManager.processReminders env_ok now0 world0).2 = new ++ events world0
    ∧ 9%nat = length (List.filter delivered new).
Proof.
  apply (total_sent_counts_deliveries env_ok now0 world0
           (ReminderManager.mkCycleReport 9 None)).
  vm_compute. reflexivity.
Defined.

(** X3.  When the store refuses the fetch of the candidates, the cycle
    stops there: it returns the store's error, pushes nothing, writes
    nothing, and the trigger request that started it (store configured, key
    accepted, the action absent or a text other than the list) is answered
    500 with that error. *)
Theorem refused_fetch_aborts_the_cycle env now req w e action :
  store_fault env (events w) (SelectCandidates (Moment.local_day now)) = Some e →
  config_present env →
  ¬ key_mismatch env req →
  Trigger.action req = Some action → action ≠ "interview-list" →
  ReminderManager.processReminders env now w
  = (Failure e, record (Store (SelectCandidates (Moment.local_day now)) (Some e)) w)
  ∧ Trigger.triggerReminders env now req w
    = (Trigger.mkResponse 500 (Trigger.RemindersFailed e),
       record (Store (SelectCandidates (Moment.local_day now)) (Some e)) w).
Proof.
  intros Hfault [Hurl Hkey] Hauth Haction Hother.
  assert (Hcycle : ReminderManager.processReminders env now w
            = (Failure e, record (Store (SelectCandidates (Moment.local_day now)) (Some e)) w)).
  { rewrite processReminders_unfold.
    pose proof (getInterviewsNeedingReminders_unfold env now w) as Hf. cbv zeta in Hf.
    rewrite Hfault in Hf. by rewrite Hf. }
  split; [exact Hcycle|].
  unfold Trigger.triggerReminders. rewrite Hurl, Hkey. cbn [negb orb].
  destruct (Js.truthy_opt (CRON_API_KEY env) && _) eqn:Hmis.
  { exfalso. apply Hauth. apply andb_true_iff in Hmis as [H1 H2]. split; [done|].
    apply negb_true_iff, bool_decide_eq_false in H2. exact H2. }
  rewrite Haction.
  destruct (String.eqb_spec action "interview-list") as [Heq|_]; [done|].
  unfold bind. by rewrite Hcycle.
Qed.

Lemma refused_fetch_aborts_the_cycle_witness :
  ReminderManager.processReminders env_fetch_fails now0 world0
  = (Failure "connection refused",
     record (Store (SelectCandidates (Moment.local_day now0)) (Some "connection refused"))
       world0)
  ∧ Trigger.triggerReminders env_fetch_fails now0 right_key world0
    = (Trigger.mkResponse 500 (Trigger.RemindersFailed "connection refused"),
       record (Store (SelectCandidates (Moment.local_day now0)) (Some "connection refused"))
         world0).
Proof.
  apply (refused_fetch_aborts_the_cycle env_fetch_fails now0 right_key world0
           "connection refused" "").
  - reflexivity.
  - split; reflexivity.
  - intros [_ H]. apply H. reflexivity.
  - reflexivity.
  - discriminate.
Defined.

(** X4.  A reminder none of whose pushes was delivered leaves the flag
    unset and the table as it was, adds nothing to the total, and is
    reported by one line that ends in the text undefined: the errors of the
    single recipients, one for each resolved identifier, are dropped. *)
Theorem undelivered_reminder_reported_as_undefined env k (x : Row) total errs w :
  ReminderManager.sentCount (ReminderManager.sendReminderMessage env x k w).1 = 0%nat →
  ReminderManager.processOne env k x (total, errs) w
  = ((total,
      errs ++ [kind_text k +:+ " reminder for interview " +:+ pretty x.1 +:+ ": undefined"]),
     (ReminderManager.sendReminderMessage env x k w).2)
  ∧ interviews (ReminderManager.processOne env k x (total, errs) w).2 = interviews w
  ∧ length (default [] (ReminderManager.errors
                          (ReminderManager.sendReminderMessage env x k w).1))
    = (length (ReminderManager.getReminderRecipientIds env w).1.1
       + length (ReminderManager.getReminderRecipientIds env w).1.2)%nat.
Proof.
  intros Hzero.
  destruct (sendReminderMessage_spec env x k w)
    as (reads & pushes & _ & _ & _ & _ & Hs & Herr & Hlen & _). cbv zeta in *.
  rewrite Hzero in Hs, Hlen. simpl in Hs, Hlen.
  rewrite processOne_unfold, Hs, Herr. cbn [ReminderManager.undefined_text default snd].
  split; [done|]. split; [apply reads_only_sendReminderMessage | exact Hlen].
Qed.

Lemma undelivered_reminder_reported_as_undefined_witness :
  ReminderManager.processOne env_blocked R24h (1, at_24h) (0%nat, []) world0
  = ((0%nat, ["24h reminder for interview 1: undefined"]),
     (ReminderManager.sendReminderMessage env_blocked (1, at_24h) R24h world0).2)
  ∧ interviews (ReminderManager.processOne env_blocked R24h (1, at_24h) (0%nat, []) world0).2
    = interviews world0
  ∧ length (default [] (ReminderManager.errors
                          (ReminderManager.sendReminderMessage env_blocked (1, at_24h)
                             R24h world0).1))
    = (length (ReminderManager.getReminderRecipientIds env_blocked world0).1.1
       + length (ReminderManager.getReminderRecipientIds env_blocked world0).1.2)%nat.
Proof.
  apply (undelivered_reminder_reported_as_undefined env_blocked R24h (1, at_24h)
           0%nat [] world0).
  vm_compute. reflexivity.
Defined.

(** X1 on the scenario. *)
Lemma due_interviews_are_classified_witness :
  (1, at_24h) ∈ list_of R24h ([(2, at_24h15); (1, at_24h)], [(3, at_3h)])
  ↔ interviews world0 !! (1, at_24h).1 = Some (1, at_24h).2
    ∧ needs R24h now0 (1, at_24h).2 = true.
Proof.
  apply (due_interviews_are_classified env_ok now0 world0).
  vm_compute. reflexivity.
Defined.

(** ** The recipient set *)

Lemma truthy_iff s : Js.truthy s = true ↔ s ≠ "".
Proof.
  unfold Js.truthy. rewrite negb_true_iff.
  destruct (String.eqb_spec s ""); split; intros; congruence.
Qed.

Lemma elem_of_nonempty_ids l y : y ∈ nonempty_ids l ↔ y ∈ l ∧ y ≠ "".
Proof.
  unfold nonempty_ids. rewrite !list_elem_of_In, List.filter_In, truthy_iff. tauto.
Qed.

Lemma set_add_spec x s :
  NoDup s → NoDup (Js.set_add x s) ∧ ∀ y, y ∈ Js.set_add x s ↔ y ∈ s ∨ y = x.
Proof.
  intros Hs. unfold Js.set_add. case_bool_decide as Hx.
  - split; [done|]. intros y. split; [auto|]. intros [H| ->]; done.
  - split.
    + apply NoDup_app. split; [done|]. split; [|apply NoDup_singleton].
      intros y Hy ->%list_elem_of_singleton. done.
    + intros y. rewrite elem_of_app, list_elem_of_singleton. tauto.
Qed.

Lemma set_add_all_spec xs :
  ∀ s, NoDup s →
       NoDup (Js.set_add_all xs s) ∧ ∀ y, y ∈ Js.set_add_all xs s ↔ y ∈ s ∨ y ∈ xs.
Proof.
  induction xs as [|x xs IH]; intros s Hs; unfold Js.set_add_all; simpl.
  - split; [done|]. intros y. rewrite elem_of_nil. tauto.
  - destruct (set_add_spec x s Hs) as [Hn He].
    destruct (IH _ Hn) as [Hn' He']. split; [exact Hn'|].
    intros y. unfold Js.set_add_all in He'. rewrite He', He, elem_of_cons. tauto.
Qed.

(** The groups of the environment join the groups already resolved. *)
Lemma add_env_groups_spec env g :
  NoDup g →
  NoDup (ReminderManager.add_env_groups env g)
  ∧ ∀ y, y ∈ ReminderManager.add_env_groups env g ↔ y ∈ g ∨ is_env_group env y.
Proof.
  intros Hg. unfold ReminderManager.add_env_groups, is_env_group. cbv zeta.
  set (single := Text.trim (Js.or_else (GROUP_ID env) "")).
  set (multi := Text.trim (Js.or_else (GROUP_IDS env) "")).
  assert (H1 : NoDup (if Js.truthy single then Js.set_add single g else g)
               ∧ ∀ y, y ∈ (if Js.truthy single then Js.set_add single g else g)
                      ↔ y ∈ g ∨ (y ≠ "" ∧ y = single)).
  { destruct (Js.truthy single) eqn:Hs.
    - destruct (set_add_spec single g Hg) as [Hn He]. split; [done|].
      intros y. rewrite He. apply truthy_iff in Hs. split; [|tauto].
      intros [?| ->]; auto.
    - split; [done|]. intros y. split; [auto|]. intros [?|[Hy ->]]; [done|].
      apply truthy_iff in Hy. congruence. }
  destruct H1 as [Hn1 He1].
  destruct (Js.truthy multi) eqn:Hm.
  - destruct (set_add_all_spec
                (List.filter Js.truthy (map Text.trim (Js.split_comma multi))) _ Hn1)
      as [Hn2 He2].
    split; [done|]. intros y.
    rewrite He2, He1. fold (nonempty_ids (map Text.trim (Js.split_comma multi))).
    rewrite elem_of_nonempty_ids. tauto.
  - split; [done|]. intros y. rewrite He1. split; [tauto|].
    intros [?|[Hy [->|Hin]]]; [tauto | tauto |].
    exfalso. apply negb_false_iff in Hm.
    apply String.eqb_eq in Hm. rewrite Hm in Hin. simpl in Hin.
    apply list_elem_of_singleton in Hin. done.
Qed.

(** The president joins the users already resolved. *)
Lemma president_spec env u :
  NoDup u →
  let u' := match PRESIDENT_LINE_USER_ID env with
            | Some president =>
                if Js.truthy president then Js.set_add president u else u
            | None => u
            end in
  NoDup u' ∧ ∀ y, y ∈ u' ↔ y ∈ u ∨ is_president env y.
Proof.
  intros Hu. cbv zeta. unfold is_president.
  destruct (PRESIDENT_LINE_USER_ID env) as [p|].
  - destruct (Js.truthy p) eqn:Hp.
    + destruct (set_add_spec p u Hu) as [Hn He]. split; [done|].
      intros y. rewrite He. apply truthy_iff in Hp. split.
      * intros [?| ->]; auto.
      * intros [?|[[= ->] _]]; auto.
    + split; [done|]. intros y. split; [auto|].
      intros [?|[[= ->] Hy]]; [done|]. apply truthy_iff in Hy. congruence.
  - split; [done|]. intros y. split; [auto|]. intros [?|[[=] _]]. done.
Qed.

Lemma bind_run {A B} (m : M A) (k : A → M B) w : bind m k w = k (m w).1 (m w).2.
Proof. unfold bind. by destruct (m w). Qed.

(** The users of a resolution, after the read of the tracked users
    answered [users] and left the world [w1]. *)
Lemma getReminderRecipientIds_unfold env w :
  ReminderManager.getReminderRecipientIds env w
  = let r1 := Db.select env SelectLineUsers (λ w, Db.active_ids (line_users w)) w in
    let tracked := match r1.1 with
                   | Success rows => Js.set_add_all (List.filter Js.truthy rows) []
                   | Failure _ => []
                   end in
    let r2 := if (length tracked =? 0)%nat
              then
                let r := Db.select env SelectInterviewOwners
                           (λ w, map (λ x : Row, user_id x.2) (Db.rows w)) r1.2 in
                (match r.1 with
                 | Success rows => Js.set_add_all (List.filter Js.truthy rows) tracked
                 | Failure _ => tracked
                 end, r.2)
              else (tracked, r1.2) in
    let r3 := Db.select env SelectLineGroups (λ w, Db.active_ids (line_groups w)) r2.2 in
    ((match PRESIDENT_LINE_USER_ID env with
      | Some president =>
          if Js.truthy president then Js.set_add president r2.1 else r2.1
      | None => r2.1
      end,
      ReminderManager.add_env_groups env
        match r3.1 with
        | Success rows => Js.set_add_all (List.filter Js.truthy rows) []
        | Failure _ => []
        end),
     r3.2).
Proof.
  unfold ReminderManager.getReminderRecipientIds. rewrite bind_run. cbv zeta.
  destruct (Db.select env SelectLineUsers _ w) as [users w1]. cbn [fst snd].
  rewrite bind_run.
  destruct (length _ =? 0)%nat.
  - rewrite bind_run. cbn [fst snd ret]. rewrite bind_run. cbn [fst snd ret].
    by destruct (length _ =? 0)%nat.
  - cbn [fst snd ret]. rewrite bind_run. cbn [fst snd ret].
    by destruct (length _ =? 0)%nat.
Qed.

Lemma select_reliable {A} env q (rows : World → A) w :
  store_reliable env → Db.select env q rows w = (Success (rows w), record (Store q None) w).
Proof. intros H. unfold Db.select. by rewrite H. Qed.

Lemma tracked_spec (r : Result (list string)) l :
  r = Success l ∨ (∃ e, r = Failure e) →
  let tracked := match r with
                 | Success rows => Js.set_add_all (List.filter Js.truthy rows) []
                 | Failure _ => []
                 end in
  NoDup tracked
  ∧ ∃ t, (t = [] ∨ t = nonempty_ids l)
         ∧ (r = Success l → t = nonempty_ids l)
         ∧ (t = [] ↔ tracked = [])
         ∧ ∀ y, y ∈ tracked ↔ y ∈ t.
Proof.
  cbv zeta. intros [->|[e ->]].
  - destruct (set_add_all_spec (List.filter Js.truthy l) [] (NoDup_nil_2)) as [Hn He].
    split; [done|]. exists (nonempty_ids l).
    split; [by right|]. split; [done|]. split.
    + unfold nonempty_ids. split.
      * intros ->. done.
      * intros Hnil. destruct (List.filter _ _) as [|a l'] eqn:Hf; [done|].
        assert (a ∈ Js.set_add_all (a :: l') []) as Ha by (apply He; right; by left).
        rewrite Hnil in Ha. by apply elem_of_nil in Ha.
    + intros y. rewrite He, elem_of_nil. unfold nonempty_ids. tauto.
  - split; [constructor|]. exists []. split; [by left|]. split; [done|]. done.
Qed.

Lemma select_cases {A} env q (rows : World → A) w :
  ∃ err,
    (Db.select env q rows w).2 = record (Store q err) w
    ∧ ((Db.select env q rows w).1 = Success (rows w)
       ∨ ∃ e, (Db.select env q rows w).1 = Failure e)
    ∧ (store_reliable env → (Db.select env q rows w).1 = Success (rows w)).
Proof.
  unfold Db.select. destruct (store_fault env (events w) q) as [e|] eqn:Hf.
  - exists (Some e). split; [done|]. split; [right; by exists e|].
    intros H. rewrite H in Hf. discriminate.
  - exists None. split; [done|]. split; [by left | done].
Qed.

(** What the resolution returns, by what the three reads answered: the
    tracked users, the interview owners when no tracked user came back, the
    tracked groups; a refused read counts for an empty answer. *)
Lemma getReminderRecipientIds_spec env w :
  ∃ tracked owners groups : list string,
    (tracked = [] ∨ tracked = nonempty_ids (Db.active_ids (line_users w)))
    ∧ (owners = []
       ∨ (tracked = []
          ∧ owners = nonempty_ids (map (λ x : Row, user_id x.2) (Db.rows w))))
    ∧ (groups = [] ∨ groups = nonempty_ids (Db.active_ids (line_groups w)))
    ∧ (store_reliable env →
       tracked = nonempty_ids (Db.active_ids (line_users w))
       ∧ (tracked = [] →
          owners = nonempty_ids (map (λ x : Row, user_id x.2) (Db.rows w)))
       ∧ groups = nonempty_ids (Db.active_ids (line_groups w)))
    ∧ NoDup (ReminderManager.getReminderRecipientIds env w).1.1
    ∧ NoDup (ReminderManager.getReminderRecipientIds env w).1.2
    ∧ (∀ y, y ∈ (ReminderManager.getReminderRecipientIds env w).1.1
            ↔ y ∈ tracked ∨ y ∈ owners ∨ is_president env y)
    ∧ (∀ y, y ∈ (ReminderManager.getReminderRecipientIds env w).1.2
            ↔ y ∈ groups ∨ is_env_group env y).
Proof.
  rewrite getReminderRecipientIds_unfold. cbv zeta. cbn [fst snd].
  destruct (select_cases env SelectLineUsers (λ w, Db.active_ids (line_users w)) w)
    as (err1 & Hw1 & Hc1 & Hrel1).
  rewrite Hw1.
  destruct (tracked_spec _ _ Hc1) as (Hnt & t & Ht & Htrel & Hnil & Het).
  cbv zeta in Hnt, Hnil, Het.
  set (tracked := match (Db.select env SelectLineUsers _ w).1 with
                  | Success rows => Js.set_add_all (List.filter Js.truthy rows) []
                  | Failure _ => []
                  end) in *.
  set (w1 := record (Store SelectLineUsers err1) w).
  (* the users after the fallback *)
  assert (Hown : ∃ o w2 ow,
            (if (length tracked =? 0)%nat
             then
               ((match (Db.select env SelectInterviewOwners
                          (λ w, map (λ x : Row, user_id x.2) (Db.rows w)) w1).1 with
                 | Success rows => Js.set_add_all (List.filter Js.truthy rows) tracked
                 | Failure _ => tracked
                 end),
                (Db.select env SelectInterviewOwners
                   (λ w, map (λ x : Row, user_id x.2) (Db.rows w)) w1).2)
             else (tracked, w1)) = (o, w2)
            ∧ NoDup o
            ∧ line_groups w2 = line_groups w
            ∧ (ow = [] ∨ (t = [] ∧ ow = nonempty_ids
                                          (map (λ x : Row, user_id x.2) (Db.rows w))))
            ∧ (store_reliable env → t = [] →
               ow = nonempty_ids (map (λ x : Row, user_id x.2) (Db.rows w)))
            ∧ ∀ y, y ∈ o ↔ y ∈ t ∨ y ∈ ow).
  { destruct (length tracked =? 0)%nat eqn:Hlen.
    - apply Nat.eqb_eq, length_zero_iff_nil in Hlen.
      assert (t = []) as Htnil by (by apply Hnil).
      destruct (select_cases env SelectInterviewOwners
                  (λ w, map (λ x : Row, user_id x.2) (Db.rows w)) w1)
        as (err2 & Hw2 & [Hc2|[e Hc2]] & Hrel2).
      + eexists _, _, (nonempty_ids (map (λ x : Row, user_id x.2) (Db.rows w))).
        split; [reflexivity|]. rewrite Hc2, Hw2.
        destruct (set_add_all_spec
                    (List.filter Js.truthy (map (λ x : Row, user_id x.2) (Db.rows w1)))
                    tracked Hnt) as [Hn He].
        split; [done|]. split; [done|]. split; [by right|]. split; [done|].
        intros y. rewrite He, Het. unfold nonempty_ids. done.
      + eexists _, _, []. split; [reflexivity|]. rewrite Hc2, Hw2.
        split; [done|]. split; [done|]. split; [by left|]. split.
        * intros H _. specialize (Hrel2 H). congruence.
        * intros y. rewrite Het, elem_of_nil. tauto.
    - eexists _, _, []. split; [reflexivity|]. split; [done|].
      split; [done|]. split; [by left|]. split.
      + intros _ Htnil. apply Hnil in Htnil. rewrite Htnil in Hlen. discriminate.
      + intros y. rewrite Het, elem_of_nil. tauto. }
  destruct Hown as (o & w2 & ow & -> & Hno & Hg2 & How & Hrelo & Heo). cbn [fst snd].
  destruct (select_cases env SelectLineGroups (λ w, Db.active_ids (line_groups w)) w2)
    as (err3 & Hw3 & Hc3 & Hrel3).
  destruct (tracked_spec _ _ Hc3) as (Hng & g & Hg & Hgrel & _ & Heg).
  cbv zeta in Hng, Heg.
  destruct (president_spec env o Hno) as [Hnp Hep]. cbv zeta in Hep.
  destruct (add_env_groups_spec env _ Hng) as [Hne Hee].
  exists t, ow, g.
  split; [done|]. split; [done|]. split; [by rewrite <- Hg2|].
  split.
  { intros H. split; [by apply Htrel, Hrel1|]. split; [by apply Hrelo|].
    rewrite <- Hg2. by apply Hgrel, Hrel3. }
  split; [done|]. split; [done|]. split.
  - intros y. rewrite Hep, Heo. tauto.
  - intros y. rewrite Hee, Heg. tauto.
Qed.

(** X5.  Whatever the store answers, the resolved recipients are two
    sets: no identifier twice among the users nor among the groups, none
    of them the empty text; and the recipients of the environment are
    always among them, the president among the users and the configured
    groups (the single group and the pieces of the list, each trimmed of
    the white space and line ends that [trim] strips) among the groups, even
    when every read of the contact tables is refused. *)
Theorem configured_recipients_always_resolved env w :
  NoDup (ReminderManager.getReminderRecipientIds env w).1.1
  ∧ NoDup (ReminderManager.getReminderRecipientIds env w).1.2
  ∧ (∀ id, id ∈ (ReminderManager.getReminderRecipientIds env w).1.1
           ∨ id ∈ (ReminderManager.getReminderRecipientIds env w).1.2 → id ≠ "")
  ∧ (∀ id, is_president env id → id ∈ (ReminderManager.getReminderRecipientIds env w).1.1)
  ∧ (∀ id, is_env_group env id → id ∈ (ReminderManager.getReminderRecipientIds env w).1.2).
Proof.
  destruct (getReminderRecipientIds_spec env w)
    as (t & ow & g & Ht & How & Hg & _ & Hn1 & Hn2 & He1 & He2).
  split; [done|]. split; [done|]. split; [|split].
  - intros id [Hid|Hid].
    + apply He1 in Hid as [Hid|[Hid|[_ Hid]]]; [| |done].
      * destruct Ht as [->| ->]; [by apply elem_of_nil in Hid|].
        by apply elem_of_nonempty_ids in Hid as [_ ?].
      * destruct How as [->|[_ ->]]; [by apply elem_of_nil in Hid|].
        by apply elem_of_nonempty_ids in Hid as [_ ?].
    + apply He2 in Hid as [Hid|[Hid _]]; [|done].
      destruct Hg as [->| ->]; [by apply elem_of_nil in Hid|].
      by apply elem_of_nonempty_ids in Hid as [_ ?].
  - intros id Hid. apply He1. auto.
  - intros id Hid. apply He2. auto.
Qed.

(** X6.  With a store that answers, the users of a resolution are the
    active tracked users and the president; the owners of the interviews
    are recipients only when no active tracked user exists.  The groups are
    the active tracked groups and the groups of the environment, trimmed. *)
Theorem owners_only_without_tracked_users env w :
  store_reliable env →
  (∀ id, id ∈ (ReminderManager.getReminderRecipientIds env w).1.1
         ↔ id ∈ nonempty_ids (Db.active_ids (line_users w))
           ∨ (nonempty_ids (Db.active_ids (line_users w)) = []
              ∧ id ∈ nonempty_ids (map (λ x : Row, user_id x.2) (Db.rows w)))
           ∨ is_president env id)
  ∧ (∀ id, id ∈ (ReminderManager.getReminderRecipientIds env w).1.2
           ↔ id ∈ nonempty_ids (Db.active_ids (line_groups w)) ∨ is_env_group env id).
Proof.
  intros Hrel.
  destruct (getReminderRecipientIds_spec env w)
    as (t & ow & g & _ & How & _ & Hr & _ & _ & He1 & He2).
  destruct (Hr Hrel) as (-> & Hown & ->). split; [|exact He2].
  intros id. rewrite He1. split.
  - intros [?|[Hid|?]]; [tauto| |tauto].
    destruct How as [->|[Hnil ->]]; [by apply elem_of_nil in Hid|]. tauto.
  - intros [?|[[Hnil Hid]|?]]; [tauto| |tauto].
    right. left. by rewrite (Hown Hnil).
Qed.

(** X6 on an environment whose group settings carry white space: the
    single group, written with an ideographic space after it, is resolved
    without it. *)
Lemma owners_only_without_tracked_users_witness :
  group_d ∈ (ReminderManager.getReminderRecipientIds env_padded world0).1.2
  ∧ (user_a ∈ (ReminderManager.getReminderRecipientIds env_padded world0).1.1
     ↔ user_a ∈ nonempty_ids (Db.active_ids (line_users world0))
       ∨ (nonempty_ids (Db.active_ids (line_users world0)) = []
          ∧ user_a ∈ nonempty_ids (map (λ x : Row, user_id x.2) (Db.rows world0)))
       ∨ is_president env_padded user_a).
Proof.
  assert (Hrel : store_reliable env_padded) by (intros h q; reflexivity).
  split.
  - apply (proj2 (owners_only_without_tracked_users env_padded world0 Hrel)).
    right. split; [discriminate|]. left. vm_compute. reflexivity.
  - apply (proj1 (owners_only_without_tracked_users env_padded world0 Hrel)).
Defined.

(** ** Where the pushes of a send go *)

Lemma push_targets_app a b : push_targets (a ++ b) = push_targets a ++ push_targets b.
Proof. apply omap_app. Qed.

Lemma push_targets_reads reads : Forall read_event reads → push_targets reads = [].
Proof.
  induction 1 as [|e l (q & err & -> & _) _ IH]; [done|]. exact IH.
Qed.

(** A send loop pushes once to each identifier of its list that passes the
    check, in the order of the list; it counts the pushes delivered, and a
    loop that does not report the identifiers it passes over has one error
    for each push refused. *)
Lemma sendEach_targets env Label what valid warn message ids :
  ∀ n errs w,
    ∃ new,
      events (ReminderManager.sendEach env Label what valid warn message ids n errs w).2
      = new ++ events w
      ∧ push_targets new = reverse (List.filter valid ids)
      ∧ length (push_targets new) = length new
      ∧ (ReminderManager.sendEach env Label what valid warn message ids n errs w).1.1
        = (n + length (List.filter delivered new))%nat
      ∧ (warn = false →
         (length (ReminderManager.sendEach env Label what valid warn message ids n errs w).1.2
          + length (List.filter delivered new)
          = length errs + length new)%nat).
Proof.
  induction ids as [|id rest IH]; intros n errs w; cbn [ReminderManager.sendEach].
  { exists []. cbn. split; [done|]. split; [done|]. split; [done|]. split; lia. }
  cbn [List.filter]. destruct (valid id); cbn [negb].
  - rewrite !bind_run. unfold Client.pushMessage. cbn [fst snd].
    destruct (push_fault env (events w) id message) as [e|].
    + destruct (IH n (errs ++ [ReminderManager.delivery_error Label id e])
                  (record (Push id message (Some e)) w)) as (new & Ev & Ht & Hl & Hn & He).
      exists (new ++ [Push id message (Some e)]).
      split; [rewrite Ev; simpl; by rewrite <- app_assoc|].
      split; [by rewrite push_targets_app, Ht, reverse_cons|].
      split; [rewrite push_targets_app, !length_app, Hl; done|].
      rewrite List.filter_app, !length_app. cbn. split; [lia|].
      intros Hw. specialize (He Hw). rewrite length_app in He. cbn in He. lia.
    + destruct (IH (S n) errs (record (Push id message None) w))
        as (new & Ev & Ht & Hl & Hn & He).
      exists (new ++ [Push id message None]).
      split; [rewrite Ev; simpl; by rewrite <- app_assoc|].
      split; [by rewrite push_targets_app, Ht, reverse_cons|].
      split; [rewrite push_targets_app, !length_app, Hl; done|].
      rewrite List.filter_app, !length_app. cbn. split; [lia|].
      intros Hw. specialize (He Hw). lia.
  - destruct (IH n (if warn then errs ++ [ReminderManager.invalid_format Label what id]
                    else errs) w) as (new & Ev & Ht & Hl & Hn & He).
    exists new. split; [done|]. split; [done|]. split; [done|]. split; [done|].
    intros ->. by apply He.
Qed.

Lemma valid_user_not_group id :
  ReminderManager.isValidLineUserId id = true →
  ReminderManager.isValidLineGroupId id = false.
Proof.
  unfold ReminderManager.isValidLineUserId, ReminderManager.isValidLineGroupId,
    Js.startsWith.
  intros H. apply andb_true_iff in H as [H _]. apply andb_true_iff in H as [_ H].
  apply String.prefix_correct in H.
  destruct (_ && _ && _) eqn:G; [|done].
  apply andb_true_iff in G as [G _]. apply andb_true_iff in G as [_ G].
  apply String.prefix_correct in G. cbn [String.length] in *. congruence.
Qed.

(** The two send loops, the users first: no identifier is pushed twice. *)
Lemma send_loops_targets env warn message (u g : list string) w :
  NoDup u → NoDup g →
  ∃ new,
    events (ReminderManager.sendEach env "Group" "group" ReminderManager.isValidLineGroupId
              warn message g
              (ReminderManager.sendEach env "User" "user" ReminderManager.isValidLineUserId
                 warn message u 0 [] w).1.1
              (ReminderManager.sendEach env "User" "user" ReminderManager.isValidLineUserId
                 warn message u 0 [] w).1.2
              (ReminderManager.sendEach env "User" "user" ReminderManager.isValidLineUserId
                 warn message u 0 [] w).2).2
    = new ++ events w
    ∧ NoDup (push_targets new)
    ∧ length (push_targets new) = length new
    ∧ (∀ id, id ∈ push_targets new ↔
             (id ∈ u ∧ ReminderManager.isValidLineUserId id = true)
             ∨ (id ∈ g ∧ ReminderManager.isValidLineGroupId id = true))
    ∧ (ReminderManager.sendEach env "Group" "group" ReminderManager.isValidLineGroupId
         warn message g
         (ReminderManager.sendEach env "User" "user" ReminderManager.isValidLineUserId
            warn message u 0 [] w).1.1
         (ReminderManager.sendEach env "User" "user" ReminderManager.isValidLineUserId
            warn message u 0 [] w).1.2
         (ReminderManager.sendEach env "User" "user" ReminderManager.isValidLineUserId
            warn message u 0 [] w).2).1.1
      = length (List.filter delivered new)
    ∧ (warn = false →
       (length (ReminderManager.sendEach env "Group" "group"
                  ReminderManager.isValidLineGroupId warn message g
                  (ReminderManager.sendEach env "User" "user"
                     ReminderManager.isValidLineUserId warn message u 0 [] w).1.1
                  (ReminderManager.sendEach env "User" "user"
                     ReminderManager.isValidLineUserId warn message u 0 [] w).1.2
                  (ReminderManager.sendEach env "User" "user"
                     ReminderManager.isValidLineUserId warn message u 0 [] w).2).1.2
        + length (List.filter delivered new)
        = length new)%nat).
Proof.
  intros Hu Hg.
  destruct (sendEach_targets env "User" "user" ReminderManager.isValidLineUserId warn
              message u 0 [] w) as (new1 & Ev1 & Ht1 & Hl1 & Hc1 & He1).
  destruct (ReminderManager.sendEach env "User" _ _ warn message u 0 [] w)
    as [[n1 errs1] w1]. cbn [fst snd] in *.
  destruct (sendEach_targets env "Group" "group" ReminderManager.isValidLineGroupId warn
              message g n1 errs1 w1) as (new2 & Ev2 & Ht2 & Hl2 & Hc2 & He2).
  exists (new2 ++ new1). split; [by rewrite Ev2, Ev1, <- app_assoc|].
  assert (Hlen : length (push_targets (new2 ++ new1)) = length (new2 ++ new1))
    by (by rewrite push_targets_app, !length_app, Hl1, Hl2).
  rewrite push_targets_app, Ht1, Ht2.
  assert (Hin1 : ∀ id, id ∈ reverse (List.filter ReminderManager.isValidLineUserId u)
                       ↔ id ∈ u ∧ ReminderManager.isValidLineUserId id = true).
  { intros id.
    by rewrite elem_of_reverse, list_elem_of_In, List.filter_In, <- list_elem_of_In. }
  assert (Hin2 : ∀ id, id ∈ reverse (List.filter ReminderManager.isValidLineGroupId g)
                       ↔ id ∈ g ∧ ReminderManager.isValidLineGroupId id = true).
  { intros id.
    by rewrite elem_of_reverse, list_elem_of_In, List.filter_In, <- list_elem_of_In. }
  split; [|split; [|split; [|split]]].
  - apply NoDup_app. split; [|split].
    + rewrite reverse_Permutation.
      apply NoDup_ListNoDup, List.NoDup_filter, NoDup_ListNoDup, Hg.
    + intros id [_ H2]%Hin2 [_ H1]%Hin1. apply valid_user_not_group in H1. congruence.
    + rewrite reverse_Permutation.
      apply NoDup_ListNoDup, List.NoDup_filter, NoDup_ListNoDup, Hu.
  - by rewrite push_targets_app, Ht1, Ht2 in Hlen.
  - intros id. rewrite elem_of_app, Hin1, Hin2. tauto.
  - rewrite Hc2, Hc1, List.filter_app, length_app. lia.
  - intros Hw. specialize (He1 Hw). specialize (He2 Hw).
    rewrite List.filter_app, !length_app. cbn in He1. lia.
Qed.

Lemma sendReminderMessage_world env (x : Row) k w :
  (ReminderManager.sendReminderMessage env x k w).2
  = (ReminderManager.sendEach env "Group" "group" ReminderManager.isValidLineGroupId true
       (ReminderManager.reminderMessage x.2 k)
       (ReminderManager.getReminderRecipientIds env w).1.2
       (ReminderManager.sendEach env "User" "user" ReminderManager.isValidLineUserId true
          (ReminderManager.reminderMessage x.2 k)
          (ReminderManager.getReminderRecipientIds env w).1.1 0 []
          (ReminderManager.getReminderRecipientIds env w).2).1.1
       (ReminderManager.sendEach env "User" "user" ReminderManager.isValidLineUserId true
          (ReminderManager.reminderMessage x.2 k)
          (ReminderManager.getReminderRecipientIds env w).1.1 0 []
          (ReminderManager.getReminderRecipientIds env w).2).1.2
       (ReminderManager.sendEach env "User" "user" ReminderManager.isValidLineUserId true
          (ReminderManager.reminderMessage x.2 k)
          (ReminderManager.getReminderRecipientIds env w).1.1 0 []
          (ReminderManager.getReminderRecipientIds env w).2).2).2.
Proof.
  unfold ReminderManager.sendReminderMessage. cbv zeta. rewrite bind_run.
  destruct (ReminderManager.getReminderRecipientIds env w) as [[u g] w1]. cbn [fst snd].
  rewrite bind_run.
  destruct (ReminderManager.sendEach env "User" _ _ true _ u 0 [] w1) as [[n1 e1] w2].
  cbn [fst snd]. rewrite bind_run.
  by destruct (ReminderManager.sendEach env "Group" _ _ true _ g n1 e1 w2) as [[n2 e2] w3].
Qed.

(** X7.  One reminder reaches no recipient twice: the pushes of one call of
    the reminder send go to pairwise different identifiers, although users
    and groups are resolved from several sources (contact tables, interview
    owners, president, configured groups). *)
Theorem no_recipient_pushed_twice env (x : Row) k w :
  ∃ new,
    events (ReminderManager.sendReminderMessage env x k w).2 = new ++ events w
    ∧ NoDup (push_targets new).
Proof.
  rewrite sendReminderMessage_world.
  destruct (getReminderRecipientIds_spec env w)
    as (_ & _ & _ & _ & _ & _ & _ & Hn1 & Hn2 & _).
  destruct (getReminderRecipientIds_events env w) as (reads & Hreads & Freads).
  destruct (send_loops_targets env true (ReminderManager.reminderMessage x.2 k) _ _
              (ReminderManager.getReminderRecipientIds env w).2 Hn1 Hn2)
    as (new & Ev & Hnd & _).
  exists (new ++ reads). split; [by rewrite Ev, Hreads, <- app_assoc|].
  by rewrite push_targets_app, (push_targets_reads _ Freads), app_nil_r.
Qed.

(** ** Creation *)

Lemma markReminderSent_table env id k w :
  next_id (InterviewManager.markReminderSent env id k w).2 = next_id w
  ∧ (interviews (InterviewManager.markReminderSent env id k w).2 = interviews w
     ∨ ∃ row, interviews w !! id = Some row
              ∧ interviews (InterviewManager.markReminderSent env id k w).2
                = <[id := set_flag k row]> (interviews w)).
Proof.
  pose proof (markReminderSent_world env id k w) as H. cbv zeta in H.
  destruct (store_fault env (events w) _) as [e|]; [rewrite H; split; [done | by left]|].
  destruct (interviews w !! id) as [row|] eqn:Hrow; rewrite H; (split; [done|]);
    [|by left].
  right. exists row. split; [done|]. by destruct k.
Qed.

(** One step of the guard: at most the flag of its kind on the row [id],
    and only when the test of the step held. *)
Lemma guarded_mark env (b : bool) id k w :
  next_id (when_ b (ignore (InterviewManager.markReminderSent env id k)) w).2 = next_id w
  ∧ (∀ j, j ≠ id →
          interviews (when_ b (ignore (InterviewManager.markReminderSent env id k)) w).2 !! j
          = interviews w !! j)
  ∧ ∀ r, interviews w !! id = Some r →
         ∃ r', interviews (when_ b (ignore (InterviewManager.markReminderSent env id k)) w).2
                 !! id = Some r'
               ∧ (r' = r ∨ (b = true ∧ r' = set_flag k r)).
Proof.
  destruct b; cbn [when_].
  - unfold ignore. rewrite bind_run. cbn [ret snd].
    destruct (markReminderSent_table env id k w) as [Hn [Ht|(row & Hrow & Ht)]].
    + rewrite Ht. split; [done|]. split; [done|]. intros r Hr. exists r. auto.
    + rewrite Ht. split; [done|]. split.
      * intros j Hj. by rewrite lookup_insert_ne.
      * intros r Hr. exists (set_flag k r). rewrite Hrow in Hr. injection Hr as ->.
        split; [apply lookup_insert_eq | auto].
  - split; [done|]. split; [done|]. intros r Hr. exists r. auto.
Qed.

(** What creation does to the table and what it answers. *)
Lemma addInterview_table env now userId intervieweeName interviewerName
    date time reason w :
  match (InterviewManager.addInterview env now userId intervieweeName interviewerName
           date time reason w).1 with
  | Success interview =>
      interview = (next_id w,
                   mkInterview userId intervieweeName (Some interviewerName) date time
                     (Some reason) false false)
      ∧ interviews w !! next_id w = None
      ∧ next_id (InterviewManager.addInterview env now userId intervieweeName
                   interviewerName date time reason w).2 = next_id w + 1
      ∧ (∀ j, j ≠ next_id w →
              interviews (InterviewManager.addInterview env now userId intervieweeName
                            interviewerName date time reason w).2 !! j
              = interviews w !! j)
      ∧ ∃ stored,
          interviews (InterviewManager.addInterview env now userId intervieweeName
                        interviewerName date time reason w).2 !! next_id w = Some stored
          ∧ row_le interview.2 stored
          ∧ (reminder_24h_sent stored = true →
             ∃ d, InterviewManager.diffHours now interview.2 = Some d ∧ (d < 3)%Q)
          ∧ (reminder_3h_sent stored = true →
             ∃ d, InterviewManager.diffHours now interview.2 = Some d ∧ (d < 1)%Q)
  | Failure _ =>
      interviews (InterviewManager.addInterview env now userId intervieweeName
                    interviewerName date time reason w).2 = interviews w
      ∧ next_id (InterviewManager.addInterview env now userId intervieweeName
                   interviewerName date time reason w).2 = next_id w
  end.
Proof.
  rewrite addInterview_unfold. cbv zeta.
  set (row := mkInterview userId intervieweeName (Some interviewerName) date time
                (Some reason) false false).
  destruct (store_fault env (events w) (Insert row)) as [e|]; [done|].
  destruct (interviews w !! next_id w) eqn:Hfree; [done|].
  set (w1 := record _ _).
  unfold creation_guard. cbv zeta. cbn [fst snd].
  rewrite bind_run, bind_run. cbn [ret fst snd].
  set (b24 := Moment.lt (InterviewManager.diffHours now row) 3).
  set (b3 := Moment.lt (InterviewManager.diffHours now row) 1).
  destruct (guarded_mark env b24 (next_id w) R24h w1) as (Hn1 & Ho1 & Hr1).
  set (w2 := (when_ b24 _ w1).2) in *.
  destruct (guarded_mark env b3 (next_id w) R3h w2) as (Hn2 & Ho2 & Hr2).
  set (w3 := (when_ b3 _ w2).2) in *.
  assert (Hrow1 : interviews w1 !! next_id w = Some row) by apply lookup_insert_eq.
  destruct (Hr1 row Hrow1) as (r1 & Hl1 & Hc1).
  destruct (Hr2 r1 Hl1) as (r2 & Hl2 & Hc2).
  split; [done|]. split; [done|].
  split; [by rewrite Hn2, Hn1|].
  split.
  { intros j Hj. rewrite (Ho2 j Hj), (Ho1 j Hj). subst w1. simpl.
    by rewrite lookup_insert_ne. }
  exists r2. split; [exact Hl2|].
  assert (Hlt : ∀ q, Moment.lt (InterviewManager.diffHours now row) q = true →
                     ∃ d, InterviewManager.diffHours now row = Some d ∧ (d < q)%Q).
  { intros q Hq. destruct (InterviewManager.diffHours now row) as [d|]; [|done].
    exists d. split; [done|]. by apply Qlt_bool_iff. }
  destruct Hc1 as [->|[Hb24 ->]], Hc2 as [->|[Hb3 ->]]; cbn [set_flag].
  - split; [apply row_le_refl|]. split; discriminate.
  - split; [apply (row_le_set R3h)|]. split; [discriminate|]. intros _. by apply Hlt.
  - split; [apply (row_le_set R24h)|]. split; [|discriminate]. intros _. by apply Hlt.
  - split.
    { eapply row_le_trans; [apply (row_le_set R24h) | apply (row_le_set R3h)]. }
    split; intros _; by apply Hlt.
Qed.

(** X8.  Creation keeps to its own row.  When it succeeds, the answer is
    the row as it was inserted, under the key the sequence gave, with both
    flags false; no other row changed; and the stored row differs from the
    answer at most in flags the late-creation guard raised: the 24h flag
    only when the interview starts in less than 3 hours, the 3h flag only
    when it starts in less than 1 hour, and neither when the date and time
    make no valid moment.  This holds whatever the store does with the flag
    writes.  When creation fails, the table is as it was. *)
Theorem creation_touches_only_the_new_row env now userId intervieweeName interviewerName
    date time reason w :
  match (InterviewManager.addInterview env now userId intervieweeName interviewerName
           date time reason w).1 with
  | Success interview =>
      interview = (next_id w,
                   mkInterview userId intervieweeName (Some interviewerName) date time
                     (Some reason) false false)
      ∧ interviews w !! next_id w = None
      ∧ next_id (InterviewManager.addInterview env now userId intervieweeName
                   interviewerName date time reason w).2 = next_id w + 1
      ∧ (∀ j, j ≠ next_id w →
              interviews (InterviewManager.addInterview env now userId intervieweeName
                            interviewerName date time reason w).2 !! j
              = interviews w !! j)
      ∧ ∃ stored,
          interviews (InterviewManager.addInterview env now userId intervieweeName
                        interviewerName date time reason w).2 !! next_id w = Some stored
          ∧ row_le interview.2 stored
          ∧ (reminder_24h_sent stored = true →
             ∃ d, InterviewManager.diffHours now interview.2 = Some d ∧ (d < 3)%Q)
          ∧ (reminder_3h_sent stored = true →
             ∃ d, InterviewManager.diffHours now interview.2 = Some d ∧ (d < 1)%Q)
  | Failure _ =>
      interviews (InterviewManager.addInterview env now userId intervieweeName
                    interviewerName date time reason w).2 = interviews w
      ∧ next_id (InterviewManager.addInterview env now userId intervieweeName
                   interviewerName date time reason w).2 = next_id w
  end.
Proof. apply addInterview_table. Qed.

(** ** The update and delete commands *)

(** What a text column assignment does to the owner, the date and the time
    of a row. *)
Lemma assign_text_columns c s f r :
  assign c (VStr s) = Some f →
  (c = "user_id" ∨ user_id (f r) = user_id r)
  ∧ (if String.eqb c "interview_date" then interview_date (f r) = s
     else interview_date (f r) = interview_date r)
  ∧ (if String.eqb c "interview_time" then interview_time (f r) = s
     else interview_time (f r) = interview_time r).
Proof.
  unfold assign.
  destruct (String.eqb_spec c "user_id") as [->|_]; [intros [= <-]; simpl; auto|].
  destruct (String.eqb_spec c "interviewee_name") as [->|_]; [intros [= <-]; simpl; auto|].
  destruct (String.eqb_spec c "interviewer_name") as [->|_]; [intros [= <-]; simpl; auto|].
  destruct (String.eqb_spec c "interview_date") as [->|_]; [intros [= <-]; simpl; auto|].
  destruct (String.eqb_spec c "interview_time") as [->|_]; [intros [= <-]; simpl; auto|].
  destruct (String.eqb_spec c "reason") as [->|_]; [intros [= <-]; simpl; auto|].
  discriminate.
Qed.

(** The key the update command makes from a field name is not the owner
    column. *)
Lemma dbField_of_not_owner field c : Commands.dbField_of field = Some c → c ≠ "user_id".
Proof.
  unfold Commands.dbField_of, Commands.fieldMap, Commands.own_property.
  repeat (destruct (String.eqb _ field); [intros [= <-]; discriminate|]).
  unfold Commands.inherited_key.
  destruct (String.eqb field "__proto__"); [intros [= <-]; discriminate|].
  destruct (String.eqb field "constructor"); [intros [= <-]; discriminate|].
  destruct (bool_decide _); [|discriminate].
  intros [= <-]. unfold Commands.native_function. discriminate.
Qed.

(** The update command, by what it did to the table: nothing, or one
    assignment of a validated text to one column of one row of the
    sender. *)
Lemma handleUpdateCommand_table env parsed userId w :
  next_id (Commands.handleUpdateCommand env parsed userId w).2 = next_id w
  ∧ (interviews (Commands.handleUpdateCommand env parsed userId w).2 = interviews w
     ∨ ∃ id field value dbField f r,
         parsed = Some (id, field, value)
         ∧ Commands.dbField_of field = Some dbField
         ∧ assign dbField
             (VStr (if String.eqb dbField "interview_time" then stored_time value else value))
           = Some f
         ∧ (dbField = "interview_date" → Moment.validDate value = true)
         ∧ (dbField = "interview_time" → Moment.validTime (stored_time value) = true)
         ∧ interviews w !! id = Some r
         ∧ user_id r = userId
         ∧ interviews (Commands.handleUpdateCommand env parsed userId w).2
           = <[id := f r]> (interviews w)).
Proof.
  unfold Commands.handleUpdateCommand.
  destruct parsed as [[[id field] value]|]; [|split; [done | by left]].
  destruct (Commands.dbField_of field) as [dbField|] eqn:Hfield; [|split; [done | by left]].
  fold (stored_time value).
  set (valueToStore := if String.eqb dbField "interview_time" then _ else _).
  destruct (String.eqb dbField "interview_date" && _) eqn:Hd; [split; [done | by left]|].
  destruct (String.eqb dbField "interview_time" && _) eqn:Ht; [split; [done | by left]|].
  rewrite bind_run. unfold InterviewManager.updateInterview. rewrite bind_run.
  cbn [ret fst snd].
  assert (Hw : ∀ (b : bool) a c w1,
            next_id ((if b then Client.replyMessage a else Client.replyMessage c) w1).2
            = next_id w1
            ∧ interviews ((if b then Client.replyMessage a else Client.replyMessage c) w1).2
              = interviews w1) by (by intros []).
  match goal with
  | |- context [(if ?b then Client.replyMessage ?a else Client.replyMessage ?c) ?w1] =>
      destruct (Hw b a c w1) as [-> ->]
  end.
  unfold Db.update_rows.
  destruct (store_fault env (events w) _); [split; [done | by left]|].
  cbn [patch_fun].
  destruct (assign dbField (VStr valueToStore)) as [g|] eqn:Hg; [|split; [done | by left]].
  destruct (interviews w !! id) as [r|] eqn:Hr; [|split; [done | by left]].
  cbn [Db.owned_by].
  destruct (String.eqb_spec (user_id r) userId) as [Hown|_]; [|split; [done | by left]].
  split; [done|]. right. exists id, field, value, dbField, g, r.
  split; [done|]. split; [done|]. split; [exact Hg|]. split; [|split].
  - intros ->. cbn [String.eqb Ascii.eqb Bool.eqb andb] in Hd.
    by apply negb_false_iff in Hd.
  - intros ->. subst valueToStore.
    cbn [String.eqb Ascii.eqb Bool.eqb andb] in Ht. by apply negb_false_iff in Ht.
  - done.
Qed.

(** X9.  The update command touches nothing of another user: it creates
    and removes no row, and a row it changed belongs to the sender, has the
    number the command named, and keeps its owner and both flags. *)
Theorem update_reaches_only_the_senders_row env parsed userId w j :
  next_id (Commands.handleUpdateCommand env parsed userId w).2 = next_id w
  ∧ match interviews w !! j with
    | Some r =>
        ∃ r', interviews (Commands.handleUpdateCommand env parsed userId w).2 !! j = Some r'
              ∧ user_id r' = user_id r
              ∧ reminder_24h_sent r' = reminder_24h_sent r
              ∧ reminder_3h_sent r' = reminder_3h_sent r
              ∧ (r' ≠ r →
                 user_id r = userId ∧ ∃ field value, parsed = Some (j, field, value))
    | None => interviews (Commands.handleUpdateCommand env parsed userId w).2 !! j = None
    end.
Proof.
  destruct (handleUpdateCommand_table env parsed userId w)
    as [Hn [->|(id & field & value & c & f & r0 & Hp & Hc & Hf & _ & _ & Hr0 & Hown & ->)]].
  { split; [done|]. destruct (interviews w !! j) as [r|]; [|done].
    exists r. by repeat split. }
  split; [done|].
  destruct (decide (id = j)) as [<-|Hne].
  - rewrite Hr0. exists (f r0). rewrite lookup_insert_eq. split; [done|].
    destruct (assign_text_columns _ _ _ r0 Hf) as ([Hu|Hu] & _ & _).
    { by apply dbField_of_not_owner in Hc. }
    destruct (assign_text_flags _ _ _ r0 Hf) as [H24 H3].
    split; [done|]. split; [done|]. split; [done|].
    intros _. split; [done|]. by exists field, value.
  - rewrite lookup_insert_ne by done.
    destruct (interviews w !! j) as [r|]; [|done]. exists r. by repeat split.
Qed.

Lemma well_timed_iff r :
  well_timed r
  ↔ is_Some (Moment.parse_date (interview_date r))
    ∧ is_Some (Moment.parse_time_hms (interview_time r)).
Proof.
  unfold well_timed, Moment.tz.
  destruct (Moment.parse_date _), (Moment.parse_time_hms _); split; intros H;
    try (by destruct H as [? [=]]);
    try (by destruct H as [[? [=]] ?]);
    try (by destruct H as [? [? [=]]]);
    eauto.
Qed.

Lemma number_two_digits a b n :
  Moment.number (String a (String b "")) = Some n →
  Commands.is_digit a = true ∧ Commands.is_digit b = true.
Proof.
  unfold Moment.number, Commands.is_digit. cbn [Moment.digits_from].
  destruct (Moment.digit a); [|discriminate].
  destruct (Moment.digit b); [|discriminate].
  intros _. split; apply bool_decide_eq_true; eauto.
Qed.

(** A text that moment reads as ['HH:mm'] matches [/^\d{2}:\d{2}$/]. *)
Lemma parse_time_hm_matches v n :
  Moment.parse_time_hm v = Some n → Commands.matches_hh_mm v = true.
Proof.
  unfold Moment.parse_time_hm.
  destruct v as [|a [|b [|c [|d [|e [|f v]]]]]]; try discriminate.
  cbn [String.length Nat.eqb negb String.substring].
  destruct (Moment.number (String a (String b ""))) as [h|] eqn:Hh; [|discriminate].
  destruct (Moment.number (String d (String e ""))) as [mi|] eqn:Hm;
    [|by repeat case_match].
  apply number_two_digits in Hh as [Ha Hb], Hm as [Hd He].
  unfold Commands.matches_hh_mm. rewrite Ha, Hb, Hd, He.
  repeat case_match; try discriminate. intros _. by subst.
Qed.

Lemma matches_hh_mm_length v :
  Commands.matches_hh_mm v = true → String.length (v +:+ ":00") = 8%nat.
Proof.
  unfold Commands.matches_hh_mm.
  destruct v as [|a [|b [|c [|d [|e [|f v]]]]]]; try discriminate. done.
Qed.

(** The time the update command stores, once validated, is the text of a
    TIME column. *)
Lemma stored_time_hms value :
  Moment.validTime (stored_time value) = true →
  is_Some (Moment.parse_time_hms (stored_time value)).
Proof.
  unfold stored_time, Moment.validTime. cbv zeta.
  set (v := Js.replace_first _ _ _).
  destruct (Commands.matches_hh_mm v) eqn:Hm.
  - apply matches_hh_mm_length in Hm.
    assert (Hnone : Moment.parse_time_hm (v +:+ ":00") = None)
      by (unfold Moment.parse_time_hm; by rewrite Hm).
    rewrite Hnone. rewrite bool_decide_eq_false_2 by (by intros [? [=]]).
    cbn [orb]. by intros ?%bool_decide_eq_true.
  - intros [H|H]%orb_true_iff; apply bool_decide_eq_true in H; [|done].
    destruct H as [n Hn]. apply parse_time_hm_matches in Hn. congruence.
Qed.

(** The update command and the moments of the rows. *)
Lemma handleUpdateCommand_well_timed env parsed userId w :
  all_well_timed (interviews w) →
  all_well_timed (interviews (Commands.handleUpdateCommand env parsed userId w).2).
Proof.
  intros Hall.
  destruct (handleUpdateCommand_table env parsed userId w)
    as [_ [->|(id & field & value & c & f & r0 & _ & _ & Hf & Hd & Ht & Hr0 & _ & ->)]];
    [done|].
  intros j r Hj. destruct (decide (id = j)) as [<-|Hne].
  2:{ rewrite lookup_insert_ne in Hj by done. by apply (Hall j). }
  rewrite lookup_insert_eq in Hj. injection Hj as <-.
  specialize (Hall _ _ Hr0). apply well_timed_iff in Hall as [Hdate Htime].
  apply well_timed_iff.
  destruct (assign_text_columns _ _ _ r0 Hf) as (_ & Hcd & Hct).
  destruct (String.eqb_spec c "interview_date") as [->|_].
  - cbn [String.eqb Ascii.eqb Bool.eqb] in Hct, Hcd. rewrite Hct, Hcd. split; [|done].
    specialize (Hd eq_refl). unfold Moment.validDate in Hd.
    by apply bool_decide_eq_true in Hd.
  - rewrite Hcd. split; [done|].
    destruct (String.eqb_spec c "interview_time") as [->|_]; [|by rewrite Hct].
    rewrite Hct. by apply stored_time_hms, Ht.
Qed.

(** X10.  The update command keeps the table well timed: when the date and
    the time of every row make a valid moment before the command, they do so
    after it.  A date is stored only if it is a strict YYYY-MM-DD date, a
    time only if, after the full-width colon is replaced and ":00" appended
    to an HH:mm text, it is a strict HH:mm:ss time. *)
Theorem update_keeps_rows_well_timed env parsed userId w :
  all_well_timed (interviews w) →
  all_well_timed (interviews (Commands.handleUpdateCommand env parsed userId w).2).
Proof. apply handleUpdateCommand_well_timed. Qed.

Lemma world0_well_timed : all_well_timed (interviews world0).
Proof.
  intros id r H. unfold world0 in H. cbn [interviews] in H.
  apply lookup_insert_Some in H as [[_ <-]|[_ H]]; [by vm_compute; eexists|].
  apply lookup_insert_Some in H as [[_ <-]|[_ H]]; [by vm_compute; eexists|].
  apply lookup_insert_Some in H as [[_ <-]|[_ H]]; [by vm_compute; eexists|].
  by rewrite lookup_empty in H.
Defined.

Lemma update_keeps_rows_well_timed_witness :
  all_well_timed
    (interviews (Commands.handleUpdateCommand env_ok (Some (1, "時間", "09：30")) user_a
                   world0).2).
Proof.
  apply (update_keeps_rows_well_timed env_ok (Some (1, "時間", "09：30")) user_a world0).
  exact world0_well_timed.
Defined.

(** The delete command, by what it did to the table. *)
Lemma handleDeleteCommand_table env parsed userId w j :
  next_id (Commands.handleDeleteCommand env parsed userId w).2 = next_id w
  ∧ (interviews (Commands.handleDeleteCommand env parsed userId w).2 !! j
     = interviews w !! j
     ∨ (interviews (Commands.handleDeleteCommand env parsed userId w).2 !! j = None
        ∧ parsed = Some j
        ∧ ∃ r, interviews w !! j = Some r ∧ user_id r = userId))
  ∧ (∀ r, parsed = Some j →
          store_fault env (events w) (Delete j userId) = None →
          interviews w !! j = Some r → user_id r = userId →
          interviews (Commands.handleDeleteCommand env parsed userId w).2 !! j = None).
Proof.
  unfold Commands.handleDeleteCommand.
  destruct parsed as [id|].
  2:{ split; [done|]. split; [by left|]. intros r [=]. }
  rewrite bind_run. unfold InterviewManager.deleteInterview.
  assert (Hw : ∀ (b : bool) a c w1,
            next_id ((if b then Client.replyMessage a else Client.replyMessage c) w1).2
            = next_id w1
            ∧ interviews ((if b then Client.replyMessage a else Client.replyMessage c) w1).2
              = interviews w1) by (by intros []).
  match goal with
  | |- context [(if ?b then Client.replyMessage ?a else Client.replyMessage ?c) ?w1] =>
      destruct (Hw b a c w1) as [-> ->]
  end.
  unfold Db.delete_rows. cbv zeta.
  destruct (store_fault env (events w) (Delete id userId)) as [e|] eqn:Hfault.
  { split; [done|]. split; [by left|]. intros r [= ->]. congruence. }
  destruct (interviews w !! id) as [r0|] eqn:Hr0.
  2:{ split; [done|]. split; [by left|]. intros r [= ->]. congruence. }
  cbn [Db.owned_by].
  destruct (String.eqb_spec (user_id r0) userId) as [Hown|Hother]; cbn [fst snd].
  - split; [done|]. split.
    + destruct (decide (id = j)) as [<-|Hne].
      * right. cbn [interviews with_interviews record].
        rewrite lookup_delete_eq. split; [done|]. split; [done|]. by exists r0.
      * left. cbn [interviews with_interviews record]. by rewrite lookup_delete_ne.
    + intros r [= ->] _ _ _. cbn [interviews with_interviews record].
      apply lookup_delete_eq.
  - split; [done|]. split; [by left|].
    intros r [= ->] _ Hr Hu. congruence.
Qed.

(** X11.  The delete command removes at most the row it names, and only
    when that row belongs to the sender: every other row stays as it is,
    and so does a row of another user under the number named.  When the
    store accepts the request, the sender's row under that number is
    gone. *)
Theorem delete_reaches_only_the_senders_row env parsed userId w j :
  next_id (Commands.handleDeleteCommand env parsed userId w).2 = next_id w
  ∧ (interviews (Commands.handleDeleteCommand env parsed userId w).2 !! j
     = interviews w !! j
     ∨ (interviews (Commands.handleDeleteCommand env parsed userId w).2 !! j = None
        ∧ parsed = Some j
        ∧ ∃ r, interviews w !! j = Some r ∧ user_id r = userId))
  ∧ (∀ r, parsed = Some j →
          store_fault env (events w) (Delete j userId) = None →
          interviews w !! j = Some r → user_id r = userId →
          interviews (Commands.handleDeleteCommand env parsed userId w).2 !! j = None).
Proof. apply handleDeleteCommand_table. Qed.

(** ** The list broadcast *)

Lemma sendInterviewListToEveryone_unfold env now w :
  Broadcast.sendInterviewListToEveryone env now w
  = match (InterviewManager.getAllUpcomingInterviews env now w).1 with
    | Failure e =>
        (Broadcast.ListFailed e 0, (InterviewManager.getAllUpcomingInterviews env now w).2)
    | Success l =>
        let ids := ReminderManager.getReminderRecipientIds env
                     (InterviewManager.getAllUpcomingInterviews env now w).2 in
        let u := ReminderManager.sendEach env "User" "user"
                   ReminderManager.isValidLineUserId false (Broadcast.listMessage l)
                   ids.1.1 0 [] ids.2 in
        let g := ReminderManager.sendEach env "Group" "group"
                   ReminderManager.isValidLineGroupId false (Broadcast.listMessage l)
                   ids.1.2 u.1.1 u.1.2 u.2 in
        (Broadcast.ListSent g.1.1 (length l) (ReminderManager.or_undefined g.1.2), g.2)
    end.
Proof.
  unfold Broadcast.sendInterviewListToEveryone. rewrite bind_run.
  destruct (InterviewManager.getAllUpcomingInterviews env now w).1 as [l|e]; [|done].
  cbv zeta. rewrite bind_run.
  destruct (ReminderManager.getReminderRecipientIds env _) as [[u g] w1]. cbn [fst snd].
  rewrite bind_run.
  destruct (ReminderManager.sendEach env "User" _ _ false _ u 0 [] w1) as [[n1 e1] w2].
  cbn [fst snd]. rewrite bind_run.
  by destruct (ReminderManager.sendEach env "Group" _ _ false _ g n1 e1 w2) as [[n2 e2] w3].
Qed.

(** X12.  The list broadcast only reads the store: the interview table is
    as it was.  It pushes to well-formed identifiers, to none twice.  When
    the list was fetched it answers success whatever was delivered, with the
    number of pushes the channel accepted and one error for each push it
    refused: an identifier that fails the format check is passed over
    without an error.  When the fetch is refused nothing is pushed. *)
Theorem list_broadcast_outcome env now w :
  interviews (Broadcast.sendInterviewListToEveryone env now w).2 = interviews w
  ∧ ∃ new,
      events (Broadcast.sendInterviewListToEveryone env now w).2 = new ++ events w
      ∧ Forall read_or_push new
      ∧ NoDup (push_targets new)
      ∧ match (Broadcast.sendInterviewListToEveryone env now w).1 with
        | Broadcast.ListSent sentCount interviewCount errors =>
            sentCount = length (List.filter delivered new)
            ∧ (sentCount + length (default [] errors) = length (push_targets new))%nat
        | Broadcast.ListFailed e sentCount =>
            sentCount = 0%nat ∧ push_targets new = []
        end.
Proof.
  assert (Hkeep : keeps read_or_push (Broadcast.sendInterviewListToEveryone env now)).
  { apply keeps_sendInterviewListToEveryone; [by intros q err Hq | by intros to text err H]. }
  destruct (Hkeep w) as (_ & _ & _ & _ & new & Ev & Hnew).
  split.
  { rewrite sendInterviewListToEveryone_unfold.
    unfold InterviewManager.getAllUpcomingInterviews.
    destruct (select_cases env (SelectUpcoming (Moment.local_day now))
                (λ w, InterviewManager.ordered
                        (filter (λ x : Row, Db.on_or_after (Moment.local_day now) x.2)
                           (Db.rows w))) w) as (err & Hw & [Hc|[e Hc]] & _);
      rewrite Hc; cbv zeta; cbn [snd].
    - rewrite reads_only_sendEach, reads_only_sendEach, reads_only_getReminderRecipientIds.
      by rewrite Hw.
    - by rewrite Hw. }
  exists new. split; [done|]. split; [done|].
  revert Ev. rewrite sendInterviewListToEveryone_unfold.
  unfold InterviewManager.getAllUpcomingInterviews.
  destruct (select_cases env (SelectUpcoming (Moment.local_day now))
              (λ w, InterviewManager.ordered
                      (filter (λ x : Row, Db.on_or_after (Moment.local_day now) x.2)
                         (Db.rows w))) w) as (err & Hw & [Hc|[e Hc]] & _);
    rewrite Hc; cbv zeta; cbn [fst snd].
  - rewrite Hw. set (w0 := record (Store (SelectUpcoming (Moment.local_day now)) err) w).
    destruct (getReminderRecipientIds_spec env w0)
      as (_ & _ & _ & _ & _ & _ & _ & Hn1 & Hn2 & _).
    destruct (getReminderRecipientIds_events env w0) as (reads & Hreads & Freads).
    destruct (send_loops_targets env false
                (Broadcast.listMessage
                   (InterviewManager.ordered
                      (filter (λ x : Row, Db.on_or_after (Moment.local_day now) x.2)
                         (Db.rows w)))) _ _
                (ReminderManager.getReminderRecipientIds env w0).2 Hn1 Hn2)
      as (np & Evp & Hnd & Hlen & _ & Hcount & Herrs).
    rewrite Evp, Hreads. cbn [w0 events record].
    change (np ++ reads ++ Store (SelectUpcoming (Moment.local_day now)) err :: events w)
      with (np ++ reads ++ [Store (SelectUpcoming (Moment.local_day now)) err] ++ events w).
    rewrite !app_assoc. intros Heq%app_inv_tail. subst new.
    rewrite !push_targets_app, (push_targets_reads _ Freads). cbn. rewrite !app_nil_r.
    split; [done|].
    rewrite default_or_undefined, !List.filter_app, (read_events_not_delivered _ Freads).
    cbn. rewrite !app_nil_r. split; [done|].
    rewrite Hcount, Hlen. specialize (Herrs eq_refl). lia.
  - rewrite Hw. cbn [events record].
    change (Store (SelectUpcoming (Moment.local_day now)) err :: events w)
      with ([Store (SelectUpcoming (Moment.local_day now)) err] ++ events w).
    intros Heq%app_inv_tail. subst new. cbn. split; [constructor | done].
Qed.

(** ** The lists of interviews *)

Lemma date_time_le_trans : Transitive InterviewManager.date_time_le.
Proof.
  intros x y z. unfold InterviewManager.date_time_le.
  destruct (InterviewManager.date_time_key x), (InterviewManager.date_time_key y),
    (InterviewManager.date_time_key z). cbn. lia.
Qed.

Lemma date_time_le_total : Total InterviewManager.date_time_le.
Proof.
  intros x y. unfold InterviewManager.date_time_le.
  destruct (InterviewManager.date_time_key x), (InterviewManager.date_time_key y).
  cbn. lia.
Qed.

(** On well-timed rows the order of the query is the order of the
    instants. *)
Lemma date_time_le_instant (x y : Row) :
  well_timed x.2 → well_timed y.2 →
  InterviewManager.date_time_le x y → instant x ≤ instant y.
Proof.
  intros Hx%well_timed_iff Hy%well_timed_iff.
  unfold InterviewManager.date_time_le, InterviewManager.date_time_key, instant, Moment.tz.
  destruct Hx as [[d1 Hd1] [t1 Ht1]], Hy as [[d2 Hd2] [t2 Ht2]].
  rewrite Hd1, Ht1, Hd2, Ht2. cbn [default].
  apply parse_time_hms_range in Ht1. apply parse_time_hms_range in Ht2.
  unfold Moment.ms_per_day, Moment.utc_offset_ms, id. lia.
Qed.

Lemma StronglySorted_weaken {A} (R R' : relation A) l :
  (∀ x y, x ∈ l → y ∈ l → R x y → R' x y) →
  StronglySorted R l → StronglySorted R' l.
Proof.
  intros Himp Hs. induction Hs as [|a l Hs IH Hall]; [constructor|].
  constructor.
  - apply IH. intros x y Hx Hy. apply Himp; by right.
  - rewrite Forall_forall in Hall |- *. intros y Hy.
    apply Himp; [by left | by right | by apply Hall].
Qed.

(** The rows of the table that pass a test, in the order of the query. *)
Lemma ordered_filter_spec (f : Row → bool) w :
  NoDup (InterviewManager.ordered (filter (λ x, f x) (Db.rows w)))
  ∧ (∀ x : Row, x ∈ InterviewManager.ordered (filter (λ x, f x) (Db.rows w))
                ↔ interviews w !! x.1 = Some x.2 ∧ f x = true)
  ∧ (all_well_timed (interviews w) →
     chronological (InterviewManager.ordered (filter (λ x, f x) (Db.rows w)))).
Proof.
  unfold InterviewManager.ordered.
  assert (Hin : ∀ x : Row, x ∈ merge_sort InterviewManager.date_time_le
                                  (filter (λ x, f x) (Db.rows w))
                           ↔ interviews w !! x.1 = Some x.2 ∧ f x = true).
  { intros x. rewrite merge_sort_Permutation, list_elem_of_filter, Is_true_true.
    pose proof (elem_of_map_to_list' (interviews w) x) as H. unfold Db.rows. tauto. }
  split; [|split; [exact Hin|]].
  - rewrite merge_sort_Permutation. apply NoDup_filter, NoDup_map_to_list.
  - intros Hall. unfold chronological.
    eapply StronglySorted_weaken;
      [|apply (StronglySorted_merge_sort _ (Transitive0 := date_time_le_trans)
                 (Total0 := date_time_le_total))].
    intros x y [Hx _]%Hin [Hy _]%Hin.
    apply date_time_le_instant; [by apply (Hall x.1) | by apply (Hall y.1)].
Qed.

(** X13.  The list of a user's interviews, when the store answers, is the
    rows of the table that belong to the user, each once, none of another
    user, and on a well-timed table in chronological order; the read leaves
    the table as it is. *)
Theorem a_users_list_is_complete_and_chronological env userId w data :
  all_well_timed (interviews w) →
  (InterviewManager.getInterviews env userId w).1 = Success data →
  NoDup data
  ∧ (∀ x : Row, x ∈ data ↔ interviews w !! x.1 = Some x.2 ∧ user_id x.2 = userId)
  ∧ chronological data
  ∧ interviews (InterviewManager.getInterviews env userId w).2 = interviews w.
Proof.
  intros Hall. unfold InterviewManager.getInterviews.
  destruct (select_world env (SelectByUser userId)
              (λ w, InterviewManager.ordered
                      (filter (λ x : Row, String.eqb (user_id x.2) userId) (Db.rows w))) w)
    as (err & -> & ->).
  destruct err as [e|]; [discriminate|]. intros [= <-].
  destruct (ordered_filter_spec (λ x, String.eqb (user_id x.2) userId) w)
    as (Hn & Hin & Hs).
  split; [exact Hn|]. split; [|split; [by apply Hs | done]].
  intros x. rewrite Hin, String.eqb_eq. done.
Qed.

Lemma a_users_list_is_complete_and_chronological_witness :
  NoDup [(3, at_3h); (1, at_24h)]
  ∧ (∀ x : Row, x ∈ [(3, at_3h); (1, at_24h)]
                ↔ interviews world0 !! x.1 = Some x.2 ∧ user_id x.2 = user_a)
  ∧ chronological [(3, at_3h); (1, at_24h)]
  ∧ interviews (InterviewManager.getInterviews env_ok user_a world0).2 = interviews world0.
Proof.
  apply (a_users_list_is_complete_and_chronological env_ok user_a world0).
  - exact world0_well_timed.
  - vm_compute. reflexivity.
Defined.

(** X14.  The list of the upcoming interviews, when the store answers, is
    the rows of the table dated today or later in the zone of the
    organisation, each once, whoever created them, and on a well-timed table
    in chronological order; the read leaves the table as it is. *)
Theorem upcoming_list_is_complete_and_chronological env now w data :
  all_well_timed (interviews w) →
  (InterviewManager.getAllUpcomingInterviews env now w).1 = Success data →
  NoDup data
  ∧ (∀ x : Row, x ∈ data
                ↔ interviews w !! x.1 = Some x.2
                  ∧ ∃ day, Moment.parse_date (interview_date x.2) = Some day
                           ∧ Moment.local_day now ≤ day)
  ∧ chronological data
  ∧ interviews (InterviewManager.getAllUpcomingInterviews env now w).2 = interviews w.
Proof.
  intros Hall. unfold InterviewManager.getAllUpcomingInterviews. cbv zeta.
  destruct (select_world env (SelectUpcoming (Moment.local_day now))
              (λ w, InterviewManager.ordered
                      (filter (λ x : Row, Db.on_or_after (Moment.local_day now) x.2)
                         (Db.rows w))) w)
    as (err & -> & ->).
  destruct err as [e|]; [discriminate|]. intros [= <-].
  destruct (ordered_filter_spec (λ x, Db.on_or_after (Moment.local_day now) x.2) w)
    as (Hn & Hin & Hs).
  split; [exact Hn|]. split; [|split; [by apply Hs | done]].
  intros x. rewrite Hin. unfold Db.on_or_after.
  destruct (Moment.parse_date (interview_date x.2)) as [d|].
  - rewrite Z.leb_le. split.
    + intros [? ?]. split; [done|]. by exists d.
    + intros [? (day & [= <-] & ?)]. done.
  - split; [by intros [_ [=]] | by intros [_ (day & [=] & _)]].
Qed.

Lemma upcoming_list_is_complete_and_chronological_witness :
  NoDup [(3, at_3h); (1, at_24h); (2, at_24h15)]
  ∧ (∀ x : Row, x ∈ [(3, at_3h); (1, at_24h); (2, at_24h15)]
                ↔ interviews world0 !! x.1 = Some x.2
                  ∧ ∃ day, Moment.parse_date (interview_date x.2) = Some day
                           ∧ Moment.local_day now0 ≤ day)
  ∧ chronological [(3, at_3h); (1, at_24h); (2, at_24h15)]
  ∧ interviews (InterviewManager.getAllUpcomingInterviews env_ok now0 world0).2
    = interviews world0.
Proof.
  apply (upcoming_list_is_complete_and_chronological env_ok now0 world0).
  - exact world0_well_timed.
  - vm_compute. reflexivity.
Defined.

(** ** The text of the list broadcast *)

Lemma Js_length_app a b : Js.length (a +:+ b) = (Js.length a + Js.length b)%nat.
Proof.
  induction a as [|c a IH]; [done|].
  change (String c a +:+ b) with (String c (a +:+ b)).
  cbn [Js.length]. rewrite IH. lia.
Qed.

(** The loop of the broadcast keeps the text within the limit, the line
    that says the list was cut short apart. *)
Lemma blocks_length count interviews :
  ∀ i message,
    (Js.length message ≤ Broadcast.maxLen)%nat →
    (Js.length (Broadcast.blocks count i interviews message)
     ≤ Broadcast.maxLen + Js.length (cut_short count))%nat.
Proof.
  induction interviews as [|x rest IH]; intros i message Hm; cbn [Broadcast.blocks].
  { lia. }
  destruct (Nat.ltb_spec Broadcast.maxLen
              (Js.length message + Js.length (Broadcast.block i x))) as [Hcut|Hfit].
  - fold (cut_short count). rewrite Js_length_app. lia.
  - apply IH. rewrite Js_length_app. lia.
Qed.

(** X15.  The text of the list broadcast stays short however many
    interviews there are and however long their texts: at most 4500 UTF-16
    units of list, then the line that says the list was cut short, which
    carries the number of interviews, and the closing line. *)
Theorem list_message_is_bounded (interviews : list Row) :
  (Js.length (Broadcast.listMessage interviews)
   ≤ 4500 + 33 + Js.length (pretty (length interviews)))%nat.
Proof.
  unfold Broadcast.listMessage. cbv zeta.
  rewrite Js_length_app.
  assert (Htail : Js.length (nl +:+ "輸入「查看 全部」可查看完整清單。") = 18%nat)
    by (vm_compute; reflexivity).
  rewrite Htail.
  assert (Hcut : Js.length (cut_short (length interviews))
                 = (15 + Js.length (pretty (length interviews)))%nat).
  { unfold cut_short. rewrite !Js_length_app.
    assert (Js.length "…共 " = 3%nat) as -> by (vm_compute; reflexivity).
    assert (Js.length " 筆面談，僅顯示部分。" = 11%nat) as -> by (vm_compute; reflexivity).
    assert (Js.length nl = 1%nat) as -> by (vm_compute; reflexivity).
    lia. }
  destruct (length interviews =? 0)%nat.
  - rewrite Js_length_app.
    assert (Js.length ("📋 全部面談提醒" +:+ nl +:+ nl) = 11%nat) as ->
      by (vm_compute; reflexivity).
    assert (Js.length ("目前沒有即將舉行的面談。" +:+ nl) = 13%nat) as ->
      by (vm_compute; reflexivity).
    lia.
  - pose proof (blocks_length (length interviews) interviews 0
                  ("📋 全部面談提醒" +:+ nl +:+ nl)) as H.
    assert (Js.length ("📋 全部面談提醒" +:+ nl +:+ nl) = 11%nat) as Hh
      by (vm_compute; reflexivity).
    rewrite Hh in H. unfold Broadcast.maxLen in H.
    specialize (H ltac:(lia)). lia.
Qed.

(** ** The patterns of the message parser *)

Section RegexFacts.
Context {R : Type}.
Implicit Types k : Regex.Matcher (R := R).

Lemma lit_inv p k : ∀ acc s r,
  Regex.lit p k acc s = Some r → ∃ rest, s = p ++ rest ∧ k (acc ++ p) rest = Some r.
Proof.
  induction p as [|c p IH]; intros acc s r; cbn [Regex.lit].
  - intros H. exists s. by rewrite app_nil_r.
  - destruct s as [|x s']; [done|].
    destruct (String.eqb_spec c x) as [->|]; [|done].
    intros H. apply IH in H as (rest & -> & H). exists rest. split; [done|].
    by rewrite <- app_assoc in H.
Qed.

Lemma times_inv n cls k : ∀ acc s r,
  Regex.times n cls k acc s = Some r →
  ∃ taken rest, s = taken ++ rest ∧ length taken = n
                ∧ Forall (λ c, cls c = true) taken
                ∧ k (acc ++ taken) rest = Some r.
Proof.
  induction n as [|n IH]; intros acc s r; cbn [Regex.times].
  - intros H. exists [], s. rewrite app_nil_r. by repeat split.
  - destruct s as [|x s']; [done|]. destruct (cls x) eqn:Hx; [|done].
    intros H. apply IH in H as (taken & rest & -> & Hlen & Hall & H).
    exists (x :: taken), rest. split; [done|]. split; [by rewrite <- Hlen|].
    split; [by constructor|]. by rewrite <- app_assoc in H.
Qed.

Lemma plus_inv cls k : ∀ s acc r,
  Regex.plus cls k acc s = Some r →
  ∃ taken rest, s = taken ++ rest ∧ taken ≠ []
                ∧ Forall (λ c, cls c = true) taken
                ∧ k (acc ++ taken) rest = Some r.
Proof.
  unfold Regex.plus.
  induction s as [|x s' IH]; intros acc r; cbn [Regex.plus_from]; [done|].
  destruct (cls x) eqn:Hx; [|done].
  destruct (Regex.plus_from cls k (acc ++ [x]) s') as [r'|] eqn:Hrec.
  - intros [= ->]. apply IH in Hrec as (taken & rest & -> & _ & Hall & H).
    exists (x :: taken), rest. split; [done|]. split; [done|].
    split; [by constructor|]. by rewrite <- app_assoc in H.
  - intros H. exists [x], s'. split; [done|]. split; [done|].
    split; [by repeat constructor | done].
Qed.

(** A greedy repetition takes the whole run when the rest can go on from
    there. *)
Lemma plus_greedy cls k taken : ∀ acc rest r,
  taken ≠ [] →
  Forall (λ c, cls c = true) taken →
  (∀ c, head rest = Some c → cls c = false) →
  k (acc ++ taken) rest = Some r →
  Regex.plus cls k acc (taken ++ rest) = Some r.
Proof.
  unfold Regex.plus.
  induction taken as [|x t IH]; intros acc rest r Hne Hall Hstop Hk; [done|].
  apply Forall_cons in Hall as [Hx Hall]. cbn [app Regex.plus_from]. rewrite Hx.
  destruct t as [|y t].
  - cbn [app]. destruct rest as [|c rest']; cbn [Regex.plus_from]; [done|].
    by rewrite (Hstop c eq_refl).
  - rewrite (IH (acc ++ [x]) rest r); [done | done | done | done |].
    by rewrite <- app_assoc.
Qed.

Lemma times_exact n cls k taken : ∀ acc rest,
  length taken = n →
  Forall (λ c, cls c = true) taken →
  Regex.times n cls k acc (taken ++ rest) = k (acc ++ taken) rest.
Proof.
  revert n. induction taken as [|x t IH]; intros n acc rest <- Hall; cbn.
  - by rewrite app_nil_r.
  - apply Forall_cons in Hall as [-> Hall].
    rewrite (IH _ (acc ++ [x]) rest eq_refl Hall). by rewrite <- app_assoc.
Qed.

Lemma lit_exact p k : ∀ acc rest, Regex.lit p k acc (p ++ rest) = k (acc ++ p) rest.
Proof.
  induction p as [|c p IH]; intros acc rest; cbn.
  - by rewrite app_nil_r.
  - rewrite String.eqb_refl, IH. by rewrite <- app_assoc.
Qed.

Lemma search_inv (m : Regex.Matcher (R := R)) : ∀ s r,
  Regex.search m s = Some r → ∃ pre post, s = pre ++ post ∧ m [] post = Some r.
Proof.
  induction s as [|x s IH]; intros r; cbn [Regex.search].
  - destruct (m [] []) eqn:H; [|done]. intros [= ->]. by exists [], [].
  - destruct (m [] (x :: s)) eqn:H.
    + intros [= ->]. by exists [], (x :: s).
    + intros (pre & post & -> & Hm)%IH. by exists (x :: pre), post.
Qed.

Lemma search_here (m : Regex.Matcher (R := R)) s r :
  m [] s = Some r → Regex.search m s = Some r.
Proof. intros H. destruct s; cbn [Regex.search]; by rewrite H. Qed.

End RegexFacts.

(** What a text that [parseAddCommand] accepts looks like. *)
Lemma parseAddCommand_inv text parsed :
  MessageParser.parseAddCommand text = Some parsed →
  ∃ g1 g2 y m d hh c mm g5,
    parsed = MessageParser.mkAddCommand (Text.join g1) (Text.join g2)
               (Text.join (y ++ ["-"] ++ m ++ ["-"] ++ d))
               (Js.replace_first Commands.fullwidth_colon ":" (Text.join (hh ++ [c] ++ mm))
                +:+ ":00")
               (Text.join g5)
    ∧ g1 ≠ [] ∧ Forall (λ c, Text.non_space c = true) g1
    ∧ g2 ≠ [] ∧ Forall (λ c, Text.non_space c = true) g2
    ∧ length y = 4%nat ∧ Forall (λ c, Text.is_digit c = true) y
    ∧ length m = 2%nat ∧ Forall (λ c, Text.is_digit c = true) m
    ∧ length d = 2%nat ∧ Forall (λ c, Text.is_digit c = true) d
    ∧ length hh = 2%nat ∧ Forall (λ c, Text.is_digit c = true) hh
    ∧ MessageParser.colon c = true
    ∧ length mm = 2%nat ∧ Forall (λ c, Text.is_digit c = true) mm
    ∧ g5 ≠ [] ∧ Forall (λ c, Text.dot c = true) g5.
Proof.
  unfold MessageParser.parseAddCommand.
  intros (pre & post & _ & H)%search_inv. revert H.
  unfold MessageParser.add_regex, Regex.spaces, Regex.group,
    MessageParser.date_pattern, MessageParser.time_pattern.
  intros (r0 & _ & H)%lit_inv.
  apply plus_inv in H as (sp1 & r1 & _ & _ & _ & H).
  apply plus_inv in H as (g1 & r2 & _ & Hg1 & Fg1 & H).
  apply plus_inv in H as (sp2 & r3 & _ & _ & _ & H).
  apply plus_inv in H as (g2 & r4 & _ & Hg2 & Fg2 & H).
  apply plus_inv in H as (sp3 & r5 & _ & _ & _ & H).
  apply times_inv in H as (y & r6 & _ & Ly & Fy & H).
  apply lit_inv in H as (r7 & _ & H).
  apply times_inv in H as (m & r8 & _ & Lm & Fm & H).
  apply lit_inv in H as (r9 & _ & H).
  apply times_inv in H as (d & r10 & _ & Ld & Fd & H).
  apply plus_inv in H as (sp4 & r11 & _ & _ & _ & H).
  apply times_inv in H as (hh & r12 & _ & Lhh & Fhh & H).
  apply times_inv in H as (c1 & r13 & _ & Lc & Fc & H).
  apply times_inv in H as (mm & r14 & _ & Lmm & Fmm & H).
  apply plus_inv in H as (sp5 & r15 & _ & _ & _ & H).
  apply plus_inv in H as (g5 & r16 & _ & Hg5 & Fg5 & H).
  injection H as <-.
  destruct c1 as [|c [|? ?]]; try discriminate.
  apply Forall_cons in Fc as [Fc _].
  exists g1, g2, y, m, d, hh, c, mm, g5. cbn [app] in *.
  rewrite <- !app_assoc. cbn [app].
  split; [reflexivity|].
  repeat (split; [done|]). done.
Qed.

(** ** The add command *)

Lemma is_digit_inv c :
  Text.is_digit c = true → ∃ a, c = String a "" ∧ Commands.is_digit a = true.
Proof.
  unfold Text.is_digit, Commands.is_digit.
  destruct c as [|a [|b c]]; try discriminate. intros H. by exists a.
Qed.

Lemma two_digits_inv l :
  length l = 2%nat → Forall (λ c, Text.is_digit c = true) l →
  ∃ a b, l = [String a ""; String b ""]
         ∧ Commands.is_digit a = true ∧ Commands.is_digit b = true.
Proof.
  destruct l as [|x [|y [|z l]]]; try discriminate. intros _ H.
  apply Forall_cons in H as [(a & -> & Ha)%is_digit_inv H].
  apply Forall_cons in H as [(b & -> & Hb)%is_digit_inv _].
  by exists a, b.
Qed.

Lemma replace_first_cons pat rep a s :
  String.prefix pat (String a s) = false →
  Js.replace_first pat rep (String a s) = String a (Js.replace_first pat rep s).
Proof. intros H. cbn [Js.replace_first]. by rewrite H. Qed.

Lemma prefix_fullwidth_digit a s :
  Commands.is_digit a = true →
  String.prefix Commands.fullwidth_colon (String a s) = false.
Proof.
  intros Ha. unfold Commands.fullwidth_colon. cbn [String.prefix].
  destruct (ascii_dec _ a) as [<-|]; [|done]. vm_compute in Ha. discriminate.
Qed.

(** The time group of the add pattern, with either colon, becomes HH:mm. *)
Lemma time_group_normalised hh c mm :
  length hh = 2%nat → Forall (λ c, Text.is_digit c = true) hh →
  MessageParser.colon c = true →
  length mm = 2%nat → Forall (λ c, Text.is_digit c = true) mm →
  Commands.matches_hh_mm
    (Js.replace_first Commands.fullwidth_colon ":" (Text.join (hh ++ [c] ++ mm))) = true.
Proof.
  intros Lhh Fhh Hc Lmm Fmm.
  destruct (two_digits_inv hh Lhh Fhh) as (a & b & -> & Ha & Hb).
  destruct (two_digits_inv mm Lmm Fmm) as (d & e & -> & Hd & He).
  assert (Hend : Js.replace_first Commands.fullwidth_colon ":" (String d (String e ""))
                 = String d (String e "")).
  { rewrite replace_first_cons by by apply prefix_fullwidth_digit.
    rewrite replace_first_cons by by apply prefix_fullwidth_digit. done. }
  unfold MessageParser.colon in Hc. apply orb_true_iff in Hc as [Hc|Hc];
    apply String.eqb_eq in Hc; subst c.
  - change (Text.join ([String a ""; String b ""] ++ [":"] ++ [String d ""; String e ""]))
      with (String a (String b (String ":" (String d (String e ""))))).
    rewrite replace_first_cons by by apply prefix_fullwidth_digit.
    rewrite replace_first_cons by by apply prefix_fullwidth_digit.
    rewrite replace_first_cons by done.
    rewrite Hend. unfold Commands.matches_hh_mm. by rewrite Ha, Hb, Hd, He.
  - change (Text.join ([String a ""; String b ""] ++ [Commands.fullwidth_colon]
                       ++ [String d ""; String e ""]))
      with (String a (String b (Commands.fullwidth_colon +:+ String d (String e "")))).
    rewrite replace_first_cons by by apply prefix_fullwidth_digit.
    rewrite replace_first_cons by by apply prefix_fullwidth_digit.
    change (Js.replace_first Commands.fullwidth_colon ":"
              (Commands.fullwidth_colon +:+ String d (String e "")))
      with (String ":" (String d (String e ""))).
    unfold Commands.matches_hh_mm. by rewrite Ha, Hb, Hd, He.
Qed.

(** An HH:mm text with ":00" appended that moment takes for a time is the
    text of a TIME column. *)
Lemma hh_mm_00_hms v :
  Commands.matches_hh_mm v = true →
  Moment.validTime (v +:+ ":00") = true →
  is_Some (Moment.parse_time_hms (v +:+ ":00")).
Proof.
  intros Hm. unfold Moment.validTime.
  apply matches_hh_mm_length in Hm.
  assert (Hnone : Moment.parse_time_hm (v +:+ ":00") = None)
    by (unfold Moment.parse_time_hm; by rewrite Hm).
  rewrite Hnone. rewrite bool_decide_eq_false_2 by (by intros [? [=]]).
  cbn [orb]. by intros ?%bool_decide_eq_true.
Qed.

Lemma remove_angle_brackets_clean s :
  no_angle_bracket (InputValidator.remove_angle_brackets s).
Proof.
  induction s as [|a s IH]; [done|]. cbn [InputValidator.remove_angle_brackets].
  destruct (Ascii.eqb_spec a "<"); [done|].
  destruct (Ascii.eqb_spec a ">"); [done|]. cbn [orb no_angle_bracket]. done.
Qed.

Lemma sanitizeString_clean s : no_angle_bracket (InputValidator.sanitizeString s).
Proof.
  unfold InputValidator.sanitizeString.
  destruct (negb _); [done | apply remove_angle_brackets_clean].
Qed.

Lemma validateName_clean s :
  InputValidator.validateName s = true → clean_name (InputValidator.sanitizeString s).
Proof.
  unfold InputValidator.validateName. cbv zeta.
  intros [H1%Nat.ltb_lt H2%Nat.leb_le]%andb_true_iff.
  split; [lia | apply sanitizeString_clean].
Qed.

Lemma reply_world text w :
  interviews (Client.replyMessage text w).2 = interviews w
  ∧ next_id (Client.replyMessage text w).2 = next_id w.
Proof. done. Qed.

(** The add command, by what it did to the table: nothing, or the creation
    of one row from a text that passed every check. *)
Lemma handleAddCommand_table env now text userId w :
  (interviews (Handlers.handleAddCommand env now text userId w).2 = interviews w
   ∧ next_id (Handlers.handleAddCommand env now text userId w).2 = next_id w)
  ∨ ∃ parsed,
      MessageParser.parseAddCommand text = Some parsed
      ∧ InputValidator.validateName (MessageParser.intervieweeName parsed) = true
      ∧ InputValidator.validateName (MessageParser.interviewerName parsed) = true
      ∧ Moment.validDate (MessageParser.date parsed) = true
      ∧ Moment.validTime (MessageParser.time parsed) = true
      ∧ (InterviewManager.addInterview env now userId
           (InputValidator.sanitizeString (MessageParser.intervieweeName parsed))
           (InputValidator.sanitizeString (MessageParser.interviewerName parsed))
           (MessageParser.date parsed) (MessageParser.time parsed)
           (InputValidator.sanitizeString (MessageParser.reason parsed)) w).1
        = Success (next_id w,
                   mkInterview userId
                     (InputValidator.sanitizeString (MessageParser.intervieweeName parsed))
                     (Some (InputValidator.sanitizeString
                              (MessageParser.interviewerName parsed)))
                     (MessageParser.date parsed) (MessageParser.time parsed)
                     (Some (InputValidator.sanitizeString (MessageParser.reason parsed)))
                     false false)
      ∧ interviews (Handlers.handleAddCommand env now text userId w).2
        = interviews (InterviewManager.addInterview env now userId
                        (InputValidator.sanitizeString (MessageParser.intervieweeName parsed))
                        (InputValidator.sanitizeString (MessageParser.interviewerName parsed))
                        (MessageParser.date parsed) (MessageParser.time parsed)
                        (InputValidator.sanitizeString (MessageParser.reason parsed)) w).2
      ∧ next_id (Handlers.handleAddCommand env now text userId w).2
        = next_id (InterviewManager.addInterview env now userId
                     (InputValidator.sanitizeString (MessageParser.intervieweeName parsed))
                     (InputValidator.sanitizeString (MessageParser.interviewerName parsed))
                     (MessageParser.date parsed) (MessageParser.time parsed)
                     (InputValidator.sanitizeString (MessageParser.reason parsed)) w).2.
Proof.
  unfold Handlers.handleAddCommand.
  destruct (MessageParser.parseAddCommand text) as [parsed|]; [|by left].
  destruct (InputValidator.validateName (MessageParser.intervieweeName parsed)) eqn:H1;
    cbn [negb]; [|by left].
  destruct (InputValidator.validateName (MessageParser.interviewerName parsed)) eqn:H2;
    cbn [negb]; [|by left].
  unfold InputValidator.validateDate, InputValidator.validateTime.
  destruct (Moment.validDate (MessageParser.date parsed)) eqn:H3; cbn [negb]; [|by left].
  destruct (Moment.validTime (MessageParser.time parsed)) eqn:H4; cbn [negb]; [|by left].
  cbv zeta. rewrite bind_run.
  pose proof (addInterview_table env now userId
                (InputValidator.sanitizeString (MessageParser.intervieweeName parsed))
                (InputValidator.sanitizeString (MessageParser.interviewerName parsed))
                (MessageParser.date parsed) (MessageParser.time parsed)
                (InputValidator.sanitizeString (MessageParser.reason parsed)) w) as Hadd.
  revert Hadd.
  destruct (InterviewManager.addInterview env now userId _ _ _ _ _ w).1 as [row|e] eqn:Hres.
  - intros (-> & _). right. exists parsed.
    repeat (split; [first [assumption | reflexivity]|]). reflexivity.
  - intros [Hi Hn]. left. split; [exact Hi | exact Hn].
Qed.

(** X16.  The add command creates at most one row and changes no other.
    The row it creates has passed every check: it belongs to the sender, its
    date and time make a valid moment, the two names have 1 to 100 UTF-16
    units, and neither the names nor the reason hold an angle bracket. *)
Theorem add_command_stores_a_checked_row env now text userId w :
  (interviews (Handlers.handleAddCommand env now text userId w).2 = interviews w
   ∧ next_id (Handlers.handleAddCommand env now text userId w).2 = next_id w)
  ∨ ∃ stored,
      interviews w !! next_id w = None
      ∧ interviews (Handlers.handleAddCommand env now text userId w).2 !! next_id w
        = Some stored
      ∧ (∀ j, j ≠ next_id w →
              interviews (Handlers.handleAddCommand env now text userId w).2 !! j
              = interviews w !! j)
      ∧ next_id (Handlers.handleAddCommand env now text userId w).2 = next_id w + 1
      ∧ user_id stored = userId
      ∧ well_timed stored
      ∧ clean_name (interviewee_name stored)
      ∧ (∃ n, interviewer_name stored = Some n ∧ clean_name n)
      ∧ (∃ r, reason stored = Some r ∧ no_angle_bracket r).
Proof.
  destruct (handleAddCommand_table env now text userId w)
    as [H|(parsed & Hp & Hn1 & Hn2 & Hd & Ht & Hres & -> & ->)]; [by left|].
  right.
  pose proof (addInterview_table env now userId
                (InputValidator.sanitizeString (MessageParser.intervieweeName parsed))
                (InputValidator.sanitizeString (MessageParser.interviewerName parsed))
                (MessageParser.date parsed) (MessageParser.time parsed)
                (InputValidator.sanitizeString (MessageParser.reason parsed)) w) as Hadd.
  rewrite Hres in Hadd.
  destruct Hadd as (_ & Hfree & Hnext & Hother & stored & Hst & Hle & _).
  exists stored. split; [done|]. split; [done|]. split; [done|]. split; [done|].
  cbn [snd] in Hle. destruct Hle as ([= Eu En Ei Ed Et Er] & _).
  cbn in Eu, En, Ei, Ed, Et, Er.
  split; [done|]. split.
  { apply well_timed_iff. rewrite <- Ed, <- Et. split.
    - unfold Moment.validDate in Hd. by apply bool_decide_eq_true in Hd.
    - destruct (parseAddCommand_inv _ _ Hp)
        as (g1 & g2 & y & m & d & hh & c & mm & g5 & -> & _ & _ & _ & _ & _ & _ & _ & _
            & _ & _ & Lhh & Fhh & Hc & Lmm & Fmm & _).
      cbn [MessageParser.time] in *.
      apply hh_mm_00_hms; [by apply time_group_normalised | done]. }
  split; [rewrite <- En; by apply validateName_clean|].
  split.
  - eexists. split; [by rewrite <- Ei|]. by apply validateName_clean.
  - eexists. split; [by rewrite <- Er|]. apply sanitizeString_clean.
Qed.

(** ** The table under every command *)

Lemma table_le_well_timed t t' :
  table_le t t' → all_well_timed t → all_well_timed t'.
Proof.
  intros Hle Hall id r' Hr'.
  destruct (table_le_lookup_inv _ _ _ _ Hle Hr') as (r & Hr & Hrow).
  apply row_le_columns in Hrow as (_ & Hd & Ht).
  unfold well_timed. rewrite <- Hd, <- Ht. by apply (Hall id).
Qed.

Lemma perform_well_timed env a w :
  all_well_timed (interviews w) → all_well_timed (interviews (perform env a w)).
Proof.
  intros Hall. destruct a as [now text userId|userId|parsed userId|parsed userId|now|now|now req];
    cbn [perform].
  - destruct (handleAddCommand_table env now text userId w)
      as [[-> _]|(parsed & Hp & _ & _ & Hd & Ht & Hres & -> & _)]; [done|].
    pose proof (addInterview_table env now userId
                  (InputValidator.sanitizeString (MessageParser.intervieweeName parsed))
                  (InputValidator.sanitizeString (MessageParser.interviewerName parsed))
                  (MessageParser.date parsed) (MessageParser.time parsed)
                  (InputValidator.sanitizeString (MessageParser.reason parsed)) w) as Hadd.
    rewrite Hres in Hadd.
    destruct Hadd as (_ & Hfree & Hnext & Hother & stored & Hst & Hle & _).
    intros j r Hj. destruct (decide (j = next_id w)) as [->|Hne].
    + rewrite Hst in Hj. injection Hj as <-.
      apply row_le_columns in Hle as (_ & Ed & Et). cbn in Ed, Et.
      apply well_timed_iff. rewrite <- Ed, <- Et. split.
      * unfold Moment.validDate in Hd. by apply bool_decide_eq_true in Hd.
      * destruct (parseAddCommand_inv _ _ Hp)
          as (g1 & g2 & y & m & d & hh & c & mm & g5 & -> & _ & _ & _ & _ & _ & _ & _ & _
              & _ & _ & Lhh & Fhh & Hc & Lmm & Fmm & _).
        cbn [MessageParser.time] in *.
        apply hh_mm_00_hms; [by apply time_group_normalised | done].
    + rewrite (Hother j Hne) in Hj. by apply (Hall j).
  - unfold Handlers.handleListCommand. rewrite bind_run.
    assert (Hsel : interviews (InterviewManager.getInterviews env userId w).2 = interviews w)
      by apply reads_only_select.
    destruct (InterviewManager.getInterviews env userId w).1 as [data|e];
      [destruct (length data =? 0)%nat|]; cbn [Client.replyMessage snd interviews record];
      by rewrite Hsel.
  - by apply handleUpdateCommand_well_timed.
  - intros j r Hj.
    destruct (handleDeleteCommand_table env parsed userId w j) as (_ & [Hsame|[Hgone _]] & _).
    + rewrite Hsame in Hj. by apply (Hall j).
    + congruence.
  - destruct (evolves_core env now ReminderCycle w I) as [Hle _].
    by apply (table_le_well_timed _ _ Hle).
  - destruct (evolves_core env now ListBroadcast w I) as [Hle _].
    by apply (table_le_well_timed _ _ Hle).
  - destruct (evolves_core env now (TriggerRequest req) w I) as [Hle _].
    by apply (table_le_well_timed _ _ Hle).
Qed.

(** X17.  Whatever the users type and whenever the reminders run, every
    interview of the table has a date and a time that make a valid moment:
    the add, list, update and delete commands, the reminder cycle, the list
    broadcast and the trigger request keep a well-timed table well timed, and
    the empty table is.  So the classification of a cycle never meets an
    interview whose hours until start are not a number. *)
Theorem commands_keep_the_table_well_timed env actions w :
  all_well_timed (interviews w) →
  all_well_timed (interviews (perform_all env actions w))
  ∧ ∀ now id r,
      interviews (perform_all env actions w) !! id = Some r →
      is_Some (InterviewManager.diffHours now r).
Proof.
  intros Hall.
  assert (Hfinal : all_well_timed (interviews (perform_all env actions w))).
  { unfold perform_all. revert w Hall.
    induction actions as [|a actions IH]; intros w Hall; [done|].
    cbn [foldl]. apply IH. by apply perform_well_timed. }
  split; [exact Hfinal|].
  intros now id r Hr. specialize (Hfinal id r Hr). unfold well_timed in Hfinal.
  unfold InterviewManager.diffHours. destruct Hfinal as [t ->]. by eexists.
Qed.

Lemma commands_keep_the_table_well_timed_witness :
  all_well_timed
    (interviews (perform_all env_ok
                   [AddText now0 "新增 約翰 陳佑庭 2026-03-02 10：00 聖殿推薦書面談" user_a;
                    UpdateParsed (Some (1, "時間", "11:30")) user_a;
                    Cycle now0]
                   empty_world))
  ∧ ∀ now id r,
      interviews (perform_all env_ok
                    [AddText now0 "新增 約翰 陳佑庭 2026-03-02 10：00 聖殿推薦書面談" user_a;
                     UpdateParsed (Some (1, "時間", "11:30")) user_a;
                     Cycle now0]
                    empty_world) !! id = Some r →
      is_Some (InterviewManager.diffHours now r).
Proof.
  apply (commands_keep_the_table_well_timed env_ok).
  intros id r H. cbn [empty_world interviews] in H. by rewrite lookup_empty in H.
Defined.

Lemma head_app_ne {A} (l m : list A) : l ≠ [] → head (l ++ m) = head l.
Proof. by destruct l. Qed.

Lemma non_space_head (g rest : list string) c :
  g ≠ [] → Forall (λ c, Text.non_space c = true) g →
  head (g ++ rest) = Some c → Text.is_space c = false.
Proof.
  intros Hne Hall. rewrite head_app_ne by done.
  destruct g as [|x g]; [done|]. intros [= <-].
  apply Forall_cons in Hall as [Hx _]. by apply negb_true_iff in Hx.
Qed.

Lemma digits_date_join y m d :
  length y = 4%nat → Forall (λ c, Text.is_digit c = true) y →
  length m = 2%nat → Forall (λ c, Text.is_digit c = true) m →
  length d = 2%nat → Forall (λ c, Text.is_digit c = true) d →
  matches_date (Text.join (y ++ ["-"] ++ m ++ ["-"] ++ d)) = true.
Proof.
  intros Ly Fy Lm Fm Ld Fd.
  destruct y as [|y1 [|y2 [|y3 [|y4 [|? ?]]]]]; try discriminate.
  destruct (two_digits_inv m Lm Fm) as (m1 & m2 & -> & Hm1 & Hm2).
  destruct (two_digits_inv d Ld Fd) as (d1 & d2 & -> & Hd1 & Hd2).
  apply Forall_cons in Fy as [(a1 & -> & H1)%is_digit_inv Fy].
  apply Forall_cons in Fy as [(a2 & -> & H2)%is_digit_inv Fy].
  apply Forall_cons in Fy as [(a3 & -> & H3)%is_digit_inv Fy].
  apply Forall_cons in Fy as [(a4 & -> & H4)%is_digit_inv _].
  change (matches_date
            (String a1 (String a2 (String a3 (String a4 (String "-"
               (String m1 (String m2 (String "-" (String d1 (String d2 "")))))))))) = true).
  unfold matches_date. by rewrite H1, H2, H3, H4, Hm1, Hm2, Hd1, Hd2.
Qed.

(** X18.  What the add pattern lets through: the two names are not empty
    and hold no white space, the date is four digits, two digits and two
    digits between hyphens, the reason is not empty and holds no line end,
    and the time, typed with the ASCII or the full-width colon, comes out as
    HH:mm with ":00" appended, the text of a TIME column. *)
Theorem add_pattern_shapes_the_fields text parsed :
  MessageParser.parseAddCommand text = Some parsed →
  is_token (MessageParser.intervieweeName parsed)
  ∧ is_token (MessageParser.interviewerName parsed)
  ∧ matches_date (MessageParser.date parsed) = true
  ∧ (∃ v, MessageParser.time parsed = v +:+ ":00" ∧ Commands.matches_hh_mm v = true)
  ∧ is_line (MessageParser.reason parsed).
Proof.
  intros (g1 & g2 & y & m & d & hh & c & mm & g5 & -> & Hg1 & Fg1 & Hg2 & Fg2 & Ly & Fy
          & Lm & Fm & Ld & Fd & Lhh & Fhh & Hc & Lmm & Fmm & Hg5 & Fg5)%parseAddCommand_inv.
  cbn [MessageParser.intervieweeName MessageParser.interviewerName MessageParser.date
       MessageParser.time MessageParser.reason].
  split; [|split; [|split; [|split]]].
  - exists g1. split; [done|]. split; [done|].
    eapply Forall_impl; [exact Fg1|]. intros x Hx. by apply negb_true_iff in Hx.
  - exists g2. split; [done|]. split; [done|].
    eapply Forall_impl; [exact Fg2|]. intros x Hx. by apply negb_true_iff in Hx.
  - by apply digits_date_join.
  - eexists. split; [done|]. by apply time_group_normalised.
  - exists g5. split; [done|]. split; [done|].
    eapply Forall_impl; [exact Fg5|]. intros x Hx. by apply negb_true_iff in Hx.
Qed.

Lemma add_pattern_shapes_the_fields_witness :
  is_token "約翰"
  ∧ is_token "陳佑庭"
  ∧ matches_date "2024-01-15" = true
  ∧ (∃ v, "14:30:00" = v +:+ ":00" ∧ Commands.matches_hh_mm v = true)
  ∧ is_line "聖殿推薦書 面談".
Proof.
  apply (add_pattern_shapes_the_fields
           "請 新增  約翰　陳佑庭 2024-01-15 14：30 聖殿推薦書 面談"
           (MessageParser.mkAddCommand "約翰" "陳佑庭" "2024-01-15" "14:30:00"
              "聖殿推薦書 面談")).
  vm_compute. reflexivity.
Defined.

(** X19.  A well-formed add command is read as it was typed: the keyword,
    a name, a name, a date, a time and a reason, one space between them,
    parse to these very fields, the time with its colon made ASCII and ":00"
    appended.  The names may hold any characters but white space, the reason
    any characters but line ends, spaces included after its first
    character. *)
Theorem add_command_is_read_as_typed text n1 n2 y m d hh c mm r :
  Text.chars text = add_text n1 n2 y m d hh c mm r →
  n1 ≠ [] → Forall (λ c, Text.non_space c = true) n1 →
  n2 ≠ [] → Forall (λ c, Text.non_space c = true) n2 →
  length y = 4%nat → Forall (λ c, Text.is_digit c = true) y →
  length m = 2%nat → Forall (λ c, Text.is_digit c = true) m →
  length d = 2%nat → Forall (λ c, Text.is_digit c = true) d →
  length hh = 2%nat → Forall (λ c, Text.is_digit c = true) hh →
  MessageParser.colon c = true →
  length mm = 2%nat → Forall (λ c, Text.is_digit c = true) mm →
  Forall (λ c, Text.dot c = true) r →
  (∃ x r', r = x :: r' ∧ Text.non_space x = true) →
  MessageParser.parseAddCommand text
  = Some (MessageParser.mkAddCommand (Text.join n1) (Text.join n2)
            (Text.join (y ++ ["-"] ++ m ++ ["-"] ++ d))
            (Js.replace_first Commands.fullwidth_colon ":" (Text.join (hh ++ [c] ++ mm))
             +:+ ":00")
            (Text.join r)).
Proof.
  intros Htext Hn1 Fn1 Hn2 Fn2 Ly Fy Lm Fm Ld Fd Lhh Fhh Hc Lmm Fmm Fr (x & r' & Hr & Hx).
  unfold MessageParser.parseAddCommand. rewrite Htext. apply search_here.
  unfold add_text, MessageParser.add_regex, Regex.spaces, Regex.group,
    MessageParser.date_pattern, MessageParser.time_pattern.
  assert (Hsp : Forall (λ c, Text.is_space c = true) [" "]) by (by repeat constructor).
  assert (Hdig : ∀ (l rest : list string) c0,
            l ≠ [] → Forall (λ c, Text.is_digit c = true) l →
            head (l ++ rest) = Some c0 → Text.is_space c0 = false).
  { intros l rest c0 Hl Fl. rewrite head_app_ne by done.
    destruct l as [|z l]; [done|]. intros [= <-].
    apply Forall_cons in Fl as [(a & -> & Ha)%is_digit_inv _].
    unfold Commands.is_digit in Ha. apply bool_decide_eq_true in Ha as [n Hn].
    apply digit_range in Hn as Hrange. unfold Moment.digit in Hn.
    destruct (_ && _) eqn:E; [|done].
    apply andb_true_iff in E as [E1%Z.leb_le E2%Z.leb_le].
    unfold Text.is_space, Text.is_white_space, Text.is_line_terminator, Text.code_point,
      Text.byte. cbn [String.length String.get].
    repeat (apply orb_false_iff; split); try (apply Z.eqb_neq; lia).
    apply andb_false_iff. left. apply Z.leb_gt. lia. }
  rewrite lit_exact.
  apply plus_greedy; [done | done | intros c0; by apply non_space_head |].
  apply plus_greedy; [done | done | by intros c0 [= <-] |].
  apply plus_greedy; [done | done | intros c0; by apply non_space_head |].
  apply plus_greedy; [done | done | by intros c0 [= <-] |].
  apply plus_greedy; [done | done | intros c0; apply Hdig; [by destruct y | done] |].
  rewrite times_exact by done. rewrite lit_exact.
  rewrite times_exact by done. rewrite lit_exact.
  rewrite times_exact by done.
  apply plus_greedy; [done | done | intros c0; apply Hdig; [by destruct hh | done] |].
  rewrite times_exact by done.
  rewrite (times_exact 1 MessageParser.colon _ [c]) by (by repeat constructor).
  rewrite times_exact by done.
  subst r.
  apply plus_greedy; [done | done | intros c0 [= <-]; by apply negb_true_iff in Hx |].
  rewrite <- (app_nil_r (x :: r')) at 1.
  apply plus_greedy; [done | done | done |].
  cbn [app]. by rewrite <- !app_assoc.
Qed.

Lemma add_command_is_read_as_typed_witness :
  MessageParser.parseAddCommand "新增 約翰 陳佑庭 2024-01-15 14：30 聖殿推薦書 面談"
  = Some (MessageParser.mkAddCommand (Text.join ["約"; "翰"]) (Text.join ["陳"; "佑"; "庭"])
            (Text.join (["2"; "0"; "2"; "4"] ++ ["-"] ++ ["0"; "1"] ++ ["-"] ++ ["1"; "5"]))
            (Js.replace_first Commands.fullwidth_colon ":"
               (Text.join (["1"; "4"] ++ ["："] ++ ["3"; "0"]))
             +:+ ":00")
            (Text.join ["聖"; "殿"; "推"; "薦"; "書"; " "; "面"; "談"])).
Proof.
  apply (add_command_is_read_as_typed
           "新增 約翰 陳佑庭 2024-01-15 14：30 聖殿推薦書 面談"
           ["約"; "翰"] ["陳"; "佑"; "庭"] ["2"; "0"; "2"; "4"] ["0"; "1"] ["1"; "5"]
           ["1"; "4"] "：" ["3"; "0"] ["聖"; "殿"; "推"; "薦"; "書"; " "; "面"; "談"]).
  - vm_compute. reflexivity.
  - discriminate.
  - repeat constructor.
  - discriminate.
  - repeat constructor.
  - reflexivity.
  - repeat constructor.
  - reflexivity.
  - repeat constructor.
  - reflexivity.
  - repeat constructor.
  - reflexivity.
  - repeat constructor.
  - vm_compute. reflexivity.
  - reflexivity.
  - repeat constructor.
  - repeat constructor.
  - eexists _, _. split; [reflexivity|]. vm_compute. reflexivity.
Defined.

(** ** Numbers as texts *)

Lemma append_assoc (a b c : string) : (a +:+ b) +:+ c = a +:+ (b +:+ c).
Proof.
  induction a as [|x a IH]; [done|].
  change (String x ((a +:+ b) +:+ c) = String x (a +:+ (b +:+ c))). by rewrite IH.
Qed.

Lemma append_nil_r (a : string) : a +:+ "" = a.
Proof.
  induction a as [|x a IH]; [done|]. change (String x (a +:+ "") = String x a).
  by rewrite IH.
Qed.

Lemma append_length (a b : string) :
  String.length (a +:+ b) = (String.length a + String.length b)%nat.
Proof.
  induction a as [|x a IH]; [done|].
  change (S (String.length (a +:+ b)) = S (String.length a + String.length b)).
  by rewrite IH.
Qed.

Lemma all_digits_app a b : all_digits (a +:+ b) = all_digits a && all_digits b.
Proof.
  induction a as [|x a IH]; [done|].
  change (Commands.is_digit x && all_digits (a +:+ b)
          = Commands.is_digit x && all_digits a && all_digits b).
  by rewrite IH, andb_assoc.
Qed.

Lemma pretty_N_char_digit k :
  (k < 10)%N →
  Moment.digit (pretty_N_char k) = Some (Z.of_N k)
  ∧ Commands.is_digit (pretty_N_char k) = true.
Proof.
  intros Hk.
  assert (k = 0 ∨ k = 1 ∨ k = 2 ∨ k = 3 ∨ k = 4 ∨ k = 5 ∨ k = 6 ∨ k = 7 ∨ k = 8
          ∨ k = 9)%N as H by lia.
  repeat (destruct H as [->|H]; [by vm_compute|]). subst. by vm_compute.
Qed.

(** The digits stdpp writes for a number, read back by the digit reader. *)
Lemma pretty_N_go_digits x :
  ∀ s, ∃ ds,
    pretty_N_go x s = ds +:+ s
    ∧ all_digits ds = true
    ∧ ((0 < x)%N → ds ≠ "")
    ∧ ∀ acc s', Moment.digits_from acc (ds +:+ s')
                = Moment.digits_from
                    (acc * 10 ^ Z.of_nat (String.length ds) + Z.of_N x) s'.
Proof.
  induction (N.lt_wf_0 x) as [x _ IH]; intros s.
  destruct (decide (x = 0)%N) as [->|Hx].
  { exists "". rewrite pretty_N_go_0. split; [done|]. split; [done|]. split; [lia|].
    intros acc s'. cbn. f_equal. lia. }
  assert (0 < x)%N as Hpos by lia.
  rewrite pretty_N_go_step by done.
  destruct (IH (x `div` 10)%N (N.div_lt x 10 Hpos eq_refl)
              (String (pretty_N_char (x `mod` 10)) s))
    as (ds' & Heq & Hall & _ & Hval).
  destruct (pretty_N_char_digit (x `mod` 10)%N) as [Hd Hi]; [by apply N.mod_lt|].
  exists (ds' +:+ String (pretty_N_char (x `mod` 10)) "").
  split; [by rewrite Heq, append_assoc|].
  split; [rewrite all_digits_app, Hall; cbn; by rewrite Hi|].
  split; [intros _; by destruct ds'|].
  intros acc s'. rewrite append_assoc.
  change (String (pretty_N_char (x `mod` 10)) "" +:+ s')
    with (String (pretty_N_char (x `mod` 10)) s').
  rewrite Hval. cbn [Moment.digits_from]. rewrite Hd. f_equal.
  rewrite append_length. cbn [String.length].
  rewrite Nat2Z.inj_add, Z.pow_add_r by lia.
  pose proof (N.div_mod x 10 ltac:(done)) as Hdm.
  assert (Z.of_N x = 10 * Z.of_N (x `div` 10) + Z.of_N (x `mod` 10)) as -> by lia.
  change (Z.of_nat 1) with 1. lia.
Qed.

(** The decimal text of a number that is not negative: digits, and the
    digit reader gives the number back. *)
Lemma pretty_digits n :
  0 ≤ n →
  all_digits (pretty n) = true ∧ pretty n ≠ "" ∧ Moment.number (pretty n) = Some n.
Proof.
  intros Hn. destruct n as [|p|p]; [by vm_compute | | lia].
  change (pretty (Z.pos p)) with (pretty_N_go (N.pos p) "").
  destruct (pretty_N_go_digits (N.pos p) "") as (ds & -> & Hall & Hne & Hval).
  rewrite append_nil_r. specialize (Hne ltac:(lia)).
  split; [done|]. split; [done|].
  unfold Moment.number. destruct ds as [|a ds]; [done|].
  specialize (Hval 0 ""). rewrite append_nil_r in Hval. rewrite Hval. cbn. f_equal; lia.
Qed.

(** ** Texts and their characters *)

Lemma continues_app x s :
  Text.continues s = false → Text.continues (x +:+ s) = Text.continues x.
Proof. intros Hs. by destruct x. Qed.

Lemma chars_nonempty a s : Text.chars (String a s) ≠ [].
Proof.
  cbn [Text.chars]. destruct (Text.continues s); [|done]. by destruct (Text.chars s).
Qed.

Lemma chars_app x s :
  Text.continues s = false → Text.chars (x +:+ s) = Text.chars x ++ Text.chars s.
Proof.
  intros Hs. induction x as [|a x IH]; [done|].
  change (String a x +:+ s) with (String a (x +:+ s)).
  cbn [Text.chars]. rewrite continues_app by done. rewrite IH.
  destruct (Text.continues x) eqn:Hc; [|done].
  destruct x as [|b x]; [done|].
  pose proof (chars_nonempty b x) as Hne.
  by destruct (Text.chars (String b x)).
Qed.

Lemma join_chars s : Text.join (Text.chars s) = s.
Proof.
  induction s as [|a s IH]; [done|]. cbn [Text.chars].
  destruct (Text.continues s).
  - destruct (Text.chars s) as [|c cs] eqn:Hc.
    + cbn in IH. by rewrite <- IH.
    + cbn [Text.join] in *. change (String a (c +:+ Text.join cs) = String a s).
      by rewrite IH.
  - cbn [Text.join]. change (String a (Text.join (Text.chars s)) = String a s).
    by rewrite IH.
Qed.

Lemma is_digit_not_continuation a :
  Commands.is_digit a = true → Text.is_continuation a = false.
Proof.
  unfold Commands.is_digit. intros [n Hn]%bool_decide_eq_true.
  unfold Moment.digit in Hn. destruct (_ && _) eqn:E; [|done].
  apply andb_true_iff in E as [E1%Z.leb_le E2%Z.leb_le].
  unfold Text.is_continuation. cbv zeta. apply andb_false_iff. left.
  apply Nat.leb_gt. lia.
Qed.

Lemma all_digits_chars s :
  all_digits s = true →
  Text.continues s = false
  ∧ Forall (λ c, Text.is_digit c = true) (Text.chars s)
  ∧ (s ≠ "" → Text.chars s ≠ []).
Proof.
  induction s as [|a s IH]; [done|]. cbn [all_digits].
  intros [Ha Hs]%andb_true_iff. destruct (IH Hs) as (Hc & Hall & _).
  split; [by apply is_digit_not_continuation|].
  cbn [Text.chars]. rewrite Hc. split; [|done].
  constructor; [|done]. unfold Text.is_digit. exact Ha.
Qed.

(** ** The update and delete patterns *)

Lemma parseInt_exact n :
  0 ≤ n < 2 ^ 53 → MessageParser.parseInt (pretty n) = MessageParser.Finite n.
Proof.
  intros [H0 Hlt]. unfold MessageParser.parseInt.
  destruct (pretty_digits n H0) as (_ & _ & ->). cbn [default].
  unfold MessageParser.to_number, id.
  destruct (Z.ltb_spec n (2 ^ 53)); [done | lia].
Qed.

(** X20.  The number a list shows for an interview can be typed back: for
    an id from 0 up to 2^53, "刪除", a space and the number as it is printed
    parse to that id; and "更新", the number, a field and a value with one
    space between them parse to that id, that field and that value, when the
    field is not empty and holds no white space, and the value holds no line
    end and starts with a character that is no white space (so it is not
    empty). *)
Theorem listed_id_is_read_back n field value :
  0 ≤ n < 2 ^ 53 →
  field ≠ "" → Text.continues field = false →
  Forall (λ c, Text.non_space c = true) (Text.chars field) →
  Text.continues value = false →
  Forall (λ c, Text.dot c = true) (Text.chars value) →
  (∃ x r, Text.chars value = x :: r ∧ Text.non_space x = true) →
  MessageParser.parseDeleteCommand ("刪除 " +:+ pretty n) = Some (MessageParser.Finite n)
  ∧ MessageParser.parseUpdateCommand
      ("更新 " +:+ pretty n +:+ " " +:+ field +:+ " " +:+ value)
    = Some (MessageParser.Finite n, field, value).
Proof.
  intros Hn Hf Hfc Ff Hvc Fv (x & r & Hv & Hx).
  destruct (pretty_digits n (proj1 Hn)) as (Hall & Hne & _).
  destruct (all_digits_chars _ Hall) as (Hc & Fd & Hd). specialize (Hd Hne).
  assert (Hsp : Forall (λ c, Text.is_space c = true) [" "]) by (by repeat constructor).
  split.
  - unfold MessageParser.parseDeleteCommand. rewrite chars_app by done.
    change (Text.chars "刪除 ") with (["刪"; "除"] ++ [" "]).
    rewrite <- app_assoc. apply search_here.
    unfold MessageParser.delete_regex, Regex.spaces, Regex.group.
    rewrite lit_exact.
    apply plus_greedy; [done | done | |].
    { intros c Hhead. destruct (Text.chars (pretty n)) as [|z l]; [done|].
      injection Hhead as <-. apply Forall_cons in Fd as [(a & -> & Ha)%is_digit_inv _].
      clear -Ha. unfold Commands.is_digit in Ha. apply bool_decide_eq_true in Ha as [k Hk].
      unfold Moment.digit in Hk. destruct (_ && _) eqn:E; [|done].
      apply andb_true_iff in E as [E1%Z.leb_le E2%Z.leb_le].
      unfold Text.is_space, Text.is_white_space, Text.is_line_terminator, Text.code_point,
        Text.byte. cbn [String.length String.get].
      repeat (apply orb_false_iff; split); try (apply Z.eqb_neq; lia).
      apply andb_false_iff. left. apply Z.leb_gt. lia. }
    rewrite <- (app_nil_r (Text.chars (pretty n))) at 1.
    apply plus_greedy; [done | done | done |].
    cbn [app]. by rewrite join_chars, parseInt_exact.
  - unfold MessageParser.parseUpdateCommand.
    assert (Hcf : Text.continues (" " +:+ field +:+ " " +:+ value) = false) by done.
    assert (Hcv : Text.continues (" " +:+ value) = false) by done.
    rewrite (chars_app "更新 ") by (by rewrite continues_app).
    rewrite (chars_app (pretty n)) by done.
    rewrite (chars_app " ") by (by rewrite continues_app).
    rewrite (chars_app field) by done.
    rewrite (chars_app " ") by done.
    change (Text.chars "更新 ") with (["更"; "新"] ++ [" "]).
    change (Text.chars " ") with [" "].
    rewrite <- app_assoc. apply search_here.
    unfold MessageParser.update_regex, Regex.spaces, Regex.group.
    assert (Hfne : Text.chars field ≠ []).
    { destruct field; [done | apply chars_nonempty]. }
    rewrite lit_exact.
    apply plus_greedy; [done | done | |].
    { intros c. rewrite head_app_ne by done.
      destruct (Text.chars (pretty n)) as [|z l]; [done|]. intros [= <-].
      apply Forall_cons in Fd as [(a & -> & Ha)%is_digit_inv _].
      clear -Ha. unfold Commands.is_digit in Ha. apply bool_decide_eq_true in Ha as [k Hk].
      unfold Moment.digit in Hk. destruct (_ && _) eqn:E; [|done].
      apply andb_true_iff in E as [E1%Z.leb_le E2%Z.leb_le].
      unfold Text.is_space, Text.is_white_space, Text.is_line_terminator, Text.code_point,
        Text.byte. cbn [String.length String.get].
      repeat (apply orb_false_iff; split); try (apply Z.eqb_neq; lia).
      apply andb_false_iff. left. apply Z.leb_gt. lia. }
    apply plus_greedy; [done | done | by intros c [= <-] |].
    apply plus_greedy; [done | done | intros c; by apply non_space_head |].
    apply plus_greedy; [done | done | by intros c [= <-] |].
    rewrite Hv in *.
    apply plus_greedy; [done | done | intros c [= <-]; by apply negb_true_iff in Hx |].
    rewrite <- (app_nil_r (x :: r)) at 1.
    apply plus_greedy; [done | done | done |].
    cbn [app]. rewrite <- Hv, !join_chars, parseInt_exact by done. done.
Qed.

Lemma listed_id_is_read_back_witness :
  MessageParser.parseDeleteCommand ("刪除 " +:+ pretty 12)
  = Some (MessageParser.Finite 12)
  ∧ MessageParser.parseUpdateCommand
      ("更新 " +:+ pretty 12 +:+ " " +:+ "面談對象" +:+ " " +:+ "彼得 約翰")
    = Some (MessageParser.Finite 12, "面談對象", "彼得 約翰").
Proof.
  apply (listed_id_is_read_back 12 "面談對象" "彼得 約翰").
  - vm_compute. split; [discriminate | reflexivity].
  - discriminate.
  - reflexivity.
  - assert (Text.chars "面談對象" = ["面"; "談"; "對"; "象"]) as ->
      by (vm_compute; reflexivity).
    repeat constructor.
  - reflexivity.
  - assert (Text.chars "彼得 約翰" = ["彼"; "得"; " "; "約"; "翰"]) as ->
      by (vm_compute; reflexivity).
    repeat constructor.
  - exists "彼", ["得"; " "; "約"; "翰"]. split; vm_compute; reflexivity.
Defined.

Lemma to_number_nonneg n v :
  0 ≤ n → MessageParser.to_number n = MessageParser.Finite v → 0 ≤ v.
Proof.
  intros Hn. unfold MessageParser.to_number.
  destruct (n <? 2 ^ 53); [by intros [= <-]|]. cbv zeta.
  set (e := Z.log2 n - 52). set (q := Z.shiftr n e).
  assert (0 ≤ q) by (by apply Z.shiftr_nonneg).
  destruct (_ <? 2 ^ 1024); [|done]. intros [= <-].
  apply Z.shiftl_nonneg. repeat case_match; lia.
Qed.

Lemma join_digits ds :
  Forall (λ c, Text.is_digit c = true) ds →
  all_digits (Text.join ds) = true ∧ (ds ≠ [] → Text.join ds ≠ "").
Proof.
  induction 1 as [|c ds (a & -> & Ha)%is_digit_inv _ [IH _]]; [done|].
  cbn [Text.join]. change (String a "" +:+ Text.join ds) with (String a (Text.join ds)).
  cbn [all_digits]. by rewrite Ha, IH.
Qed.

Lemma all_digits_number s :
  all_digits s = true → s ≠ "" → ∃ v, Moment.number s = Some v ∧ 0 ≤ v.
Proof.
  intros Hall Hne.
  assert (Hgen : ∀ s acc, all_digits s = true → is_Some (Moment.digits_from acc s)).
  { clear. induction s as [|a s IH]; intros acc; cbn; [by eexists|].
    intros [Ha Hs]%andb_true_iff. unfold Commands.is_digit in Ha.
    apply bool_decide_eq_true in Ha as [d ->]. by apply IH. }
  destruct s as [|a s]; [done|]. unfold Moment.number.
  destruct (Hgen (String a s) 0 Hall) as [v Hv]. exists v. split; [done|].
  by apply (number_nonneg (String a s)).
Qed.

(** What a text that [parseUpdateCommand] accepts looks like. *)
Lemma parseUpdateCommand_inv text id field value :
  MessageParser.parseUpdateCommand text = Some (id, field, value) →
  ∃ g1 g2 g3,
    id = MessageParser.parseInt (Text.join g1)
    ∧ field = Text.join g2 ∧ value = Text.join g3
    ∧ g1 ≠ [] ∧ Forall (λ c, Text.is_digit c = true) g1
    ∧ g2 ≠ [] ∧ Forall (λ c, Text.non_space c = true) g2
    ∧ g3 ≠ [] ∧ Forall (λ c, Text.dot c = true) g3.
Proof.
  unfold MessageParser.parseUpdateCommand.
  intros (pre & post & _ & H)%search_inv. revert H.
  unfold MessageParser.update_regex, Regex.spaces, Regex.group.
  intros (r0 & _ & H)%lit_inv.
  apply plus_inv in H as (sp1 & r1 & _ & _ & _ & H).
  apply plus_inv in H as (g1 & r2 & _ & Hg1 & Fg1 & H).
  apply plus_inv in H as (sp2 & r3 & _ & _ & _ & H).
  apply plus_inv in H as (g2 & r4 & _ & Hg2 & Fg2 & H).
  apply plus_inv in H as (sp3 & r5 & _ & _ & _ & H).
  apply plus_inv in H as (g3 & r6 & _ & Hg3 & Fg3 & H).
  injection H as <- <- <-. exists g1, g2, g3. cbn [app]. by repeat split.
Qed.

Lemma parseDeleteCommand_inv text id :
  MessageParser.parseDeleteCommand text = Some id →
  ∃ g1, id = MessageParser.parseInt (Text.join g1)
        ∧ g1 ≠ [] ∧ Forall (λ c, Text.is_digit c = true) g1.
Proof.
  unfold MessageParser.parseDeleteCommand.
  intros (pre & post & _ & H)%search_inv. revert H.
  unfold MessageParser.delete_regex, Regex.spaces, Regex.group.
  intros (r0 & _ & H)%lit_inv.
  apply plus_inv in H as (sp1 & r1 & _ & _ & _ & H).
  apply plus_inv in H as (g1 & r2 & _ & Hg1 & Fg1 & H).
  injection H as <-. exists g1. cbn [app]. by repeat split.
Qed.

Lemma parseInt_digits ds :
  Forall (λ c, Text.is_digit c = true) ds → ds ≠ [] →
  ∃ v, Moment.number (Text.join ds) = Some v ∧ 0 ≤ v
       ∧ MessageParser.parseInt (Text.join ds) = MessageParser.to_number v
       ∧ (v < 2 ^ 53 → MessageParser.parseInt (Text.join ds) = MessageParser.Finite v)
       ∧ ∀ n, MessageParser.parseInt (Text.join ds) = MessageParser.Finite n → 0 ≤ n.
Proof.
  intros Fd Hne. destruct (join_digits ds Fd) as [Hall Hjoin].
  destruct (all_digits_number _ Hall (Hjoin Hne)) as (v & Hv & Hpos).
  exists v. unfold MessageParser.parseInt. rewrite Hv. cbn [default]. unfold id.
  split; [done|]. split; [done|]. split; [done|]. split.
  - intros Hlt. unfold MessageParser.to_number.
    destruct (Z.ltb_spec v (2 ^ 53)); [done | lia].
  - intros n. by apply to_number_nonneg.
Qed.

(** X21.  What the update and delete patterns let through.  The id is
    read from a run of digits, so it is never negative; it is the number the
    digits write when that is below 2^53, and that number rounded to a
    Number otherwise.  The field of an update holds no white space and its
    value no line end. *)
Theorem update_and_delete_read_plain_numbers text :
  (∀ id, MessageParser.parseDeleteCommand text = Some id →
         ∃ digits v,
           all_digits digits = true ∧ Moment.number digits = Some v ∧ 0 ≤ v
           ∧ id = MessageParser.to_number v
           ∧ (v < 2 ^ 53 → id = MessageParser.Finite v)
           ∧ (∀ n, id = MessageParser.Finite n → 0 ≤ n))
  ∧ (∀ id field value,
       MessageParser.parseUpdateCommand text = Some (id, field, value) →
       is_token field ∧ is_line value
       ∧ ∃ digits v,
           all_digits digits = true ∧ Moment.number digits = Some v ∧ 0 ≤ v
           ∧ id = MessageParser.to_number v
           ∧ (v < 2 ^ 53 → id = MessageParser.Finite v)
           ∧ (∀ n, id = MessageParser.Finite n → 0 ≤ n)).
Proof.
  split.
  - intros id (g1 & -> & Hg1 & Fg1)%parseDeleteCommand_inv.
    destruct (parseInt_digits g1 Fg1 Hg1) as (v & Hv & Hpos & Hnum & Hex & Hnn).
    exists (Text.join g1), v. split; [by apply join_digits|]. by repeat split.
  - intros id field value
      (g1 & g2 & g3 & -> & -> & -> & Hg1 & Fg1 & Hg2 & Fg2 & Hg3 & Fg3)%parseUpdateCommand_inv.
    split; [|split].
    + exists g2. split; [done|]. split; [done|].
      eapply Forall_impl; [exact Fg2|]. intros x Hx. by apply negb_true_iff in Hx.
    + exists g3. split; [done|]. split; [done|].
      eapply Forall_impl; [exact Fg3|]. intros x Hx. by apply negb_true_iff in Hx.
    + destruct (parseInt_digits g1 Fg1 Hg1) as (v & Hv & Hpos & Hnum & Hex & Hnn).
      exists (Text.join g1), v. split; [by apply join_digits|]. by repeat split.
Qed.

(** ** The list command and the dispatch *)

(** X22.  The list command shows a user nothing of another user.  It
    sends one request to the store and one reply, pushes nothing and leaves
    the table as it is; the reply is the failure text, the text for an empty
    list, or the blocks of exactly the rows of the table that belong to the
    sender, each once. *)
Theorem list_command_shows_only_the_senders_rows env userId w :
  interviews (Handlers.handleListCommand env userId w).2 = interviews w
  ∧ ∃ err text,
      events (Handlers.handleListCommand env userId w).2
      = [Reply text; Store (SelectByUser userId) err] ++ events w
      ∧ (text = Handlers.list_failed
         ∨ text = Handlers.list_empty
         ∨ ∃ data,
             text = Handlers.listBlocks 0 data ("📋 全部面談：" +:+ nl +:+ nl)
             ∧ data ≠ [] ∧ NoDup data
             ∧ ∀ x : Row, x ∈ data
                          ↔ interviews w !! x.1 = Some x.2 ∧ user_id x.2 = userId).
Proof.
  unfold Handlers.handleListCommand. rewrite bind_run.
  unfold InterviewManager.getInterviews.
  destruct (select_world env (SelectByUser userId)
              (λ w, InterviewManager.ordered
                      (filter (λ x : Row, String.eqb (user_id x.2) userId) (Db.rows w))) w)
    as (err & -> & ->).
  destruct err as [e|].
  { split; [done|]. exists (Some e), Handlers.list_failed. split; [done | by left]. }
  destruct (ordered_filter_spec (λ x, String.eqb (user_id x.2) userId) w)
    as (Hn & Hin & _).
  destruct (length _ =? 0)%nat eqn:Hlen.
  { split; [done|]. exists None, Handlers.list_empty. split; [done | right; by left]. }
  split; [done|]. eexists None, _. split; [done|]. right. right.
  eexists. split; [done|]. split.
  { intros Hnil. rewrite Hnil in Hlen. discriminate. }
  split; [exact Hn|]. intros x. rewrite Hin, String.eqb_eq. done.
Qed.

(** X23.  The webhook and [handleMessage] agree on what a command is:
    the webhook hands over exactly the texts for which [handleMessage] has a
    handler, so no text it hands over is dropped without a reply being
    attempted, and no text with a handler is held back. *)
Theorem webhook_hands_over_what_has_a_handler text :
  Handlers.isCommand text = true ↔ is_Some (Handlers.handlerOf text).
Proof.
  unfold Handlers.isCommand, Handlers.handlerOf.
  destruct (String.eqb text "查看 全部"), (String.eqb text "查看全部"),
    (Js.startsWith text "新增"), (Js.startsWith text "更新"), (Js.startsWith text "刪除"),
    (String.eqb text "提醒狀態"); cbn;
    (split; [intros H; first [discriminate | by eexists]
            | intros H; first [done | by destruct H as [? [=]]]]).
Qed.

(** ** The trigger without a key *)



(** ** Moments written out and read back *)

(** The date of a day number is a date of the calendar, and the day number
    of that date is the number. *)
Lemma civil_from_days_spec z :
  ∃ y m d,
    MomentFormat.civil_from_days z = (y, m, d)
    ∧ Moment.days_from_civil y m d = z
    ∧ 1 ≤ m ≤ 12 ∧ 1 ≤ d ≤ Moment.days_in_month y m.
Proof.
  unfold MomentFormat.civil_from_days, Moment.days_from_civil. cbv zeta.
  set (z' := z + 719468).
  set (era := z' / 146097).
  set (doe := z' - era * 146097).
  assert (Hdoe : 0 ≤ doe < 146097).
  { subst doe era. pose proof (Z.div_mod z' 146097 ltac:(lia)).
    pose proof (Z.mod_pos_bound z' 146097 ltac:(lia)). lia. }
  set (yoe := (doe - doe / 1460 + doe / 36524 - doe / 146096) / 365).
  assert (Hyoe : 0 ≤ yoe ≤ 399) by (subst yoe; Z.div_mod_to_equations; lia).
  set (doy := doe - (365 * yoe + yoe / 4 - yoe / 100)).
  assert (Hdoy : 0 ≤ doy ≤ 365) by (subst doy yoe; Z.div_mod_to_equations; lia).
  assert (Hleap : doy = 365 →
            (yoe + 1) mod 4 = 0 ∧ ((yoe + 1) mod 100 ≠ 0 ∨ (yoe + 1) mod 400 = 0))
    by (subst doy yoe; Z.div_mod_to_equations; lia).
  set (mp := (5 * doy + 2) / 153).
  assert (Hmp : 0 ≤ mp ≤ 11) by (subst mp; Z.div_mod_to_equations; lia).
  set (d := doy - (153 * mp + 2) / 5 + 1).
  assert (Hd : 1 ≤ d ≤ 31) by (subst d mp; Z.div_mod_to_equations; lia).
  eexists _, _, _. split; [reflexivity|].
  destruct (Z.ltb_spec mp 10) as [Hlt|Hge].
  - assert ((mp + 3 <=? 2) = false) as -> by (apply Z.leb_gt; lia).
    assert ((mp + 3 + 9) mod 12 = mp) as ->.
    { replace (mp + 3 + 9) with (mp + 1 * 12) by lia. rewrite Z_mod_plus_full.
      apply Z.mod_small. lia. }
    replace (yoe + era * 400 + 0) with (yoe + era * 400) by lia.
    rewrite Z.div_add by lia. rewrite (Z.div_small yoe 400) by lia.
    replace (yoe + era * 400 - (0 + era) * 400) with yoe by lia.
    split; [subst d doy doe z'; lia|]. split; [lia|]. split; [lia|].
    unfold Moment.days_in_month.
    assert ((mp + 3 =? 2) = false) as -> by (apply Z.eqb_neq; lia).
    assert (Hshort : mp = 1 ∨ mp = 3 ∨ mp = 6 ∨ mp = 8 → d ≤ 30)
      by (subst d mp; Z.div_mod_to_equations; lia).
    destruct (_ || _) eqn:Hthirty; [|lia].
    rewrite !orb_true_iff, !Z.eqb_eq in Hthirty. lia.
  - assert ((mp - 9 <=? 2) = true) as -> by (apply Z.leb_le; lia).
    assert ((mp - 9 + 9) mod 12 = mp) as ->.
    { replace (mp - 9 + 9) with mp by lia. apply Z.mod_small. lia. }
    replace (yoe + era * 400 + 1 - 1) with (yoe + era * 400) by lia.
    rewrite Z.div_add by lia. rewrite (Z.div_small yoe 400) by lia.
    replace (yoe + era * 400 - (0 + era) * 400) with yoe by lia.
    split; [subst d doy doe z'; lia|]. split; [lia|]. split; [lia|].
    unfold Moment.days_in_month.
    assert (mp = 10 ∨ mp = 11) as [Hc|Hc] by lia.
    + assert ((mp - 9 =? 2) = false) as -> by (apply Z.eqb_neq; lia).
      destruct (_ || _) eqn:Hthirty; [|lia].
      rewrite !orb_true_iff, !Z.eqb_eq in Hthirty. lia.
    + unfold Moment.is_leap.
      assert (Hmod4 : (yoe + era * 400 + 1) mod 4 = (yoe + 1) mod 4).
      { replace (yoe + era * 400 + 1) with (yoe + 1 + (era * 100) * 4) by lia.
        apply Z_mod_plus_full. }
      assert (Hmod100 : (yoe + era * 400 + 1) mod 100 = (yoe + 1) mod 100).
      { replace (yoe + era * 400 + 1) with (yoe + 1 + (era * 4) * 100) by lia.
        apply Z_mod_plus_full. }
      assert (Hmod400 : (yoe + era * 400 + 1) mod 400 = (yoe + 1) mod 400).
      { replace (yoe + era * 400 + 1) with (yoe + 1 + era * 400) by lia.
        apply Z_mod_plus_full. }
      rewrite Hmod4, Hmod100, Hmod400.
      assert ((mp - 9 =? 2) = true) as -> by (apply Z.eqb_eq; lia).
      assert (Hd' : d ≤ 28 ∨ doy = 365 ∧ d = 29)
        by (subst d mp; Z.div_mod_to_equations; lia).
      destruct Hd' as [Hd'|[Hd' ->]].
      * destruct (_ || _); lia.
      * destruct (Hleap Hd') as [H4 H100].
        apply Z.eqb_eq in H4 as ->.
        destruct H100 as [H100|H400].
        -- apply Z.eqb_neq in H100 as ->. cbn. lia.
        -- apply Z.eqb_eq in H400 as ->. rewrite orb_true_r. lia.
Qed.

(** The years whose numbers take four digits. *)
Lemma year_bounds y m d :
  1 ≤ m ≤ 12 → 1 ≤ d ≤ 31 →
  0 ≤ Moment.days_from_civil y m d < 2932897 → 1970 ≤ y ≤ 9999.
Proof.
  intros Hm Hd. unfold Moment.days_from_civil. cbv zeta.
  destruct (Z.leb_spec m 2).
  - assert ((m + 9) mod 12 = m + 9) as -> by (apply Z.mod_small; lia).
    Z.div_mod_to_equations. lia.
  - assert ((m + 9) mod 12 = m - 3) as ->.
    { replace (m + 9) with (m - 3 + 1 * 12) by lia. rewrite Z_mod_plus_full.
      apply Z.mod_small. lia. }
    Z.div_mod_to_equations. lia.
Qed.

Lemma days_in_month_le_31 y m : Moment.days_in_month y m ≤ 31.
Proof. unfold Moment.days_in_month. repeat case_match; lia. Qed.

Lemma digit_of_digit_char k :
  0 ≤ k ≤ 9 → Moment.digit (MomentFormat.digit_char k) = Some k.
Proof.
  intros Hk. unfold Moment.digit, MomentFormat.digit_char. cbv zeta.
  rewrite Ascii.nat_ascii_embedding by lia.
  assert (Z.of_nat (48 + Z.to_nat k) = 48 + k) as -> by lia.
  assert (((48 <=? 48 + k) && (48 + k <=? 57)) = true) as ->
    by (rewrite andb_true_iff, !Z.leb_le; lia).
  f_equal. lia.
Qed.

Lemma number_pad2 n : 0 ≤ n ≤ 99 → Moment.number (MomentFormat.pad2 n) = Some n.
Proof.
  intros Hn. unfold Moment.number, MomentFormat.pad2. cbn [Moment.digits_from].
  rewrite !digit_of_digit_char by (Z.div_mod_to_equations; lia).
  f_equal. Z.div_mod_to_equations. lia.
Qed.

Lemma number_pad4 n : 0 ≤ n ≤ 9999 → Moment.number (MomentFormat.pad4 n) = Some n.
Proof.
  intros Hn. unfold Moment.number, MomentFormat.pad4. cbn [Moment.digits_from].
  rewrite !digit_of_digit_char by (Z.div_mod_to_equations; lia).
  f_equal. Z.div_mod_to_equations. lia.
Qed.

Lemma parse_date_written y m d :
  0 ≤ y ≤ 9999 → 1 ≤ m ≤ 12 → 1 ≤ d ≤ Moment.days_in_month y m →
  Moment.parse_date (MomentFormat.pad4 y +:+ "-" +:+ MomentFormat.pad2 m +:+ "-"
                     +:+ MomentFormat.pad2 d)
  = Some (Moment.days_from_civil y m d).
Proof.
  intros Hy Hm Hd. pose proof (days_in_month_le_31 y m) as H31.
  pose proof (number_pad4 y Hy) as Ny.
  pose proof (number_pad2 m ltac:(lia)) as Nm.
  pose proof (number_pad2 d ltac:(lia)) as Nd.
  unfold MomentFormat.pad2, MomentFormat.pad4 in *. unfold Moment.parse_date.
  cbv [String.append]. cbn [String.length Nat.eqb negb String.substring].
  rewrite Ny, Nm, Nd. cbv beta iota.
  assert (((1 <=? m) && (m <=? 12) && (1 <=? d) && (d <=? Moment.days_in_month y m))
          = true) as -> by (rewrite !andb_true_iff, !Z.leb_le; lia).
  done.
Qed.

Lemma parse_time_written h mi sec :
  0 ≤ h ≤ 23 → 0 ≤ mi ≤ 59 → 0 ≤ sec ≤ 59 →
  Moment.parse_time_hms (MomentFormat.pad2 h +:+ ":" +:+ MomentFormat.pad2 mi +:+ ":"
                         +:+ MomentFormat.pad2 sec)
  = Some (h * 3600 + mi * 60 + sec).
Proof.
  intros Hh Hm Hs.
  pose proof (number_pad2 h ltac:(lia)) as Nh.
  pose proof (number_pad2 mi ltac:(lia)) as Nm.
  pose proof (number_pad2 sec ltac:(lia)) as Ns.
  unfold MomentFormat.pad2 in *. unfold Moment.parse_time_hms.
  cbv [String.append]. cbn [String.length Nat.eqb negb String.substring].
  rewrite Nh, Nm, Ns. cbv beta iota.
  assert (Moment.valid_hms h mi sec = true) as ->.
  { unfold Moment.valid_hms. apply orb_true_iff. left.
    rewrite !andb_true_iff, !Z.leb_le. lia. }
  done.
Qed.

(** Writing a moment as a date and a time and reading them back gives the
    moment, its milliseconds dropped. *)
Lemma written_moment t :
  0 ≤ Moment.local_day t < 2932897 →
  Moment.tz (MomentFormat.format_date t) (MomentFormat.format_time t)
  = Some (t - t mod 1000).
Proof.
  intros Hrange. unfold Moment.tz, MomentFormat.format_date, MomentFormat.format_time.
  destruct (civil_from_days_spec (Moment.local_day t)) as (y & m & d & -> & Hdays & Hm & Hd).
  pose proof (days_in_month_le_31 y m) as H31.
  assert (Hy : 1970 ≤ y ≤ 9999) by (apply (year_bounds y m d); [lia | lia | by rewrite Hdays]).
  rewrite parse_date_written by lia. cbv zeta.
  set (s := (t + Moment.utc_offset_ms) mod Moment.ms_per_day / 1000).
  assert (Hs : 0 ≤ s ≤ 86399).
  { subst s. unfold Moment.ms_per_day. Z.div_mod_to_equations. lia. }
  rewrite parse_time_written by (Z.div_mod_to_equations; lia).
  rewrite Hdays. f_equal.
  assert (s / 3600 * 3600 + s / 60 mod 60 * 60 + s mod 60 = s) as ->
    by (Z.div_mod_to_equations; lia).
  subst s. unfold Moment.local_day, Moment.ms_per_day, Moment.utc_offset_ms.
  Z.div_mod_to_equations. lia.
Qed.

(** X25.  Round trip of a moment through its texts: for every instant
    of the years 1980 to 9999 (local days 3652 to 2932896; Asia/Taipei has
    been UTC+8 the whole year since 1980), the date and the time that
    [format] writes are read back, by the parser the reminder code uses, as
    that instant with its milliseconds dropped. *)
Theorem written_moment_reads_back t :
  3652 ≤ Moment.local_day t < 2932897 →
  Moment.tz (MomentFormat.format_date t) (MomentFormat.format_time t)
  = Some (t - t mod 1000).
Proof. intros Hrange. apply written_moment. lia. Qed.

Lemma written_moment_reads_back_witness :
  Moment.tz (MomentFormat.format_date (now0 + 123)) (MomentFormat.format_time (now0 + 123))
  = Some (now0 + 123 - (now0 + 123) mod 1000).
Proof.
  apply (written_moment_reads_back (now0 + 123)).
  vm_compute. split; [discriminate | reflexivity].
Defined.

(** ** The test interview of [/create-test-interview] *)

Lemma test_interview env now clock later w row :
  0 ≤ Moment.local_day (now + 3 * Moment.ms_per_hour) < 2932897 →
  now ≤ clock → clock ≤ later → later ≤ now + 1799000 →
  (TestEndpoint.createTestInterview env now clock w).1 = Success row →
  ∃ stored,
    interviews (TestEndpoint.createTestInterview env now clock w).2 !! row.1 = Some stored
    ∧ InterviewManager.diffHours later stored
      = Some (Moment.diff_hours (now - now mod 1000 + 3 * Moment.ms_per_hour) later)
    ∧ needs R3h later stored = true
    ∧ needs R24h later stored = false.
Proof.
  intros Hrange Hclock Hlater Hsoon Hres.
  pose proof (written_moment _ Hrange) as Hread.
  unfold TestEndpoint.createTestInterview in *. cbv zeta in *.
  set (testTime := now + 3 * Moment.ms_per_hour) in *.
  set (dt := MomentFormat.format_date testTime) in *.
  set (tm := MomentFormat.format_time testTime) in *.
  pose proof (addInterview_table env clock "test-user-123" "Test Person"
                "Test Interviewer" dt tm "Testing reminder system" w) as T.
  rewrite Hres in T.
  destruct T as (Hrow & _ & _ & _ & stored & Hst & Hle & _ & H3).
  exists stored. split; [by rewrite Hrow|].
  destruct (row_le_columns _ _ Hle) as (_ & Hd & Ht).
  symmetry in Hd, Ht. rewrite Hrow in Hd, Ht, H3. cbn [snd interview_date interview_time] in Hd, Ht, H3.
  assert (Htrunc : testTime - testTime mod 1000
                   = now - now mod 1000 + 3 * Moment.ms_per_hour).
  { subst testTime. unfold Moment.ms_per_hour. Z.div_mod_to_equations. lia. }
  assert (Hmod : 0 ≤ now mod 1000 < 1000) by (apply Z.mod_pos_bound; lia).
  assert (Hdiff : ∀ t, InterviewManager.diffHours t stored
                       = Some (Moment.diff_hours
                                 (now - now mod 1000 + 3 * Moment.ms_per_hour) t)).
  { intros t. unfold InterviewManager.diffHours. by rewrite Hd, Ht, Hread, Htrunc. }
  split; [apply Hdiff|].
  assert (Hflag : reminder_3h_sent stored = false).
  { destruct (reminder_3h_sent stored) eqn:Hset; [|done].
    destruct (H3 eq_refl) as (d & Hd3 & Hlt).
    unfold InterviewManager.diffHours in Hd3.
    cbn [interview_date interview_time] in Hd3. rewrite Hread, Htrunc in Hd3.
    injection Hd3 as <-.
    unfold Moment.diff_hours, Qlt, Moment.ms_per_hour in Hlt. cbn in Hlt. lia. }
  unfold needs, InterviewManager.needs3h, InterviewManager.needs24h. cbv zeta.
  rewrite Hdiff, Hflag.
  unfold Moment.ge, Moment.le, Qle_bool, Moment.diff_hours, Moment.ms_per_hour.
  cbn [Qnum Qden negb andb].
  split.
  - rewrite andb_true_iff, !Z.leb_le. lia.
  - apply andb_false_iff. left. apply andb_false_iff. right. apply Z.leb_gt. lia.
Qed.

(** X26.  The interview that [/create-test-interview] stores: for a
    request whose test time lies in the years 1980 to 9999, when the
    creation succeeds the stored row is timed three hours after the whole
    second of the request, and at every instant from the creation to 1799
    seconds after the request the classification of a reminder cycle finds
    it due for the three-hour reminder and not for the one of the day
    before, whatever the store did with the flag writes of the creation. *)
Theorem test_interview_is_due_for_the_3h_reminder env now clock later w row :
  3652 ≤ Moment.local_day (now + 3 * Moment.ms_per_hour) < 2932897 →
  now ≤ clock → clock ≤ later → later ≤ now + 1799000 →
  (TestEndpoint.createTestInterview env now clock w).1 = Success row →
  ∃ stored,
    interviews (TestEndpoint.createTestInterview env now clock w).2 !! row.1 = Some stored
    ∧ InterviewManager.diffHours later stored
      = Some (Moment.diff_hours (now - now mod 1000 + 3 * Moment.ms_per_hour) later)
    ∧ needs R3h later stored = true
    ∧ needs R24h later stored = false.
Proof. intros Hrange. apply test_interview. lia. Qed.

Lemma test_interview_is_due_for_the_3h_reminder_witness :
  ∃ row stored,
    (TestEndpoint.createTestInterview env_ok now0 (now0 + 50) empty_world).1 = Success row
    ∧ interviews (TestEndpoint.createTestInterview env_ok now0 (now0 + 50) empty_world).2
        !! row.1 = Some stored
    ∧ needs R3h (now0 + 60000) stored = true
    ∧ needs R24h (now0 + 60000) stored = false.
Proof.
  assert (Hres : (TestEndpoint.createTestInterview env_ok now0 (now0 + 50) empty_world).1
                 = Success (1, mkInterview "test-user-123" "Test Person"
                                 (Some "Test Interviewer") "2026-03-01" "13:00:00"
                                 (Some "Testing reminder system") false false))
    by (vm_compute; reflexivity).
  assert (Hrange : 3652 ≤ Moment.local_day (now0 + 3 * Moment.ms_per_hour) < 2932897)
    by (vm_compute; split; [discriminate | reflexivity]).
  destruct (test_interview_is_due_for_the_3h_reminder env_ok now0 (now0 + 50)
              (now0 + 60000) empty_world _ Hrange ltac:(lia) ltac:(lia) ltac:(lia) Hres)
    as (stored & Hst & _ & H3 & H24).
  eexists _, stored. split; [exact Hres|]. split; [exact Hst|]. split; assumption.
Defined.
